(** * RawDFFParser: the chunk locator and the PS2 native geometry decoder

    A shallow embedding of [Python/RawDFFParser.py]: the binary reader [BR],
    [find_chunk_positions], [parse_binmesh_plg] and [parse_native_data_plg]
    (with its vertex decoding and its triangle reconstruction), and the
    properties of them that the specification states. *)

From Stdlib Require Import ZArith List Bool Lia PrimFloat Uint63 Floats.
From Stdlib.Strings Require Import Byte.
From Stdlib.Strings Require String.
From Stdlib Require DecimalString.
Import ListNotations.

Local Open Scope Z_scope.

(** ** Python values and exceptions *)

(** The places where the module unpacks a fixed-width field without a
    [try]; a [struct.error] raised there leaves the parser.  The tag plays
    the part of the traceback. *)
Inductive site : Type :=
| InBinMeshHeader    (* parse_binmesh_plg, section header and the three counts *)
| InBinMeshSplit     (* parse_binmesh_plg, iIndexCount / iMaterialIndex *)
| InNativeHeader     (* parse_native_data_plg, the seven leading words *)
| InSplitHeader      (* parse_native_data_plg, uiSplitSize / uiDMASize *)
| InDmaEntry         (* parse_native_data_plg, uiDataOffset / uiDataType *)
| InTry.             (* a read inside a try/except *)

Inductive exn : Type :=
| StructError (s : site)          (* struct.error: unpack needs more bytes *)
| PackError                       (* struct.error: pack argument out of range *)
| SeekError                       (* seek to a negative absolute offset *)
| IndexError                      (* list index out of range *)
| MissingStructId (pos : Z)       (* Exception("NativeDataPLG did not contain expected Struct ID ...") *)
| UnsupportedPlatform (p : Z).    (* Exception("Unsupported platform 0x%X") *)

(** The outcome of running a piece of the module from a cursor position:
    a value and the new cursor, an exception and the cursor it was raised
    at, or [OutOfFuel] when a [while] loop was cut by its fuel. *)
Inductive outcome (A : Type) : Type :=
| Ok (a : A) (pos : Z)
| Raise (e : exn) (pos : Z)
| OutOfFuel.

Arguments Ok {A} a pos.
Arguments Raise {A} e pos.
Arguments OutOfFuel {A}.

Definition file := list byte.

(** A computation over the open file: the bytes are never written, the
    cursor is threaded. *)
Definition M (A : Type) : Type := file -> Z -> outcome A.

Definition ret {A} (a : A) : M A := fun _ pos => Ok a pos.

Definition bind {A B} (m : M A) (k : A -> M B) : M B :=
  fun f pos =>
    match m f pos with
    | Ok a pos' => k a f pos'
    | Raise e pos' => Raise e pos'
    | OutOfFuel => OutOfFuel
    end.

Definition raise {A} (e : exn) : M A := fun _ pos => Raise e pos.

(** [try: m  except Exception: h] *)
Definition try_except {A} (m : M A) (h : M A) : M A :=
  fun f pos =>
    match m f pos with
    | Raise _ pos' => h f pos'
    | r => r
    end.

Declare Scope br_scope.
Delimit Scope br_scope with br.
Notation "x <- m ;; k" := (bind m (fun x => k))
  (at level 61, m at next level, right associativity) : br_scope.
Notation "m ;; k" := (bind m (fun _ => k))
  (at level 61, right associativity) : br_scope.
Local Open Scope br_scope.

(** ** [struct] *)

Inductive byteorder : Type := LittleEndian | BigEndian.

(** [endian = '<'] *)
Definition endian : byteorder := LittleEndian.

Definition byte_val (b : byte) : Z := Z.of_N (Byte.to_N b).

Fixpoint le_value (bs : list byte) : Z :=
  match bs with
  | [] => 0
  | b :: r => byte_val b + 256 * le_value r
  end.

Definition unsigned_value (o : byteorder) (bs : list byte) : Z :=
  match o with
  | LittleEndian => le_value bs
  | BigEndian => le_value (rev bs)
  end.

Definition to_signed (bits : Z) (v : Z) : Z :=
  if v <? 2 ^ (bits - 1) then v else v - 2 ^ bits.

(** [struct.unpack(fmt, data)[0]] for the integer formats of width [n]
    bytes; fewer bytes than [n] is a [struct.error]. *)
Definition unpack (o : byteorder) (signed : bool) (n : nat) (data : list byte)
  : option Z :=
  if Nat.eqb (length data) n then
    let v := unsigned_value o data in
    Some (if signed then to_signed (8 * Z.of_nat n) v else v)
  else None.

Definition byte_of_Z (v : Z) : byte :=
  match Byte.of_N (Z.to_N (v mod 256)) with
  | Some b => b
  | None => x00
  end.

Fixpoint le_bytes (n : nat) (v : Z) : list byte :=
  match n with
  | O => []
  | S n' => byte_of_Z v :: le_bytes n' (v / 256)
  end.

(** [struct.pack(endian + "i", v)] *)
Definition pack_i32 (o : byteorder) (v : Z) : option (list byte) :=
  if (- 2 ^ 31 <=? v) && (v <? 2 ^ 31) then
    let bs := le_bytes 4 (v mod 2 ^ 32) in
    Some (match o with LittleEndian => bs | BigEndian => rev bs end)
  else None.

(** ** class BR *)

Definition len (f : file) : Z := Z.of_nat (length f).

(** [f.read(n)]: the bytes from the cursor, at most [n], and the cursor
    moved by as many as were returned. *)
Definition file_read (n : nat) : M (list byte) :=
  fun f pos =>
    let data := firstn n (skipn (Z.to_nat pos) f) in
    Ok data (pos + Z.of_nat (length data)).

Definition pos : M Z := fun _ p => Ok p p.

(** [seek(offset, 0)]; a negative offset is refused.  The offsets the
    module seeks to are sums of a position in the file and of 32-bit
    fields times at most 16, far below the largest offset a file accepts. *)
Definition seek_set (offset : Z) : M unit :=
  fun _ p => if offset <? 0 then Raise SeekError p else Ok tt offset.

(** [seek(offset, 1)]; every call of the module has a positive [offset]. *)
Definition seek_cur (offset : Z) : M unit :=
  fun _ p => if p + offset <? 0 then Raise SeekError p else Ok tt (p + offset).

Definition read_int (s : site) (signed : bool) (n : nat) : M Z :=
  data <- file_read n ;;
  match unpack endian signed n data with
  | Some v => ret v
  | None => raise (StructError s)
  end.

Definition read_i32 (s : site) : M Z := read_int s true 4.
Definition read_u32 (s : site) : M Z := read_int s false 4.
Definition read_i16 (s : site) : M Z := read_int s true 2.
Definition read_u8 (s : site) : M Z := read_int s false 1.
Definition read_i8 (s : site) : M Z := read_int s true 1.
Definition read_bytes (n : nat) : M (list byte) := file_read n.

(** ** Constants *)

Definition BINMESH_PLG_ID : Z := 0x50E.
Definition NATIVE_DATA_PLG_ID : Z := 0x510.
Definition STRUCT_ID : Z := 0x1.
Definition DMATAG_VERTEX_4_INT16 : Z := 0x6D008000.
Definition SCALE : float := (1.0 / 128.0)%float.

(** ** Vertices *)

(** [mathutils.Vector] of three components.  The components the decoder
    stores are products [k * SCALE] with [k] a signed 16-bit integer; each
    is a multiple of 2^-7 of magnitude at most 2^8, which the single
    precision storage of [Vector] holds without rounding, so a component
    reads back as the product that was stored. *)
Record Vector : Type := mkVector { vx : float; vy : float; vz : float }.

(** [float(v)] of a Python int. *)
Definition float_of_int (v : Z) : float :=
  if v <? 0 then (- PrimFloat.of_uint63 (Uint63.of_Z (- v)))%float
  else PrimFloat.of_uint63 (Uint63.of_Z v).

(** One pass of the body of [for vi in range(idxcount)]: [None] is the
    [break] of the [except] branch. *)
Definition read_vertex : M (option Vector) :=
  r <- try_except
         (x <- read_i16 InTry ;;
          y <- read_i16 InTry ;;
          z <- read_i16 InTry ;;
          ret (Some (float_of_int x, float_of_int y, float_of_int z)))
         (ret None) ;;
  match r with
  | None => ret None
  | Some (x, y, z) =>
      seek_cur 2 ;;
      ret (Some (mkVector (x * SCALE) (y * SCALE) (z * SCALE)))
  end.

(** [for vi in range(idxcount): ...] appending to [verts]. *)
Fixpoint read_vertices (count : nat) (verts : list Vector) : M (list Vector) :=
  match count with
  | O => ret verts
  | S count' =>
      v <- read_vertex ;;
      match v with
      | None => ret verts
      | Some v => read_vertices count' (verts ++ [v])
      end
  end.

(** The signed 16-bit value of two bytes in the file's order. *)
Definition i16_of (lo hi : byte) : Z :=
  to_signed 16 (byte_val lo + 256 * byte_val hi).

(** ** find_chunk_positions *)

(** [s.startswith(pattern)] *)
Fixpoint startswith (s pattern : list byte) : bool :=
  match pattern, s with
  | [], _ => true
  | p :: ps, c :: cs => Byte.eqb p c && startswith cs ps
  | _ :: _, [] => false
  end.

(** The lowest index at or after the head of [s] where [pattern] starts,
    [idx] being the index of the head; -1 when there is none. *)
Fixpoint find_in (s pattern : list byte) (idx : Z) : Z :=
  if startswith s pattern then idx
  else match s with
       | [] => -1
       | _ :: t => find_in t pattern (idx + 1)
       end.

(** [chunk.find(pattern, start)] *)
Definition bytes_find (chunk pattern : list byte) (start : Z) : Z :=
  let start := if start <? 0 then Z.max 0 (start + len chunk) else start in
  if len chunk <? start then -1
  else find_in (skipn (Z.to_nat start) chunk) pattern start.

(** The [while True] loop of [find_chunk_positions]. *)
Fixpoint find_loop (fuel : nat) (chunk pattern : list byte) (start : Z)
         (matches : list Z) : option (list Z) :=
  match fuel with
  | O => None
  | S fuel' =>
      let idx := bytes_find chunk pattern start in
      if idx =? -1 then Some matches
      else find_loop fuel' chunk pattern (idx + 4) (matches ++ [idx])
  end.

(** [f.seek(0, 2)] *)
Definition seek_end : M unit := fun f _ => Ok tt (len f).

(** [f.read()] *)
Definition file_read_all : M (list byte) :=
  fun f p => let data := skipn (Z.to_nat p) f in Ok data (p + len data).

Definition find_chunk_positions (target_id : Z) : M (list Z) :=
  seek_end ;;
  filesize <- pos ;;
  seek_set 0 ;;
  chunk <- file_read_all ;;
  match pack_i32 endian target_id with
  | None => raise PackError
  | Some pattern =>
      fun _ p =>
        match find_loop (S (length chunk)) chunk pattern 0 [] with
        | Some matches => Ok matches p
        | None => OutOfFuel
        end
  end.

(** *** What the locator is to return *)

(** [pattern] occurs in [f] at byte offset [o]. *)
Definition occurs_at (f pattern : list byte) (o : Z) : Prop :=
  exists pre post, f = pre ++ pattern ++ post /\ len pre = o.

(** The offsets of a left-to-right scan from [start] that takes the first
    occurrence at or after [start] and resumes four bytes after it. *)
Inductive scan (f pattern : list byte) : Z -> list Z -> Prop :=
| scan_end start :
    (forall o, start <= o -> ~ occurs_at f pattern o) ->
    scan f pattern start []
| scan_hit start k rest :
    start <= k ->
    occurs_at f pattern k ->
    (forall o, start <= o < k -> ~ occurs_at f pattern o) ->
    scan f pattern (k + 4) rest ->
    scan f pattern start (k :: rest).

Fixpoint ascending (l : list Z) : Prop :=
  match l with
  | [] => True
  | a :: r => match r with [] => True | b :: _ => a < b end /\ ascending r
  end.

(** ** Python lists and ranges *)

(** [l[i]] *)
Definition list_get {A} (l : list A) (i : Z) : M A :=
  fun _ p =>
    let j := if i <? 0 then i + Z.of_nat (length l) else i in
    if j <? 0 then Raise IndexError p
    else match nth_error l (Z.to_nat j) with
         | Some a => Ok a p
         | None => Raise IndexError p
         end.

(** [range(a, b)] *)
Definition range (a b : Z) : list Z :=
  map (fun k => a + Z.of_nat k) (seq 0 (Z.to_nat (b - a))).

(** ** parse_binmesh_plg *)

Record mesh_entry : Type := mkMeshEntry {
  iIndexCount : Z;
  iMaterialIndex : Z;
  VertexIndices : option (list Z)
}.

(** The dictionary [parse_binmesh_plg] returns; the two last keys are
    absent from the one returned for an empty section. *)
Record binmesh : Type := mkBinMesh {
  iMaterialSplitCount : Z;
  binMeshes : list mesh_entry;
  section_size : option Z;
  section_offset : option Z
}.

(** [for _ in range(iIndexCount): try: idxs.append(br.read_i32())
    except Exception: break] *)
Fixpoint read_indices (count : nat) (idxs : list Z) : M (list Z) :=
  match count with
  | O => ret idxs
  | S count' =>
      r <- try_except (v <- read_i32 InTry ;; ret (Some v)) (ret None) ;;
      match r with
      | None => ret idxs
      | Some v => read_indices count' (idxs ++ [v])
      end
  end.

(** The size test of the header: explicit index arrays follow the splits. *)
Definition has_explicit_indices (iSectionSize iMaterialSplitCount : Z) : bool :=
  negb (iSectionSize =? 12 + 8 * iMaterialSplitCount).

(** The body of [for i in range(iMaterialSplitCount)]. *)
Definition read_mesh_entry (iSectionSize iMaterialSplitCount : Z) : M mesh_entry :=
  iIndexCount <- read_i32 InBinMeshSplit ;;
  iMaterialIndex <- read_i32 InBinMeshSplit ;;
  if has_explicit_indices iSectionSize iMaterialSplitCount then
    idxs <- read_indices (Z.to_nat iIndexCount) [] ;;
    ret (mkMeshEntry iIndexCount iMaterialIndex (Some idxs))
  else
    ret (mkMeshEntry iIndexCount iMaterialIndex None).

Fixpoint read_mesh_entries (count : nat) (iSectionSize iMaterialSplitCount : Z)
         (binMeshes : list mesh_entry) : M (list mesh_entry) :=
  match count with
  | O => ret binMeshes
  | S count' =>
      mesh_entry <- read_mesh_entry iSectionSize iMaterialSplitCount ;;
      read_mesh_entries count' iSectionSize iMaterialSplitCount
                        (binMeshes ++ [mesh_entry])
  end.

Definition parse_binmesh_plg (offset : Z) : M binmesh :=
  seek_set offset ;;
  section_id <- read_i32 InBinMeshHeader ;;
  iSectionSize <- read_i32 InBinMeshHeader ;;
  iRenderWareVersion <- read_i32 InBinMeshHeader ;;
  data_start <- pos ;;
  if iSectionSize =? 12 then
    ret (mkBinMesh 0 [] None None)
  else
    iFaceType <- read_i32 InBinMeshHeader ;;
    iMaterialSplitCount <- read_i32 InBinMeshHeader ;;
    iTotalFaceCount <- read_i32 InBinMeshHeader ;;
    binMeshes <- read_mesh_entries (Z.to_nat iMaterialSplitCount)
                                   iSectionSize iMaterialSplitCount [] ;;
    ret (mkBinMesh iMaterialSplitCount binMeshes
                   (Some iSectionSize) (Some offset)).

(** ** parse_native_data_plg *)

(** The dictionary [ms] of one material split; [HasVertexData] is [false]
    while the key is absent ([ms.get("HasVertexData", False)]). *)
Record material_split : Type := mkSplit {
  ms_iMaterialIndex : Z;
  Vertices : option (list Vector);
  Triangles : list Z;
  HasVertexData : bool
}.

(** *** Triangle reconstruction *)

(** The three [==] of one duplicate-vertex check. *)
Definition same_position (a b : Vector) : bool :=
  (vx a =? vx b)%float && (vy a =? vy b)%float && (vz a =? vz b)%float.

Definition degenerate (v_i v_i1 v_i2 : Vector) : bool :=
  same_position v_i v_i1 || same_position v_i v_i2 || same_position v_i1 v_i2.

(** [for i in range(2, vc)], over the indices still to visit. *)
Fixpoint triangle_loop (indices : list Z) (verts : list Vector) (tris : list Z)
  : M (list Z) :=
  match indices with
  | [] => ret tris
  | i :: indices' =>
      v_i <- list_get verts i ;;
      v_i1 <- list_get verts (i - 1) ;;
      v_i2 <- list_get verts (i - 2) ;;
      if degenerate v_i v_i1 v_i2 then
        triangle_loop indices' verts tris
      else if i mod 2 =? 0 then
        triangle_loop indices' verts (tris ++ [i; i - 2; i - 1])
      else
        triangle_loop indices' verts (tris ++ [i - 1; i - 2; i])
  end.

Definition reconstruct_triangles (verts : list Vector) : M (list Z) :=
  let vc := Z.of_nat (length verts) in
  triangle_loop (range 2 vc) verts [].

(** [if ms.get("HasVertexData", False) and ms["Vertices"] is not None: ...] *)
Definition add_triangles (ms : material_split) : M material_split :=
  match HasVertexData ms, Vertices ms with
  | true, Some verts =>
      tris <- reconstruct_triangles verts ;;
      ret (mkSplit (ms_iMaterialIndex ms) (Vertices ms) tris (HasVertexData ms))
  | _, _ => ret ms
  end.

(** *** The DMA entries of one split *)

(** The fields read from one entry of the micro-stream. *)
Record DMAEntry : Type := mkDMAEntry {
  bDMAId : Z;
  uiDataOffset : Z;
  uiDataType : Z       (* already masked with 0xFF00FFFF *)
}.

(** The reads at the head of the [while] body; [None] is the [break] taken
    when the id byte cannot be read. *)
Definition read_dma_entry : M (option DMAEntry) :=
  seek_cur 3 ;;
  id <- try_except (v <- read_u8 InTry ;; ret (Some v)) (ret None) ;;
  match id with
  | None => ret None
  | Some bDMAId =>
      uiDataOffset <- read_u32 InDmaEntry ;;
      seek_cur 4 ;;
      uiDataType <- read_u32 InDmaEntry ;;
      ret (Some (mkDMAEntry bDMAId uiDataOffset (Z.land uiDataType 0xFF00FFFF)))
  end.

(** An entry whose vertex block the decoder reads. *)
Definition is_vertex_entry (e : DMAEntry) : bool :=
  (bDMAId e =? 0x30) && (uiDataType e =? DMATAG_VERTEX_4_INT16).

(** The [if uiDataType == DMATAG_VERTEX_4_INT16] block. *)
Definition read_vertex_block (bm : binmesh) (split_idx lDataPosition : Z)
           (ms : material_split) : M material_split :=
  oldpos <- pos ;;
  seek_set lDataPosition ;;
  entry <- list_get (binMeshes bm) split_idx ;;
  let idxcount := iIndexCount entry in
  verts <- read_vertices (Z.to_nat idxcount) [] ;;
  seek_set oldpos ;;
  ret (mkSplit (ms_iMaterialIndex ms) (Some verts) (Triangles ms) true).

(** The [if bDMAId == 0x30 / elif bDMAId == 0x10 / else] of the body: the
    split and the flag [bReachedEnd] after the entry. *)
Definition process_dma_entry (bm : binmesh) (split_idx lSectionStart : Z)
           (e : DMAEntry) (ms : material_split) (bReachedEnd : bool)
  : M (material_split * bool) :=
  let lDataPosition := lSectionStart + uiDataOffset e * 16 in
  if bDMAId e =? 0x30 then
    ms' <- (if uiDataType e =? DMATAG_VERTEX_4_INT16
            then read_vertex_block bm split_idx lDataPosition ms
            else ret ms) ;;
    seek_cur 16 ;;
    ret (ms', bReachedEnd)
  else if bDMAId e =? 0x10 then
    ret (ms, true)
  else
    ret (ms, bReachedEnd).

Definition out_of_fuel {A} : M A := fun _ _ => OutOfFuel.

(** [while (br.pos() < lDMASectionEnd) and (not bReachedEnd): ...] *)
Fixpoint dma_loop (fuel : nat) (bm : binmesh)
         (split_idx lSectionStart lDMASectionEnd : Z)
         (ms : material_split) (bReachedEnd : bool) : M material_split :=
  match fuel with
  | O => out_of_fuel
  | S fuel' =>
      p <- pos ;;
      if (p <? lDMASectionEnd) && negb bReachedEnd then
        e <- read_dma_entry ;;
        match e with
        | None => ret ms
        | Some e =>
            r <- process_dma_entry bm split_idx lSectionStart e ms bReachedEnd ;;
            dma_loop fuel' bm split_idx lSectionStart lDMASectionEnd
                     (fst r) (snd r)
        end
      else ret ms
  end.

(** The entries the loop above goes through, in order: the same walk,
    keeping the entries instead of the split. *)
Fixpoint dma_entries (fuel : nat) (bm : binmesh)
         (split_idx lSectionStart lDMASectionEnd : Z)
         (ms : material_split) (bReachedEnd : bool) : M (list DMAEntry) :=
  match fuel with
  | O => out_of_fuel
  | S fuel' =>
      p <- pos ;;
      if (p <? lDMASectionEnd) && negb bReachedEnd then
        e <- read_dma_entry ;;
        match e with
        | None => ret []
        | Some e =>
            r <- process_dma_entry bm split_idx lSectionStart e ms bReachedEnd ;;
            es <- dma_entries fuel' bm split_idx lSectionStart lDMASectionEnd
                              (fst r) (snd r) ;;
            ret (e :: es)
        end
      else ret []
  end.

(** A bound on the passes of the loop: a pass that goes on has read a byte
    of the file and moved the cursor forward. *)
Definition dma_fuel : M nat := fun f p => Ok (S (length f)) p.

(** The body of [for split_idx in range(matcount)]. *)
Definition parse_split (bm : binmesh) (split_idx : Z) : M material_split :=
  uiSplitSize <- read_u32 InSplitHeader ;;
  seek_cur 4 ;;
  lSectionStart <- pos ;;
  seek_cur 4 ;;
  dma_words <- read_u32 InSplitHeader ;;
  let uiDMASize := dma_words * 16 in
  seek_set lSectionStart ;;
  let lDMASectionEnd := lSectionStart + uiDMASize in
  let lSectionEnd := lSectionStart + uiSplitSize in
  entry <- list_get (binMeshes bm) split_idx ;;
  let ms := mkSplit (iMaterialIndex entry) None [] false in
  fuel <- dma_fuel ;;
  ms <- dma_loop fuel bm split_idx lSectionStart lDMASectionEnd ms false ;;
  ms <- add_triangles ms ;;
  seek_set lSectionEnd ;;
  ret ms.

Fixpoint parse_splits (indices : list Z) (bm : binmesh)
         (material_splits : list material_split) : M (list material_split) :=
  match indices with
  | [] => ret material_splits
  | split_idx :: indices' =>
      ms <- parse_split bm split_idx ;;
      parse_splits indices' bm (material_splits ++ [ms])
  end.

Definition parse_native_data_plg (offset : Z) (bm : binmesh)
  : M (list material_split) :=
  seek_set offset ;;
  _sid <- read_i32 InNativeHeader ;;
  iSectionSize <- read_i32 InNativeHeader ;;
  iRenderWareVersion <- read_i32 InNativeHeader ;;
  maybe_struct <- read_i32 InNativeHeader ;;
  if negb (maybe_struct =? STRUCT_ID) then
    p <- pos ;; raise (MissingStructId p)
  else
    struct_section_size <- read_i32 InNativeHeader ;;
    struct_rwv <- read_i32 InNativeHeader ;;
    if struct_section_size =? 4 then
      ret []
    else
      uiPlatform <- read_u32 InNativeHeader ;;
      if negb (uiPlatform =? 0x4) then
        raise (UnsupportedPlatform uiPlatform)
      else
        let matcount := iMaterialSplitCount bm in
        parse_splits (range 0 matcount) bm [].

(** ** import_dff *)

(** [import_dff] up to the list of splits; [None] is the early [return]
    taken when one of the two chunks is not found.  The objects built from
    the splits are left out. *)
Definition import_dff : M (option (list material_split)) :=
  binmesh_positions <- find_chunk_positions BINMESH_PLG_ID ;;
  native_positions <- find_chunk_positions NATIVE_DATA_PLG_ID ;;
  match binmesh_positions, native_positions with
  | [], _ => ret None
  | _, [] => ret None
  | binmesh_off :: _, native_off :: _ =>
      binmesh <- parse_binmesh_plg binmesh_off ;;
      splits <- parse_native_data_plg native_off binmesh ;;
      ret (Some splits)
  end.

(** ** Sample files *)

(** Little-endian 32-bit words and 16-bit halves as file bytes. *)
Definition words (l : list Z) : file := flat_map (le_bytes 4) l.
Definition halves (l : list Z) : file := flat_map (le_bytes 2) l.

(** A vertex block of five distinct points, each with its two pad bytes. *)
Definition five_vertices : file :=
  halves [256; -128; 0; 0;   0; 128; 0; 0;   128; 128; 0; 0;
          128; 0; 64; 0;     -256; 0; 64; 0].

(** A native-data chunk at offset 0 with one split: a 0x30 entry with the
    vertex tag (and a variant byte that the mask clears), its 16-byte
    trailer, and the vertex block at word offset 2 of the split. *)
Definition sample_native : file :=
  words [NATIVE_DATA_PLG_ID; 128; 0x1C020065; STRUCT_ID; 116; 0x1C020065; 0x4;
         72; 0;
         0x30000000; 2; 0; 0x6D058000;   0; 0; 0; 0]
  ++ five_vertices.

Definition sample_binmesh : binmesh :=
  mkBinMesh 1 [mkMeshEntry 5 7 None] (Some 20) (Some 0).

(** A whole file: the mesh-split section of that header, then the chunk. *)
Definition sample_dff : file :=
  words [BINMESH_PLG_ID; 20; 0x1C020065; 0; 1; 3;  5; 7] ++ sample_native.

(** ** The bytes of the file at an offset *)

(** [f[p : p + n]] *)
Definition slice (f : file) (p : Z) (n : nat) : list byte :=
  firstn n (skipn (Z.to_nat p) f).

(** The signed 32-bit word stored at offset [p], when the file holds all
    four bytes of it. *)
Definition word_at (f : file) (p : Z) : option Z :=
  unpack endian true 4 (slice f p 4).

(** The unsigned reading of the same four bytes. *)
Definition uword_at (f : file) (p : Z) : option Z :=
  unpack endian false 4 (slice f p 4).

(** The layout of the mesh entries from offset [p] on: the two words of a
    split, then, when the header carries explicit indices, the index words
    of that split, then the next split.  A list shorter than the split's
    count ends where the file has no further whole word, and is the list of
    the last entry. *)
Fixpoint laid_out (f : file) (explicit : bool) (p : Z) (ms : list mesh_entry)
  : Prop :=
  match ms with
  | [] => True
  | m :: rest =>
      word_at f p = Some (iIndexCount m)
      /\ word_at f (p + 4) = Some (iMaterialIndex m)
      /\ match explicit, VertexIndices m with
         | false, None => laid_out f explicit (p + 8) rest
         | true, Some idxs =>
             let n := Z.of_nat (length idxs) in
             (forall j, (j < length idxs)%nat ->
                        word_at f (p + 8 + 4 * Z.of_nat j) = nth_error idxs j)
             /\ (n = Z.max 0 (iIndexCount m)
                 \/ (n < iIndexCount m /\ word_at f (p + 8 + 4 * n) = None
                     /\ rest = []))
             /\ laid_out f explicit (p + 8 + 4 * n) rest
         | _, _ => False
         end
  end.

(** The reading of the header in which every explicit list is as long as
    the split's [iIndexCount] says. *)
Definition indices_as_declared (sz : Z) (bm : binmesh) : Prop :=
  (sz = 12 + 8 * iMaterialSplitCount bm ->
   Forall (fun m => VertexIndices m = None) (binMeshes bm))
  /\ (sz <> 12 + 8 * iMaterialSplitCount bm ->
      Forall (fun m => exists idxs, VertexIndices m = Some idxs
                                    /\ Z.of_nat (length idxs) = iIndexCount m)
             (binMeshes bm)).

(** A mesh-split section of declared size 40 with one split of three
    indices, in a file that ends after the first of them. *)
Definition binmesh_cut_short : file :=
  words [BINMESH_PLG_ID; 40; 0x1C020065; 0; 1; 3;  3; 9;  11].

(** The same section with the three indices, and a section of two splits
    without explicit indices. *)
Definition binmesh_explicit : file :=
  words [BINMESH_PLG_ID; 40; 0x1C020065; 0; 1; 3;  3; 9;  11; 12; 13].

Definition binmesh_plain : file :=
  words [BINMESH_PLG_ID; 28; 0x1C020065; 0; 2; 8;  5; 7;  4; 8].

Definition binmesh_empty : file :=
  words [BINMESH_PLG_ID; 12; 0x1C020065; 99; 99].

(** ** What the strip reconstruction is to emit *)

(** The indices emitted for the window ending at [i]: nothing when two of
    the three vertices have the same coordinates, else the triple with the
    winding of the parity of [i]. *)
Definition candidate (verts : list Vector) (i : Z) : list Z :=
  match nth_error verts (Z.to_nat i),
        nth_error verts (Z.to_nat (i - 1)),
        nth_error verts (Z.to_nat (i - 2)) with
  | Some v_i, Some v_i1, Some v_i2 =>
      if same_position v_i v_i1 || same_position v_i v_i2
         || same_position v_i1 v_i2
      then []
      else if Z.even i then [i; i - 2; i - 1] else [i - 1; i - 2; i]
  | _, _, _ => []
  end.

(** Two vertices equal in all three coordinates, as the [==] of Python
    floats compares them: without a tolerance. *)
Definition equal_coordinates (a b : Vector) : Prop :=
  (vx a =? vx b)%float = true
  /\ (vy a =? vy b)%float = true
  /\ (vz a =? vz b)%float = true.

(** The rule of the window ending at [i], with [v_i], [v_i1] and [v_i2] the
    vertices at [i], [i - 1] and [i - 2]: nothing is emitted when two of the
    three are equal in all three coordinates; otherwise (i, i-2, i-1) for an
    even [i] and (i-1, i-2, i) for an odd one. *)
Inductive window_emits (verts : list Vector) (i : Z) : list Z -> Prop :=
| emits_nothing (v_i v_i1 v_i2 : Vector) :
    nth_error verts (Z.to_nat i) = Some v_i ->
    nth_error verts (Z.to_nat (i - 1)) = Some v_i1 ->
    nth_error verts (Z.to_nat (i - 2)) = Some v_i2 ->
    equal_coordinates v_i v_i1 \/ equal_coordinates v_i v_i2
    \/ equal_coordinates v_i1 v_i2 ->
    window_emits verts i []
| emits_even (v_i v_i1 v_i2 : Vector) :
    nth_error verts (Z.to_nat i) = Some v_i ->
    nth_error verts (Z.to_nat (i - 1)) = Some v_i1 ->
    nth_error verts (Z.to_nat (i - 2)) = Some v_i2 ->
    ~ equal_coordinates v_i v_i1 -> ~ equal_coordinates v_i v_i2 ->
    ~ equal_coordinates v_i1 v_i2 ->
    Z.even i = true ->
    window_emits verts i [i; i - 2; i - 1]
| emits_odd (v_i v_i1 v_i2 : Vector) :
    nth_error verts (Z.to_nat i) = Some v_i ->
    nth_error verts (Z.to_nat (i - 1)) = Some v_i1 ->
    nth_error verts (Z.to_nat (i - 2)) = Some v_i2 ->
    ~ equal_coordinates v_i v_i1 -> ~ equal_coordinates v_i v_i2 ->
    ~ equal_coordinates v_i1 v_i2 ->
    Z.odd i = true ->
    window_emits verts i [i - 1; i - 2; i].

(** No two vertices of the list, at different places, are equal in all
    three coordinates. *)
Definition all_distinct (verts : list Vector) : Prop :=
  forall (i j : nat) (a b : Vector),
    i <> j -> nth_error verts i = Some a -> nth_error verts j = Some b ->
    ~ equal_coordinates a b.

(** The vertices of [five_vertices] as the decoder stores them. *)
Definition five_points : list Vector :=
  [mkVector 2 (-1) 0; mkVector 0 1 0; mkVector 1 1 0;
   mkVector 1 0 0.5; mkVector (-2) 0 0.5].

(** Six vertices with the third one repeated, as an encoder restarts a
    strip: the windows ending at 3 and at 4 hold the repeated vertex twice. *)
Definition strip_with_restart : list Vector :=
  [mkVector 2 (-1) 0; mkVector 0 1 0; mkVector 1 1 0; mkVector 1 1 0;
   mkVector 1 0 0.5; mkVector (-2) 0 0.5].

(** Three vertices one unit of the 16-bit encoding apart in one
    coordinate. *)
Definition near_points : list Vector :=
  [mkVector (float_of_int 256 * SCALE) 0 0;
   mkVector (float_of_int 257 * SCALE) 0 0;
   mkVector (float_of_int 258 * SCALE) 0 0].

(** ** What the decoder is to produce *)

(** The vertices a block at offset [q] yields for a count of [n]. *)
Definition vertices_at (f : file) (q : Z) (n : nat) : list Vector :=
  match read_vertices n [] f q with
  | Ok verts _ => verts
  | _ => []
  end.

(** The vertex stored in the eight bytes at offset [q], when the file holds
    the six bytes of its three components. *)
Definition vertex_at (f : file) (q : Z) : option Vector :=
  match unpack endian true 2 (slice f q 2),
        unpack endian true 2 (slice f (q + 2) 2),
        unpack endian true 2 (slice f (q + 4) 2) with
  | Some x, Some y, Some z =>
      Some (mkVector (float_of_int x * SCALE) (float_of_int y * SCALE)
                     (float_of_int z * SCALE))
  | _, _, _ => None
  end.

(** The last entry of the walk whose vertex block was read. *)
Fixpoint last_vertex_entry (es : list DMAEntry) : option DMAEntry :=
  match es with
  | [] => None
  | e :: es' =>
      match last_vertex_entry es' with
      | Some e' => Some e'
      | None => if is_vertex_entry e then Some e else None
      end
  end.

(** The header's splits are all there: [binMeshes] has an entry for every
    index below [iMaterialSplitCount], as in every header that
    [parse_binmesh_plg] returns. *)
Definition splits_listed (bm : binmesh) : Prop :=
  (Z.to_nat (iMaterialSplitCount bm) <= length (binMeshes bm))%nat.

(** The split dictionary before its DMA entries are read. *)
Definition fresh_split (entry : mesh_entry) : material_split :=
  mkSplit (iMaterialIndex entry) None [] false.

(** The split after entry [e] has been processed, [idxcount] being the
    split's [iIndexCount]: a vertex entry puts the vertices of its block in
    the place of whatever the split held; no other entry touches the
    split. *)
Definition after_entry (f : file) (idxcount lSectionStart : Z)
           (ms : material_split) (e : DMAEntry) : material_split :=
  if is_vertex_entry e then
    mkSplit (ms_iMaterialIndex ms)
            (Some (vertices_at f (lSectionStart + uiDataOffset e * 16)
                               (Z.to_nat idxcount)))
            (Triangles ms) true
  else ms.

(** The split with the triangles of its vertices. *)
Definition with_triangles (ms : material_split) : material_split :=
  match HasVertexData ms, Vertices ms with
  | true, Some verts =>
      mkSplit (ms_iMaterialIndex ms) (Vertices ms)
              (flat_map (candidate verts) (range 2 (Z.of_nat (length verts))))
              (HasVertexData ms)
  | _, _ => ms
  end.

(** [ms] is what the body of the loop over the splits returns for the
    split of index [idx], from some cursor position. *)
Definition split_from (bm : binmesh) (f : file) (idx : Z)
           (ms : material_split) : Prop :=
  exists p pf, 0 <= p /\ parse_split bm idx f p = Ok ms pf.

(** The count of a split as the 32-bit field of the file declares it; the
    parser keeps the same four bytes as a signed integer. *)
Definition declared_index_count (entry : mesh_entry) : Z :=
  iIndexCount entry mod 2 ^ 32.

Definition in_i32 (v : Z) : Prop := - 2 ^ 31 <= v < 2 ^ 31.


(** A second vertex block, and a chunk whose only split has two vertex
    entries: the first for the block of [five_vertices] (word offset 4), the
    second for the block below (word offset 7). *)
Definition five_vertices_b : file :=
  halves [0; 0; 128; 0;   128; 0; 128; 0;   0; 128; 128; 0;
          -128; 0; 128; 0;   0; -128; 128; 0].

Definition two_block_native : file :=
  words [NATIVE_DATA_PLG_ID; 192; 0x1C020065; STRUCT_ID; 180; 0x1C020065; 0x4;
         152; 0;
         0x30000000; 4; 0; 0x6D008000;   0; 0; 0; 0;
         0x30000000; 7; 0; 0x6D008000;   0; 0; 0; 0]
  ++ five_vertices ++ words [0; 0] ++ five_vertices_b.

Definition five_points_b : list Vector :=
  [mkVector 0 0 1; mkVector 1 0 1; mkVector 0 1 1;
   mkVector (-1) 0 1; mkVector 0 (-1) 1].

Definition strip_of_five : list Z := [2; 0; 1;  2; 1; 3;  4; 2; 3].

(** A header whose split declares the count -1 (bytes FF FF FF FF). *)
Definition negative_count_binmesh : binmesh :=
  mkBinMesh 1 [mkMeshEntry (-1) 7 None] (Some 20) (Some 0).

(** ** create_mesh_object *)

(** [l[i:j]] for 0 <= i <= j. *)
Definition list_slice {A} (l : list A) (i j : Z) : list A :=
  firstn (Z.to_nat (j - i)) (skipn (Z.to_nat i) l).

(** [range(a, b, step)] for a positive [step]. *)
Definition range_step (a b step : Z) : list Z :=
  map (fun k => a + step * Z.of_nat k)
      (seq 0 (Z.to_nat ((b - a + step - 1) / step))).

(** [[tuple(tris[i:i+3]) for i in range(0, len(tris), 3)]] *)
Definition faces_of (tris : list Z) : list (list Z) :=
  map (fun i => list_slice tris i (i + 3))
      (range_step 0 (Z.of_nat (length tris)) 3).

(** What [create_mesh_object] hands to Blender: the name of the object, the
    name of its mesh, and the arguments of [mesh.from_pydata] (the points,
    no edge, the faces).  The calls into [bpy] themselves are not modelled. *)
Record mesh_object : Type := mkMeshObject {
  object_name : String.string;
  mesh_name : String.string;
  points : list (float * float * float);
  edges : list (Z * Z);
  faces : list (list Z)
}.

(** [not verts], [verts] being [None] or a list. *)
Definition falsy {A} (l : option (list A)) : bool :=
  match l with
  | None => true
  | Some [] => true
  | Some (_ :: _) => false
  end.

(** [create_mesh_object(name, verts, tris)]; [None] is the "Skipping empty
    mesh" return. *)
Module MeshNames.
Import String.
Definition mesh_suffix : String.string := "_mesh"%string.
End MeshNames.

Definition create_mesh_object (name : String.string)
           (verts : option (list Vector)) (tris : list Z)
  : option mesh_object :=
  if falsy verts || falsy (Some tris) then None
  else
    match verts with
    | Some vs =>
        Some (mkMeshObject name (String.append name MeshNames.mesh_suffix)
                           (map (fun v => (vx v, vy v, vz v)) vs)
                           [] (faces_of tris))
    | None => None
    end.

(** ** Coordinates and the 16-bit values they come from *)

(** The coordinate stored for the 16-bit value [x]. *)
Definition coord (x : Z) : float := (float_of_int x * SCALE)%float.

(** The vertex stored for three 16-bit values. *)
Definition vertex_of (x y z : Z) : Vector :=
  mkVector (coord x) (coord y) (coord z).

Definition in_i16 (x : Z) : Prop := - 2 ^ 15 <= x < 2 ^ 15.

(** 128 times the number a finite binary64 value stands for, when that is
    what its sign, mantissa and exponent say. *)
Definition times_128 (s : SpecFloat.spec_float) : option Z :=
  match s with
  | SpecFloat.S754_zero _ => Some 0
  | SpecFloat.S754_finite sg m e =>
      let v := if 0 <=? e + 7 then Zpos m * 2 ^ (e + 7)
               else Zpos m / 2 ^ (- (e + 7)) in
      Some (if sg then - v else v)
  | _ => None
  end.

(** [P] on the [n] integers from [x] on. *)
Fixpoint check_from (P : Z -> bool) (n : nat) (x : Z) : bool :=
  match n with
  | O => true
  | S n' => P x && check_from P n' (x + 1)
  end.

(** The coordinate of [x] is a finite number (or zero) equal to x / 128. *)
Definition coord_is_exact (x : Z) : bool :=
  match times_128 (FloatOps.Prim2SF (coord x)) with
  | Some v => v =? x
  | None => false
  end.

(** The split that [sample_native] decodes to. *)
Definition sample_split : material_split :=
  mkSplit 7 (Some five_points) strip_of_five true.

(** ** The layout of the DMA entries *)

(** The entry stored in the 16 bytes at offset [p]: its id in the fourth
    byte, its offset in the second word, its type in the fourth. *)
Definition entry_at (f : file) (p : Z) : option DMAEntry :=
  match unpack endian false 1 (slice f (p + 3) 1),
        uword_at f (p + 4), uword_at f (p + 12) with
  | Some id, Some off, Some ty =>
      Some (mkDMAEntry id off (Z.land ty 0xFF00FFFF))
  | _, _, _ => None
  end.

(** The entries [es] lie in the file from offset [p] on, 16 bytes each, an
    entry of id 0x30 being followed by 16 bytes that belong to no entry. *)
Fixpoint entries_from (f : file) (p : Z) (es : list DMAEntry) : Prop :=
  match es with
  | [] => True
  | e :: rest =>
      entry_at f p = Some e
      /\ entries_from f (if bDMAId e =? 0x30 then p + 32 else p + 16) rest
  end.

(** ** Where the splits and their entries are in the file *)




(** The header with nothing but what the decoder looks at: the split count
    and, for each split, its index count and its material index. *)
Definition forget_indices (bm : binmesh) : binmesh :=
  mkBinMesh (iMaterialSplitCount bm)
            (map (fun e => mkMeshEntry (iIndexCount e) (iMaterialIndex e) None)
                 (binMeshes bm))
            None None.

(** The signed 16-bit value stored at offset [q], when the file holds its
    two bytes. *)
Definition half_at (f : file) (q : Z) : option Z :=
  unpack endian true 2 (slice f q 2).

(** ** The same bytes further down a file *)

(** The exception [e] as it is raised when every position is [d] bytes
    further on: the position quoted in the message moves with the rest. *)
Definition shift_exn (d : Z) (e : exn) : exn :=
  match e with
  | MissingStructId p => MissingStructId (p + d)
  | _ => e
  end.

(** The outcome [o] with its cursor [d] bytes further on and its value
    moved by [g]. *)
Definition shift_outcome {A} (g : A -> A) (d : Z) (o : outcome A) : outcome A :=
  match o with
  | Ok a p => Ok (g a) (p + d)
  | Raise e p => Raise (shift_exn d e) (p + d)
  | OutOfFuel => OutOfFuel
  end.

(** The cursor of an outcome is a position of a file. *)
Definition in_file {A} (o : outcome A) : Prop :=
  match o with
  | Ok _ p => 0 <= p
  | Raise _ p => 0 <= p
  | OutOfFuel => True
  end.

(** [m'], run on [pre ++ f] from [p + len pre], does what [m] does on [f]
    from [p], every position [len pre] bytes further on. *)
Definition shifts_at {A} (pre : list byte) (f : file) (g : A -> A)
           (m m' : M A) (p : Z) : Prop :=
  m' (pre ++ f) (p + len pre) = shift_outcome g (len pre) (m f p)
  /\ in_file (m f p).

Definition shifts {A} (pre : list byte) (f : file) (g : A -> A)
           (m m' : M A) : Prop :=
  forall p, 0 <= p -> shifts_at pre f g m m' p.

(** The header dictionary with its ["section_offset"] [d] bytes further on. *)
Definition move_header (d : Z) (bm : binmesh) : binmesh :=
  mkBinMesh (iMaterialSplitCount bm) (binMeshes bm) (section_size bm)
            (option_map (fun o => o + d) (section_offset bm)).

(** ** The objects of an import *)

Module SplitNames.
Import String.



End SplitNames.





(** * Properties *)

Lemma SCALE_exact : SCALE = 0x1p-7%float.
Proof. reflexivity. Qed.

(** ** Reading at a known place of the file *)

Lemma skipn_len_app (pre l : file) :
  skipn (Z.to_nat (len pre)) (pre ++ l) = l.
Proof.
  unfold len. rewrite Nat2Z.id.
  induction pre as [|b pre IH]; simpl; auto.
Qed.

Lemma file_read_at (pre data rest : file) (n : nat) :
  length data = n ->
  file_read n (pre ++ data ++ rest) (len pre) = Ok data (len pre + Z.of_nat n).
Proof.
  intros Hn. unfold file_read. rewrite skipn_len_app.
  subst n. rewrite firstn_app, Nat.sub_diag, firstn_all. simpl.
  rewrite app_nil_r. reflexivity.
Qed.

Lemma len_app (a b : file) : len (a ++ b) = len a + len b.
Proof. unfold len. rewrite length_app. lia. Qed.

Lemma read_i16_at (s : site) (pre rest : file) (lo hi : byte) :
  read_i16 s (pre ++ lo :: hi :: rest) (len pre)
  = Ok (i16_of lo hi) (len pre + 2).
Proof.
  unfold read_i16, read_int, bind.
  change (pre ++ lo :: hi :: rest) with (pre ++ [lo; hi] ++ rest).
  rewrite file_read_at by reflexivity.
  unfold unpack, i16_of, endian, unsigned_value, le_value. simpl length.
  simpl Nat.eqb. cbv iota. unfold ret.
  change (8 * Z.of_nat 2) with 16.
  rewrite Z.mul_0_r, Z.add_0_r. reflexivity.
Qed.

(** C8.  A vertex is read as three signed 16-bit integers, each multiplied
    by [SCALE], which is exactly 2^-7 = 1/128, and the two bytes after them
    are skipped whatever they hold: the cursor ends 8 bytes further.  The
    triplet (256, -128, 0), that is the bytes 00 01 80 FF 00 00, decodes to
    exactly the point (2.0, -1.0, 0.0). *)
Theorem vertex_decode_scaled :
  (forall (pre rest : file) (x0 x1 y0 y1 z0 z1 pad0 pad1 : byte),
      read_vertex (pre ++ [x0; x1; y0; y1; z0; z1; pad0; pad1] ++ rest) (len pre)
      = Ok (Some (mkVector (float_of_int (i16_of x0 x1) * SCALE)
                           (float_of_int (i16_of y0 y1) * SCALE)
                           (float_of_int (i16_of z0 z1) * SCALE)))
           (len pre + 8))
  /\ SCALE = 0x1p-7%float
  /\ (i16_of x00 x01 = 256 /\ i16_of x80 xff = -128 /\ i16_of x00 x00 = 0)
  /\ mkVector (float_of_int 256 * SCALE) (float_of_int (-128) * SCALE)
              (float_of_int 0 * SCALE)
     = mkVector 2.0 (-1.0) 0.0
  /\ read_vertex (halves [256; -128; 0] ++ [xab; xcd]) 0
     = Ok (Some (mkVector 2.0 (-1.0) 0.0)) 8.
Proof.
  split; [| repeat split; vm_compute; reflexivity].
  intros pre rest x0 x1 y0 y1 z0 z1 pad0 pad1.
  unfold read_vertex, bind at 1, try_except, bind at 1.
  simpl app.
  rewrite read_i16_at.
  unfold bind at 1.
  replace (pre ++ x0 :: x1 :: y0 :: y1 :: z0 :: z1 :: pad0 :: pad1 :: rest)
    with ((pre ++ [x0; x1]) ++ y0 :: y1 :: z0 :: z1 :: pad0 :: pad1 :: rest)
    by (rewrite <- app_assoc; reflexivity).
  replace (len pre + 2) with (len (pre ++ [x0; x1]))
    by (rewrite len_app; reflexivity).
  rewrite read_i16_at.
  unfold bind at 1.
  replace ((pre ++ [x0; x1]) ++ y0 :: y1 :: z0 :: z1 :: pad0 :: pad1 :: rest)
    with ((pre ++ [x0; x1; y0; y1]) ++ z0 :: z1 :: pad0 :: pad1 :: rest)
    by (rewrite <- !app_assoc; reflexivity).
  replace (len (pre ++ [x0; x1]) + 2) with (len (pre ++ [x0; x1; y0; y1]))
    by (rewrite !len_app; unfold len; simpl length; lia).
  rewrite read_i16_at.
  unfold ret, bind, seek_cur.
  rewrite len_app.
  destruct (len pre + len [x0; x1; y0; y1] + 2 + 2 <? 0) eqn:E.
  - apply Z.ltb_lt in E. unfold len in E. simpl length in E. lia.
  - f_equal. unfold len. simpl length. lia.
Qed.

(** ** The chunk locator *)

Lemma len_nonneg (l : file) : 0 <= len l.
Proof. unfold len. lia. Qed.

Lemma startswith_true (s pattern : list byte) :
  startswith s pattern = true <-> exists post, s = pattern ++ post.
Proof.
  revert s. induction pattern as [|p ps IH]; intros s.
  - split; [intros _; exists s; reflexivity | destruct s; reflexivity].
  - destruct s as [|c cs]; simpl.
    + split; [discriminate | intros [post H]; discriminate].
    + rewrite andb_true_iff, IH. split.
      * intros [Hb [post ->]]. apply Byte.byte_dec_bl in Hb. subst c.
        exists post. reflexivity.
      * intros [post H]. injection H as -> ->. split.
        -- apply Byte.byte_dec_lb. reflexivity.
        -- exists post. reflexivity.
Qed.

Lemma app_same_len_inv (a b c d : file) :
  a ++ b = c ++ d -> len a = len c -> a = c /\ b = d.
Proof.
  unfold len. intros H Hl. apply Nat2Z.inj in Hl.
  revert c H Hl. induction a as [|x a IH]; intros [|y c] H Hl;
    try discriminate.
  - auto.
  - simpl in H. injection H as -> H. simpl in Hl.
    destruct (IH c H) as [-> ->]; [lia | auto].
Qed.

Lemma occurs_at_bounds (f pattern : list byte) (o : Z) :
  occurs_at f pattern o -> 0 <= o /\ o + len pattern <= len f.
Proof.
  intros (pre & post & -> & <-). rewrite !len_app.
  pose proof (len_nonneg pre). pose proof (len_nonneg post). lia.
Qed.

Lemma find_in_nil (pattern : list byte) (idx : Z) :
  find_in [] pattern idx = if startswith [] pattern then idx else -1.
Proof. reflexivity. Qed.

Lemma find_in_cons (c : byte) (t pattern : list byte) (idx : Z) :
  find_in (c :: t) pattern idx
  = if startswith (c :: t) pattern then idx else find_in t pattern (idx + 1).
Proof. reflexivity. Qed.

Lemma find_in_spec (pattern s pre : list byte) :
  let r := find_in s pattern (len pre) in
  (r = -1 /\ forall o, len pre <= o -> ~ occurs_at (pre ++ s) pattern o)
  \/ (len pre <= r /\ occurs_at (pre ++ s) pattern r
      /\ forall o, len pre <= o < r -> ~ occurs_at (pre ++ s) pattern o).
Proof.
  revert pre. induction s as [|c t IH]; intros pre; cbn zeta.
  - rewrite find_in_nil. destruct (startswith [] pattern) eqn:E.
    + right. apply startswith_true in E. destruct E as [post E].
      split; [lia|]. split; [|intros; lia].
      exists pre, post. rewrite <- E. auto.
    + left. split; [reflexivity|]. intros o Ho (pre' & post' & Hf & Hl).
      rewrite app_nil_r in Hf.
      assert (Hlen : len pre = len pre' + len pattern + len post')
        by (rewrite Hf, !len_app; lia).
      pose proof (len_nonneg pattern). pose proof (len_nonneg post').
      assert (Hp : pattern = []).
      { destruct pattern; [reflexivity|]. unfold len in *. simpl in *. lia. }
      subst pattern. discriminate.
  - rewrite find_in_cons. destruct (startswith (c :: t) pattern) eqn:E.
    + right. apply startswith_true in E. destruct E as [post E].
      split; [lia|]. split; [|intros; lia].
      exists pre, post. rewrite <- E. auto.
    + specialize (IH (pre ++ [c])).
      rewrite len_app in IH. change (len [c]) with 1 in IH.
      rewrite <- app_assoc in IH. simpl in IH.
      assert (Hhere : ~ occurs_at (pre ++ c :: t) pattern (len pre)).
      { intros (pre' & post' & Hf & Hl).
        apply app_same_len_inv in Hf; [|lia]. destruct Hf as [_ Hf].
        assert (startswith (c :: t) pattern = true)
          by (apply startswith_true; eauto).
        congruence. }
      destruct IH as [[Hr Hno] | (Hle & Hocc & Hno)].
      * left. split; [exact Hr|]. intros o Ho.
        destruct (Z.eq_dec o (len pre)) as [->|]; [exact Hhere|].
        apply Hno. lia.
      * right. split; [lia|]. split; [exact Hocc|]. intros o Ho.
        destruct (Z.eq_dec o (len pre)) as [->|]; [exact Hhere|].
        apply Hno. lia.
Qed.

Lemma bytes_find_spec (f pattern : list byte) (start : Z) :
  0 <= start ->
  let r := bytes_find f pattern start in
  (r = -1 /\ forall o, start <= o -> ~ occurs_at f pattern o)
  \/ (start <= r /\ occurs_at f pattern r
      /\ forall o, start <= o < r -> ~ occurs_at f pattern o).
Proof.
  intros Hs. unfold bytes_find.
  destruct (start <? 0) eqn:E0; [apply Z.ltb_lt in E0; lia|]. cbn zeta.
  destruct (len f <? start) eqn:E.
  - left. split; [reflexivity|]. intros o Ho Hocc.
    apply occurs_at_bounds in Hocc. apply Z.ltb_lt in E.
    pose proof (len_nonneg pattern). lia.
  - apply Z.ltb_ge in E.
    pose proof (find_in_spec pattern (skipn (Z.to_nat start) f)
                             (firstn (Z.to_nat start) f)) as H.
    rewrite firstn_skipn in H.
    replace (len (firstn (Z.to_nat start) f)) with start in H.
    + exact H.
    + unfold len in *. rewrite length_firstn. lia.
Qed.

Lemma find_loop_scan (f pattern : list byte) :
  length pattern = 4%nat ->
  forall fuel start acc,
    0 <= start ->
    (Z.to_nat (len f + 1 - start) <= fuel)%nat -> (1 <= fuel)%nat ->
    exists l, find_loop fuel f pattern start acc = Some (acc ++ l)
              /\ scan f pattern start l.
Proof.
  intros Hpat. induction fuel as [|fuel IH]; intros start acc Hs Hfuel H1.
  - lia.
  - simpl. destruct (bytes_find_spec f pattern start Hs)
      as [[Hr Hno] | (Hle & Hocc & Hno)].
    + rewrite Hr. simpl. exists []. rewrite app_nil_r. split; [reflexivity|].
      constructor. exact Hno.
    + set (k := bytes_find f pattern start) in *.
      destruct (k =? -1) eqn:E; [apply Z.eqb_eq in E; lia|].
      pose proof (occurs_at_bounds _ _ _ Hocc) as [Hk0 Hk].
      unfold len at 1 in Hk. rewrite Hpat in Hk.
      destruct (IH (k + 4) (acc ++ [k])) as (l & Hl & Hscan); try lia.
      exists (k :: l). rewrite Hl, <- app_assoc. split; [reflexivity|].
      apply scan_hit; assumption.
Qed.

Lemma scan_deterministic (f pattern : list byte) (start : Z) (l l' : list Z) :
  scan f pattern start l -> scan f pattern start l' -> l = l'.
Proof.
  intros H. revert l'. induction H as [start Hno | start k rest Hle Hocc Hno Hs IH];
    intros l' H'; inversion H'; subst.
  - reflexivity.
  - exfalso. eapply Hno; eauto.
  - exfalso. match goal with H : forall o, _ -> ~ _ |- _ => eapply H; eauto end.
  - match goal with
    | Hk : start <= ?k', Ho : occurs_at f pattern ?k',
      Hn : forall o, start <= o < ?k' -> _ |- _ =>
        assert (k = k') by
          (destruct (Z.lt_trichotomy k k') as [?|[?|?]];
           [exfalso; eapply Hn; eauto; lia | assumption
           | exfalso; eapply Hno; eauto; lia])
    end.
    subst. f_equal. apply IH. assumption.
Qed.

Lemma scan_ascending (f pattern : list byte) (start : Z) (l : list Z) :
  scan f pattern start l ->
  ascending l /\ (forall k, In k l -> start <= k /\ occurs_at f pattern k).
Proof.
  induction 1 as [start Hno | start k rest Hle Hocc Hno Hs [IHa IHb]].
  - split; [exact I | intros k []].
  - split.
    + simpl. split; [|exact IHa]. destruct rest as [|b r]; [exact I|].
      destruct (IHb b (or_introl eq_refl)). lia.
    + intros x [<- | Hx]; [auto|]. destruct (IHb x Hx). split; [lia|auto].
Qed.

Lemma pack_i32_length (o : byteorder) (v : Z) (pattern : list byte) :
  pack_i32 o v = Some pattern -> length pattern = 4%nat.
Proof.
  unfold pack_i32. destruct (_ && _); [|discriminate].
  intros H. injection H as <-. destruct o; reflexivity.
Qed.

Lemma find_chunk_positions_eq (f : file) (p0 target_id : Z) :
  find_chunk_positions target_id f p0
  = match pack_i32 endian target_id with
    | None => Raise PackError (len f)
    | Some pattern =>
        match find_loop (S (length f)) f pattern 0 [] with
        | Some matches => Ok matches (len f)
        | None => OutOfFuel
        end
    end.
Proof.
  unfold find_chunk_positions, bind, seek_end, pos, seek_set, file_read_all.
  change (0 <? 0) with false. cbv iota. change (Z.to_nat 0) with 0%nat.
  change (skipn 0 f) with f. change (0 + len f) with (len f).
  destruct (pack_i32 endian target_id); reflexivity.
Qed.

Lemma byte_val_bound (b : byte) : 0 <= byte_val b < 256.
Proof.
  unfold byte_val. pose proof (Byte.to_N_bounded b) as H. lia.
Qed.

Lemma byte_val_of_Z (v : Z) : byte_val (byte_of_Z v) = v mod 256.
Proof.
  unfold byte_of_Z, byte_val.
  assert (Hm : 0 <= v mod 256 < 256) by (apply Z.mod_pos_bound; lia).
  destruct (Byte.of_N (Z.to_N (v mod 256))) as [b|] eqn:E.
  - apply Byte.to_of_N in E. rewrite E. lia.
  - apply Byte.of_N_None_iff in E. lia.
Qed.

Lemma le_value_le_bytes (n : nat) :
  forall v, le_value (le_bytes n v) = v mod 256 ^ Z.of_nat n.
Proof.
  induction n as [|n IH]; intros v.
  - simpl. symmetry. apply Z.mod_1_r.
  - cbn [le_bytes le_value]. rewrite IH, byte_val_of_Z.
    rewrite Nat2Z.inj_succ, Z.pow_succ_r by lia.
    rewrite Z.rem_mul_r; [reflexivity | lia |].
    apply Z.pow_pos_nonneg; lia.
Qed.

(** The four bytes [struct.pack] gives for an identifier: the digits of its
    two's complement in base 256, lowest first. *)
Lemma pack_i32_bytes (v : Z) (pattern : list byte) :
  pack_i32 endian v = Some pattern ->
  exists b0 b1 b2 b3,
    pattern = [b0; b1; b2; b3]
    /\ byte_val b0 + 256 * byte_val b1 + 65536 * byte_val b2
       + 16777216 * byte_val b3 = v mod 2 ^ 32.
Proof.
  unfold pack_i32, endian.
  destruct ((- 2 ^ 31 <=? v) && (v <? 2 ^ 31)); [|discriminate].
  intros H.
  assert (Hpat : pattern = le_bytes 4 (v mod 2 ^ 32)) by congruence.
  subst pattern. clear H.
  assert (Hw : (v mod 2 ^ 32) mod 2 ^ 32 = v mod 2 ^ 32)
    by (apply Z.mod_mod; lia).
  remember (v mod 2 ^ 32) as w eqn:Ew. clear Ew.
  pose proof (le_value_le_bytes 4 w) as Hv.
  change (256 ^ Z.of_nat 4) with (2 ^ 32) in Hv. rewrite Hw in Hv. clear Hw.
  cbn [le_bytes] in *. cbn [le_value] in Hv.
  do 4 eexists. split; [reflexivity|]. lia.
Qed.

(** C4.  For every file and every identifier that fits four bytes, the
    locator looks for the four bytes of the identifier, lowest first, and
    returns the offsets of the left-to-right scan that takes their first
    occurrence and resumes four bytes after it: these offsets and no
    others, in ascending order, each one an occurrence; the result is empty
    exactly when the bytes occur nowhere. *)
Theorem find_chunk_positions_scan (f : file) (p0 target_id : Z) :
  - 2 ^ 31 <= target_id < 2 ^ 31 ->
  exists pattern matches,
    pack_i32 endian target_id = Some pattern
    /\ (exists b0 b1 b2 b3,
           pattern = [b0; b1; b2; b3]
           /\ byte_val b0 + 256 * byte_val b1 + 65536 * byte_val b2
              + 16777216 * byte_val b3 = target_id mod 2 ^ 32)
    /\ find_chunk_positions target_id f p0 = Ok matches (len f)
    /\ scan f pattern 0 matches
    /\ (forall l, scan f pattern 0 l -> l = matches)
    /\ ascending matches
    /\ (forall k, In k matches -> occurs_at f pattern k)
    /\ (matches = [] <-> forall o, ~ occurs_at f pattern o).
Proof.
  intros Hid.
  destruct (pack_i32 endian target_id) as [pattern|] eqn:Hp.
  2:{ unfold pack_i32 in Hp.
      destruct (- 2 ^ 31 <=? target_id) eqn:E1;
        destruct (target_id <? 2 ^ 31) eqn:E2; simpl in Hp; try discriminate;
        lia. }
  pose proof (pack_i32_length _ _ _ Hp) as Hlen.
  destruct (find_loop_scan f pattern Hlen (S (length f)) 0 [])
    as (l & Hl & Hscan); try lia.
  { unfold len. lia. }
  exists pattern, l. split; [reflexivity|].
  split; [exact (pack_i32_bytes _ _ Hp)|].
  destruct (scan_ascending _ _ _ _ Hscan) as [Hasc Hin].
  repeat split.
  - rewrite find_chunk_positions_eq, Hp, Hl. reflexivity.
  - exact Hscan.
  - intros l' Hl'. eapply scan_deterministic; eauto.
  - exact Hasc.
  - intros k Hk. apply Hin. exact Hk.
  - intros -> o Hocc. inversion Hscan; subst.
    match goal with H : forall o, _ -> ~ _ |- _ => apply (H o); auto end.
    apply occurs_at_bounds in Hocc. lia.
  - intros Hno. destruct l as [|k l]; [reflexivity|].
    exfalso. apply (Hno k). apply Hin. left. reflexivity.
Qed.

(** ** Running the reader *)

Lemma bind_Ok {A B} (m : M A) (k : A -> M B) (f : file) (p q : Z) (b : B) :
  bind m k f p = Ok b q ->
  exists a p', m f p = Ok a p' /\ k a f p' = Ok b q.
Proof.
  unfold bind. destruct (m f p) as [a p'| |]; try discriminate. eauto.
Qed.

Lemma read_int_eq (s : site) (sg : bool) (n : nat) (f : file) (p : Z) :
  read_int s sg n f p
  = match unpack endian sg n (slice f p n) with
    | Some v => Ok v (p + Z.of_nat n)
    | None => Raise (StructError s) (p + Z.of_nat (length (slice f p n)))
    end.
Proof.
  unfold read_int, bind, file_read. fold (slice f p n).
  unfold unpack. destruct (Nat.eqb (length (slice f p n)) n) eqn:E.
  - apply Nat.eqb_eq in E. rewrite E. reflexivity.
  - reflexivity.
Qed.

Lemma slice_length (f : file) (p : Z) (n : nat) :
  0 <= p ->
  Z.of_nat (length (slice f p n)) = Z.max 0 (Z.min (Z.of_nat n) (len f - p)).
Proof.
  intros Hp. unfold slice, len. rewrite length_firstn, length_skipn. lia.
Qed.

Lemma unpack_Some_iff (o : byteorder) (sg : bool) (n : nat) (data : list byte) :
  (exists v, unpack o sg n data = Some v) <-> length data = n.
Proof.
  unfold unpack. destruct (Nat.eqb (length data) n) eqn:E.
  - apply Nat.eqb_eq in E. split; eauto.
  - apply Nat.eqb_neq in E. split; [intros [v H]; discriminate | tauto].
Qed.

Lemma unpack_None_iff (o : byteorder) (sg : bool) (n : nat) (data : list byte) :
  unpack o sg n data = None <-> length data <> n.
Proof.
  unfold unpack. destruct (Nat.eqb (length data) n) eqn:E.
  - apply Nat.eqb_eq in E. split; [discriminate | tauto].
  - apply Nat.eqb_neq in E. tauto.
Qed.

Lemma word_at_None_iff (f : file) (p : Z) :
  0 <= p -> (word_at f p = None <-> len f < p + 4).
Proof.
  intros Hp. unfold word_at. rewrite unpack_None_iff.
  pose proof (slice_length f p 4 Hp). lia.
Qed.

Lemma word_at_Some_bound (f : file) (p v : Z) :
  0 <= p -> word_at f p = Some v -> p + 4 <= len f.
Proof.
  intros Hp H. destruct (Z.le_gt_cases (p + 4) (len f)); [assumption|].
  assert (word_at f p = None) by (apply word_at_None_iff; lia). congruence.
Qed.

Lemma word_at_defined (f : file) (p : Z) :
  0 <= p -> p + 4 <= len f -> exists v, word_at f p = Some v.
Proof.
  intros Hp Hle. destruct (word_at f p) eqn:E; [eauto|].
  apply word_at_None_iff in E; lia.
Qed.

Lemma read_i32_Ok (s : site) (f : file) (p q v : Z) :
  read_i32 s f p = Ok v q -> word_at f p = Some v /\ q = p + 4.
Proof.
  unfold read_i32. rewrite read_int_eq. fold (word_at f p).
  destruct (word_at f p); [|discriminate]. intros H. injection H as -> <-.
  auto.
Qed.

Lemma read_i32_word (s : site) (f : file) (p v : Z) :
  word_at f p = Some v -> read_i32 s f p = Ok v (p + 4).
Proof.
  intros H. unfold read_i32. rewrite read_int_eq. fold (word_at f p).
  rewrite H. reflexivity.
Qed.

Lemma read_i32_fails (s : site) (f : file) (p : Z) :
  word_at f p = None -> exists q, read_i32 s f p = Raise (StructError s) q /\ p <= q.
Proof.
  intros H. unfold read_i32. rewrite read_int_eq. fold (word_at f p).
  rewrite H. eexists. split; [reflexivity|]. lia.
Qed.

(** ** The mesh-split header *)

(** C7.  Whenever the three leading words of the section are in the file
    and the second one, the declared size, is 12, the parser returns the
    header with split count 0 and no split, with the cursor after the three
    words: nothing past them is looked at. *)
Theorem parse_binmesh_plg_empty_section (f : file) (offset p0 : Z) :
  0 <= offset -> offset + 12 <= len f ->
  word_at f (offset + 4) = Some 12 ->
  parse_binmesh_plg offset f p0 = Ok (mkBinMesh 0 [] None None) (offset + 12)
  /\ (forall rest p1,
         parse_binmesh_plg offset (firstn (Z.to_nat (offset + 12)) f ++ rest) p1
         = Ok (mkBinMesh 0 [] None None) (offset + 12)).
Proof.
  assert (main : forall g p, 0 <= offset -> offset + 12 <= len g ->
                             word_at g (offset + 4) = Some 12 ->
                             parse_binmesh_plg offset g p
                             = Ok (mkBinMesh 0 [] None None) (offset + 12)).
  { intros g p H0 Hlen Hsz.
    destruct (word_at_defined g offset) as [sid Hsid]; [lia|lia|].
    destruct (word_at_defined g (offset + 8)) as [ver Hver]; [lia|lia|].
    unfold parse_binmesh_plg, bind at 1, seek_set.
    destruct (offset <? 0) eqn:E; [apply Z.ltb_lt in E; lia|].
    unfold bind at 1. rewrite (read_i32_word _ _ _ _ Hsid).
    unfold bind at 1. rewrite (read_i32_word _ _ _ _ Hsz).
    unfold bind at 1. replace (offset + 4 + 4) with (offset + 8) by lia.
    rewrite (read_i32_word _ _ _ _ Hver).
    unfold bind, pos. simpl. unfold ret. f_equal. lia. }
  intros H0 Hlen Hsz. split; [apply main; assumption|].
  intros rest p1. apply main; [assumption| |].
  - rewrite len_app. unfold len in *. rewrite length_firstn.
    pose proof (len_nonneg rest). unfold len in *. lia.
  - revert Hsz. unfold word_at, slice. intros Hsz.
    rewrite <- Hsz. f_equal.
    rewrite skipn_app, skipn_firstn_comm, length_firstn.
    replace (Z.to_nat (offset + 4) - Nat.min (Z.to_nat (offset + 12)) (length f))%nat
      with 0%nat by (unfold len in *; lia).
    rewrite skipn_O.
    replace (Z.to_nat (offset + 12) - Z.to_nat (offset + 4))%nat with 8%nat by lia.
    rewrite firstn_app.
    rewrite firstn_firstn. change (Nat.min 4 8) with 4%nat.
    replace (4 - length (firstn 8 (skipn (Z.to_nat (offset + 4)) f)))%nat
      with 0%nat.
    + simpl. rewrite app_nil_r. reflexivity.
    + rewrite length_firstn, length_skipn. unfold len in *. lia.
Qed.

Lemma read_index_step (f : file) (p : Z) :
  0 <= p ->
  (exists v, word_at f p = Some v
             /\ try_except (v <- read_i32 InTry ;; ret (Some v)) (ret None) f p
                = Ok (Some v) (p + 4))
  \/ (word_at f p = None
      /\ exists q, try_except (v <- read_i32 InTry ;; ret (Some v)) (ret None) f p
                   = Ok None q /\ p <= q /\ len f < q + 4).
Proof.
  intros Hp. destruct (word_at f p) as [v|] eqn:E.
  - left. exists v. split; [reflexivity|].
    unfold try_except, bind. rewrite (read_i32_word _ _ _ _ E). reflexivity.
  - right. split; [reflexivity|].
    destruct (read_i32_fails InTry f p E) as (q & Hq & Hle).
    exists q. unfold try_except, bind. rewrite Hq. unfold ret.
    split; [reflexivity|]. split; [assumption|].
    apply word_at_None_iff in E; lia.
Qed.

Lemma read_indices_spec (f : file) (count : nat) :
  forall (idxs : list Z) (p : Z),
    0 <= p ->
    exists l p',
      read_indices count idxs f p = Ok (idxs ++ l) p'
      /\ p <= p'
      /\ (forall j, (j < length l)%nat ->
                    word_at f (p + 4 * Z.of_nat j) = nth_error l j)
      /\ ((length l = count /\ p' = p + 4 * Z.of_nat (length l))
          \/ ((length l < count)%nat
              /\ word_at f (p + 4 * Z.of_nat (length l)) = None
              /\ len f < p' + 4)).
Proof.
  induction count as [|count IH]; intros idxs p Hp.
  - exists [], p. simpl. unfold ret. rewrite app_nil_r.
    split; [reflexivity|]. split; [lia|]. split; [intros j Hj; simpl in Hj; lia|].
    left. simpl. split; [reflexivity | lia].
  - cbn [read_indices]. unfold bind at 1.
    destruct (read_index_step f p Hp) as [(v & Hv & Hrun) | (Hnone & q & Hrun & Hq & Hend)];
      rewrite Hrun.
    + destruct (IH (idxs ++ [v]) (p + 4)) as (l & p' & Hl & Hle & Hw & Hfin);
        [lia|].
      exists (v :: l), p'. rewrite Hl, <- app_assoc.
      split; [reflexivity|]. split; [lia|]. split.
      * intros [|j] Hj.
        -- change (Z.of_nat 0) with 0. rewrite Z.mul_0_r, Z.add_0_r. exact Hv.
        -- cbn [nth_error]. rewrite <- Hw by (simpl in Hj; lia). f_equal. lia.
      * simpl length.
        destruct Hfin as [[Hc Hp'] | (Hc & Hno & He)].
        -- left. split; [lia | lia].
        -- right. split; [lia|]. split; [|exact He].
           rewrite <- Hno. f_equal. lia.
    + exists [], q. unfold ret. rewrite app_nil_r.
      split; [reflexivity|]. split; [lia|].
      split; [intros j Hj; simpl in Hj; lia|].
      right. cbn [length]. split; [lia|]. split; [|exact Hend].
      change (Z.of_nat 0) with 0. rewrite Z.mul_0_r, Z.add_0_r. exact Hnone.
Qed.

Lemma read_mesh_entries_laid_out (f : file) (sz cnt : Z) (count : nat) :
  forall (acc : list mesh_entry) (p pf : Z) (ms : list mesh_entry),
    0 <= p ->
    read_mesh_entries count sz cnt acc f p = Ok ms pf ->
    exists new,
      ms = acc ++ new /\ length new = count
      /\ laid_out f (has_explicit_indices sz cnt) p new.
Proof.
  induction count as [|count IH]; intros acc p pf ms Hp Hrun.
  - simpl in Hrun. unfold ret in Hrun. injection Hrun as <- <-.
    exists []. rewrite app_nil_r. simpl. auto.
  - cbn [read_mesh_entries] in Hrun.
    apply bind_Ok in Hrun. destruct Hrun as (m & p1 & Hm & Hrest).
    unfold read_mesh_entry in Hm.
    apply bind_Ok in Hm. destruct Hm as (ic & q1 & Hic & Hm).
    apply read_i32_Ok in Hic. destruct Hic as [Hic ->].
    apply bind_Ok in Hm. destruct Hm as (mi & q2 & Hmi & Hm).
    apply read_i32_Ok in Hmi. destruct Hmi as [Hmi ->].
    destruct (has_explicit_indices sz cnt) eqn:Hex.
    + apply bind_Ok in Hm. destruct Hm as (idxs & q3 & Hidx & Hm).
      unfold ret in Hm. injection Hm as <- <-.
      destruct (read_indices_spec f (Z.to_nat ic) [] (p + 4 + 4))
        as (l & p' & Hl & Hle & Hw & Hfin); [lia|].
      rewrite Hl in Hidx. simpl in Hidx. injection Hidx as <- <-.
      destruct Hfin as [[Hc Hp'] | (Hc & Hno & He)].
      * assert (Hp0 : 0 <= p') by lia.
        destruct (IH _ _ _ _ Hp0 Hrest) as (new & -> & Hlen & Hlay).
        exists (mkMeshEntry ic mi (Some l) :: new).
        rewrite <- app_assoc. split; [reflexivity|].
        split; [simpl; lia|].
        cbn [laid_out iIndexCount iMaterialIndex VertexIndices].
        split; [exact Hic|]. split; [exact Hmi|]. cbv zeta.
        replace (p + 8) with (p + 4 + 4) by lia.
        split; [exact Hw|]. split; [left; lia|].
        rewrite <- Hp'. exact Hlay.
      * (* the list was cut short: no further entry can be read *)
        destruct count as [|count].
        -- simpl in Hrest. unfold ret in Hrest. injection Hrest as <- <-.
           exists [mkMeshEntry ic mi (Some l)].
           split; [reflexivity|]. split; [reflexivity|].
           cbn [laid_out iIndexCount iMaterialIndex VertexIndices].
           split; [exact Hic|]. split; [exact Hmi|]. cbv zeta.
           replace (p + 8) with (p + 4 + 4) by lia.
           split; [exact Hw|]. split; [|exact I].
           right. split; [lia|]. split; [exact Hno | reflexivity].
        -- exfalso. cbn [read_mesh_entries] in Hrest.
           apply bind_Ok in Hrest. destruct Hrest as (m' & p2 & Hm' & _).
           unfold read_mesh_entry in Hm'.
           apply bind_Ok in Hm'. destruct Hm' as (ic' & q1 & Hic' & _).
           apply read_i32_Ok in Hic'. destruct Hic' as [Hic' _].
           apply word_at_Some_bound in Hic'; lia.
    + unfold ret in Hm. injection Hm as <- <-.
      assert (Hp0 : 0 <= p + 4 + 4) by lia.
      destruct (IH _ _ _ _ Hp0 Hrest) as (new & -> & Hlen & Hlay).
      exists (mkMeshEntry ic mi None :: new).
      rewrite <- app_assoc. split; [reflexivity|].
      split; [simpl; lia|].
      cbn [laid_out iIndexCount iMaterialIndex VertexIndices].
      split; [exact Hic|]. split; [exact Hmi|].
      replace (p + 8) with (p + 4 + 4) by lia. exact Hlay.
Qed.

Lemma laid_out_absent (f : file) (ms : list mesh_entry) :
  forall p, laid_out f false p ms ->
            Forall (fun m => VertexIndices m = None) ms.
Proof.
  induction ms as [|m ms IH]; intros p H; constructor.
  - simpl in H. destruct H as (_ & _ & H).
    destruct (VertexIndices m); [contradiction | reflexivity].
  - simpl in H. destruct H as (_ & _ & H).
    destruct (VertexIndices m); [contradiction | eauto].
Qed.

Lemma laid_out_present (f : file) (ms : list mesh_entry) :
  forall p, laid_out f true p ms ->
    Forall (fun m => exists idxs,
                VertexIndices m = Some idxs
                /\ Z.of_nat (length idxs) <= Z.max 0 (iIndexCount m)) ms
    /\ (forall front m back,
           ms = front ++ m :: back -> back <> [] ->
           exists idxs, VertexIndices m = Some idxs
                        /\ Z.of_nat (length idxs) = Z.max 0 (iIndexCount m)).
Proof.
  induction ms as [|m ms IH]; intros p H.
  - split; [constructor|]. intros [|? ?] ? ? E; discriminate.
  - cbn [laid_out] in H. destruct H as (_ & _ & H).
    destruct (VertexIndices m) as [idxs|] eqn:Ev; [|contradiction].
    cbv zeta in H. destruct H as (_ & Hlen & Hrest).
    destruct (IH _ Hrest) as [IHa IHb]. split.
    + constructor; [|exact IHa]. exists idxs. split; [exact Ev|].
      destruct Hlen as [E | (Hlt & _ & _)]; lia.
    + intros [|x front] m' back E Hb; simpl in E; injection E as <- E.
      * exists idxs. split; [assumption|].
        destruct Hlen as [E' | (_ & _ & E')]; [exact E'|].
        congruence.
      * eapply IHb; eauto.
Qed.

Lemma parse_binmesh_plg_Ok (f : file) (offset p0 pf : Z) (bm : binmesh) :
  parse_binmesh_plg offset f p0 = Ok bm pf ->
  0 <= offset
  /\ exists sz, word_at f (offset + 4) = Some sz
     /\ ((sz = 12 /\ bm = mkBinMesh 0 [] None None)
         \/ (sz <> 12
             /\ exists count ms,
                 bm = mkBinMesh count ms (Some sz) (Some offset)
                 /\ word_at f (offset + 16) = Some count
                 /\ read_mesh_entries (Z.to_nat count) sz count [] f (offset + 24)
                    = Ok ms pf)).
Proof.
  intros H. unfold parse_binmesh_plg in H.
  apply bind_Ok in H. destruct H as ([] & q0 & Hseek & H).
  unfold seek_set in Hseek.
  destruct (offset <? 0) eqn:E; [discriminate|]. apply Z.ltb_ge in E.
  injection Hseek as <-. split; [assumption|].
  apply bind_Ok in H. destruct H as (sid & q1 & Hsid & H).
  apply read_i32_Ok in Hsid. destruct Hsid as [Hsid ->].
  apply bind_Ok in H. destruct H as (sz & q2 & Hsz & H).
  apply read_i32_Ok in Hsz. destruct Hsz as [Hsz ->].
  apply bind_Ok in H. destruct H as (ver & q3 & Hver & H).
  apply read_i32_Ok in Hver. destruct Hver as [Hver ->].
  apply bind_Ok in H. destruct H as (ds & q4 & Hpos & H).
  unfold pos in Hpos. injection Hpos as <- <-.
  exists sz. split; [exact Hsz|].
  destruct (sz =? 12) eqn:E12.
  - apply Z.eqb_eq in E12. left. unfold ret in H. injection H as <- <-. auto.
  - apply Z.eqb_neq in E12. right. split; [assumption|].
    apply bind_Ok in H. destruct H as (ft & q5 & Hft & H).
    apply read_i32_Ok in Hft. destruct Hft as [Hft ->].
    apply bind_Ok in H. destruct H as (count & q6 & Hc & H).
    apply read_i32_Ok in Hc. destruct Hc as [Hc ->].
    apply bind_Ok in H. destruct H as (tf & q7 & Htf & H).
    apply read_i32_Ok in Htf. destruct Htf as [Htf ->].
    apply bind_Ok in H. destruct H as (ms & q8 & Hms & H).
    unfold ret in H. injection H as <- <-.
    exists count, ms. split; [reflexivity|].
    replace (offset + 16) with (offset + 4 + 4 + 4 + 4) by lia.
    replace (offset + 24) with (offset + 4 + 4 + 4 + 4 + 4 + 4) by lia.
    auto.
Qed.

(** C3 (as the parser has it).  One test on the header, the declared size
    against 12 + 8 * iMaterialSplitCount, decides for all the splits at
    once: when the two are equal no split has an index list; otherwise every
    split has one, made of the words that follow its two fields in the file
    ([laid_out]).  The list of a split has [iIndexCount] entries (none when
    [iIndexCount] is negative), except that the list of the last split ends
    where the file has no further whole word and keeps the indices read up
    to there.  A section of declared size 12 has no split. *)
Theorem explicit_indices_follow_header_size
        (f : file) (offset p0 pf : Z) (bm : binmesh) :
  parse_binmesh_plg offset f p0 = Ok bm pf ->
  match section_size bm with
  | None => word_at f (offset + 4) = Some 12 /\ binMeshes bm = []
  | Some sz =>
      let count := iMaterialSplitCount bm in
      word_at f (offset + 4) = Some sz /\ sz <> 12
      /\ word_at f (offset + 16) = Some count
      /\ length (binMeshes bm) = Z.to_nat count
      /\ laid_out f (has_explicit_indices sz count) (offset + 24) (binMeshes bm)
      /\ (sz = 12 + 8 * count ->
          Forall (fun m => VertexIndices m = None) (binMeshes bm))
      /\ (sz <> 12 + 8 * count ->
          Forall (fun m => exists idxs,
                      VertexIndices m = Some idxs
                      /\ Z.of_nat (length idxs) <= Z.max 0 (iIndexCount m))
                 (binMeshes bm)
          /\ forall front m back,
              binMeshes bm = front ++ m :: back -> back <> [] ->
              exists idxs, VertexIndices m = Some idxs
                           /\ Z.of_nat (length idxs) = Z.max 0 (iIndexCount m))
  end.
Proof.
  intros H. apply parse_binmesh_plg_Ok in H.
  destruct H as (Hoff & sz & Hsz & [[-> ->] | (Hne & count & ms & -> & Hc & Hms)]).
  - simpl. auto.
  - cbn [section_size iMaterialSplitCount binMeshes]. cbv zeta.
    apply read_mesh_entries_laid_out in Hms; [|lia].
    destruct Hms as (new & -> & Hlen & Hlay). simpl app.
    repeat (split; [assumption|]).
    unfold has_explicit_indices in Hlay. split.
    + intros E. apply Z.eqb_eq in E. rewrite E in Hlay. simpl in Hlay.
      eapply laid_out_absent; eauto.
    + intros E. apply Z.eqb_neq in E. rewrite E in Hlay. simpl in Hlay.
      eapply laid_out_present; eauto.
Qed.

(** C3, the statement with "length equal to indexCount" for every split,
    fails on a file that ends inside an index list: the split declares
    three indices and gets the one that could be read. *)
Lemma explicit_indices_cut_short :
  parse_binmesh_plg 0 binmesh_cut_short 0
  = Ok (mkBinMesh 1 [mkMeshEntry 3 9 (Some [11])] (Some 40) (Some 0)) 36
  /\ ~ indices_as_declared 40
       (mkBinMesh 1 [mkMeshEntry 3 9 (Some [11])] (Some 40) (Some 0)).
Proof.
  split; [vm_compute; reflexivity|].
  intros [_ H]. cbn [iMaterialSplitCount binMeshes] in H.
  assert (Hne : 40 <> 12 + 8 * 1) by lia.
  specialize (H Hne). inversion H as [|m l Hm _]; subst.
  destruct Hm as (idxs & Hv & Hl). cbn in Hv, Hl.
  injection Hv as <-. simpl in Hl. lia.
Qed.

(** ** Triangle reconstruction *)

Lemma In_range (a b i : Z) : In i (range a b) <-> a <= i < b.
Proof.
  unfold range. rewrite in_map_iff. split.
  - intros (k & <- & Hk). apply in_seq in Hk. lia.
  - intros H. exists (Z.to_nat (i - a)). split; [lia|].
    apply in_seq. lia.
Qed.

Lemma list_get_Ok {A} (l : list A) (i : Z) (f : file) (p : Z) :
  0 <= i < Z.of_nat (length l) ->
  exists a, nth_error l (Z.to_nat i) = Some a /\ list_get l i f p = Ok a p.
Proof.
  intros Hi. unfold list_get.
  destruct (i <? 0) eqn:E; [apply Z.ltb_lt in E; lia|].
  rewrite E.
  destruct (nth_error l (Z.to_nat i)) as [a|] eqn:En; [eauto|].
  apply nth_error_None in En. lia.
Qed.

Lemma triangle_loop_candidates (verts : list Vector) (f : file) (p : Z) :
  forall (indices : list Z) (tris : list Z),
    (forall i, In i indices -> 2 <= i < Z.of_nat (length verts)) ->
    triangle_loop indices verts tris f p
    = Ok (tris ++ flat_map (candidate verts) indices) p.
Proof.
  induction indices as [|i indices IH]; intros tris Hin.
  - simpl. unfold ret. rewrite app_nil_r. reflexivity.
  - assert (Hi : 2 <= i < Z.of_nat (length verts)) by (apply Hin; left; reflexivity).
    assert (Hrest : forall j, In j indices -> 2 <= j < Z.of_nat (length verts))
      by (intros j Hj; apply Hin; right; exact Hj).
    destruct (list_get_Ok verts i f p) as (v_i & E0 & G0); [lia|].
    destruct (list_get_Ok verts (i - 1) f p) as (v_i1 & E1 & G1); [lia|].
    destruct (list_get_Ok verts (i - 2) f p) as (v_i2 & E2 & G2); [lia|].
    cbn [triangle_loop flat_map]. unfold bind at 1. rewrite G0.
    unfold bind at 1. rewrite G1. unfold bind at 1. rewrite G2.
    unfold candidate at 1. rewrite E0, E1, E2. unfold degenerate.
    destruct (same_position v_i v_i1 || same_position v_i v_i2
              || same_position v_i1 v_i2).
    + cbv iota. rewrite IH by assumption. reflexivity.
    + cbv iota. rewrite Zmod_even.
      destruct (Z.even i); cbv iota;
        [change (0 =? 0) with true | change (1 =? 0) with false]; cbv iota;
        rewrite IH by assumption; rewrite <- app_assoc; reflexivity.
Qed.

Lemma reconstruct_triangles_eq (verts : list Vector) (f : file) (p : Z) :
  reconstruct_triangles verts f p
  = Ok (flat_map (candidate verts) (range 2 (Z.of_nat (length verts)))) p.
Proof.
  unfold reconstruct_triangles.
  rewrite triangle_loop_candidates; [reflexivity|].
  intros i Hi. apply In_range in Hi. exact Hi.
Qed.

(** The comparison has no tolerance: one unit of the 16-bit encoding, 1/128,
    in one coordinate tells two points apart. *)
Example same_position_exact :
  same_position (mkVector (float_of_int 257 * SCALE) 0 0)
                (mkVector (float_of_int 256 * SCALE) 0 0) = false
  /\ same_position (mkVector (float_of_int 257 * SCALE) 0 0)
                   (mkVector (float_of_int 257 * SCALE) 0 0) = true.
Proof. split; reflexivity. Qed.

Lemma same_position_spec (a b : Vector) :
  same_position a b = true <-> equal_coordinates a b.
Proof.
  unfold same_position, equal_coordinates. rewrite !andb_true_iff. tauto.
Qed.

Lemma same_position_differ (a b : Vector) :
  ~ equal_coordinates a b -> same_position a b = false.
Proof.
  intros H. destruct (same_position a b) eqn:E; [|reflexivity].
  exfalso. apply H. apply same_position_spec. exact E.
Qed.

Lemma candidate_eq (verts : list Vector) (i : Z) (v_i v_i1 v_i2 : Vector) :
  nth_error verts (Z.to_nat i) = Some v_i ->
  nth_error verts (Z.to_nat (i - 1)) = Some v_i1 ->
  nth_error verts (Z.to_nat (i - 2)) = Some v_i2 ->
  candidate verts i
  = if same_position v_i v_i1 || same_position v_i v_i2
       || same_position v_i1 v_i2
    then []
    else if Z.even i then [i; i - 2; i - 1] else [i - 1; i - 2; i].
Proof. intros H0 H1 H2. unfold candidate. rewrite H0, H1, H2. reflexivity. Qed.

(** The window of the code emits what the rule says. *)
Lemma candidate_emits (verts : list Vector) (i : Z) :
  2 <= i < Z.of_nat (length verts) -> window_emits verts i (candidate verts i).
Proof.
  intros Hi.
  destruct (nth_error verts (Z.to_nat i)) as [v_i|] eqn:E0;
    [|apply nth_error_None in E0; lia].
  destruct (nth_error verts (Z.to_nat (i - 1))) as [v_i1|] eqn:E1;
    [|apply nth_error_None in E1; lia].
  destruct (nth_error verts (Z.to_nat (i - 2))) as [v_i2|] eqn:E2;
    [|apply nth_error_None in E2; lia].
  rewrite (candidate_eq verts i v_i v_i1 v_i2 E0 E1 E2).
  destruct (same_position v_i v_i1) eqn:S1.
  { apply (emits_nothing verts i v_i v_i1 v_i2 E0 E1 E2).
    left. apply same_position_spec. exact S1. }
  destruct (same_position v_i v_i2) eqn:S2.
  { apply (emits_nothing verts i v_i v_i1 v_i2 E0 E1 E2).
    right. left. apply same_position_spec. exact S2. }
  destruct (same_position v_i1 v_i2) eqn:S3.
  { apply (emits_nothing verts i v_i v_i1 v_i2 E0 E1 E2).
    right. right. apply same_position_spec. exact S3. }
  cbn [orb].
  assert (N1 : ~ equal_coordinates v_i v_i1)
    by (rewrite <- same_position_spec; congruence).
  assert (N2 : ~ equal_coordinates v_i v_i2)
    by (rewrite <- same_position_spec; congruence).
  assert (N3 : ~ equal_coordinates v_i1 v_i2)
    by (rewrite <- same_position_spec; congruence).
  destruct (Z.even i) eqn:Ev.
  - apply (emits_even verts i v_i v_i1 v_i2); assumption.
  - apply (emits_odd verts i v_i v_i1 v_i2); try assumption.
    rewrite <- Z.negb_even, Ev. reflexivity.
Qed.

Lemma windows_emit (verts : list Vector) (l : list Z) :
  (forall i, In i l -> 2 <= i < Z.of_nat (length verts)) ->
  Forall2 (window_emits verts) l (map (candidate verts) l).
Proof.
  induction l as [|i l IH]; intros H; constructor.
  - apply candidate_emits. apply H. left. reflexivity.
  - apply IH. intros j Hj. apply H. right. exact Hj.
Qed.

(** The rule leaves no choice. *)
Lemma window_emits_unique (verts : list Vector) (i : Z) (out out' : list Z) :
  window_emits verts i out -> window_emits verts i out' -> out = out'.
Proof.
  intros H H'.
  destruct H as [a b c A0 A1 A2 Ha | a b c A0 A1 A2 Na1 Na2 Na3 Pa
                 | a b c A0 A1 A2 Na1 Na2 Na3 Pa];
    destruct H' as [a' b' c' B0 B1 B2 Hb | a' b' c' B0 B1 B2 Nb1 Nb2 Nb3 Pb
                    | a' b' c' B0 B1 B2 Nb1 Nb2 Nb3 Pb];
    try reflexivity;
    rewrite A0 in B0; injection B0 as <-;
    rewrite A1 in B1; injection B1 as <-;
    rewrite A2 in B2; injection B2 as <-;
    try tauto;
    rewrite <- Z.negb_even in *;
    destruct (Z.even i); discriminate.
Qed.

(** C1.  For every vertex sequence the reconstruction returns, without an
    error, the concatenation over i = 2 .. count-1 of what the window
    (i, i-1, i-2) emits, and the rule of the window leaves no choice:
    nothing when two of its three vertices are equal in x, y and z,
    otherwise (i, i-2, i-1) for even i and (i-1, i-2, i) for odd i.  Five
    vertices of which no two are equal give (2,0,1), (2,1,3), (4,2,3), and
    fewer than three vertices give no triangle.  Three vertices of which
    two are the same give no triangle, whichever two they are; a vertex
    repeated inside a strip suppresses the two windows that hold it twice;
    and vertices 1/128 apart in one coordinate are not taken as equal. *)
Theorem strip_reconstruction (verts : list Vector) (f : file) (p : Z) :
  (exists outs,
      Forall2 (window_emits verts) (range 2 (Z.of_nat (length verts))) outs
      /\ reconstruct_triangles verts f p = Ok (concat outs) p)
  /\ (forall i out out',
         window_emits verts i out -> window_emits verts i out' -> out = out')
  /\ (length verts = 5%nat -> all_distinct verts ->
      reconstruct_triangles verts f p = Ok [2; 0; 1;  2; 1; 3;  4; 2; 3] p)
  /\ ((length verts < 3)%nat -> reconstruct_triangles verts f p = Ok [] p)
  /\ (forall a b,
         equal_coordinates a a ->
         reconstruct_triangles [a; a; b] f p = Ok [] p
         /\ reconstruct_triangles [a; b; a] f p = Ok [] p
         /\ reconstruct_triangles [b; a; a] f p = Ok [] p)
  /\ reconstruct_triangles strip_with_restart f p = Ok [2; 0; 1;  4; 3; 5] p
  /\ reconstruct_triangles near_points f p = Ok [2; 0; 1] p.
Proof.
  pose proof (reconstruct_triangles_eq verts f p) as Hgen.
  split; [|split; [|split; [|split; [|split; [|split]]]]].
  - exists (map (candidate verts) (range 2 (Z.of_nat (length verts)))).
    split.
    + apply windows_emit. intros i Hi. apply In_range in Hi. exact Hi.
    + rewrite Hgen, flat_map_concat_map. reflexivity.
  - intros i out out'. apply window_emits_unique.
  - intros Hlen Hd. rewrite Hgen, Hlen.
    destruct verts as [|a [|b [|c [|d [|e [|? ?]]]]]]; try discriminate.
    assert (Hba : same_position b a = false)
      by (apply same_position_differ; apply (Hd 1%nat 0%nat); [lia | reflexivity..]).
    assert (Hca : same_position c a = false)
      by (apply same_position_differ; apply (Hd 2%nat 0%nat); [lia | reflexivity..]).
    assert (Hcb : same_position c b = false)
      by (apply same_position_differ; apply (Hd 2%nat 1%nat); [lia | reflexivity..]).
    assert (Hdb : same_position d b = false)
      by (apply same_position_differ; apply (Hd 3%nat 1%nat); [lia | reflexivity..]).
    assert (Hdc : same_position d c = false)
      by (apply same_position_differ; apply (Hd 3%nat 2%nat); [lia | reflexivity..]).
    assert (Hec : same_position e c = false)
      by (apply same_position_differ; apply (Hd 4%nat 2%nat); [lia | reflexivity..]).
    assert (Hed : same_position e d = false)
      by (apply same_position_differ; apply (Hd 4%nat 3%nat); [lia | reflexivity..]).
    change (range 2 (Z.of_nat 5)) with [2; 3; 4].
    cbn [flat_map].
    rewrite (candidate_eq [a; b; c; d; e] 2 c b a eq_refl eq_refl eq_refl).
    rewrite (candidate_eq [a; b; c; d; e] 3 d c b eq_refl eq_refl eq_refl).
    rewrite (candidate_eq [a; b; c; d; e] 4 e d c eq_refl eq_refl eq_refl).
    rewrite Hcb, Hca, Hba, Hdc, Hdb, Hed, Hec.
    reflexivity.
  - intros Hlen. rewrite Hgen.
    replace (range 2 (Z.of_nat (length verts))) with (@nil Z); [reflexivity|].
    unfold range. replace (Z.to_nat (Z.of_nat (length verts) - 2)) with 0%nat by lia.
    reflexivity.
  - intros a b Haa. apply same_position_spec in Haa.
    rewrite !reconstruct_triangles_eq.
    change (range 2 (Z.of_nat (length [a; a; b]))) with [2].
    change (range 2 (Z.of_nat (length [a; b; a]))) with [2].
    change (range 2 (Z.of_nat (length [b; a; a]))) with [2].
    cbn [flat_map].
    rewrite (candidate_eq [a; a; b] 2 b a a eq_refl eq_refl eq_refl).
    rewrite (candidate_eq [a; b; a] 2 a b a eq_refl eq_refl eq_refl).
    rewrite (candidate_eq [b; a; a] 2 a a b eq_refl eq_refl eq_refl).
    rewrite Haa, !orb_true_r. cbn [orb]. auto.
  - rewrite reconstruct_triangles_eq. vm_compute. reflexivity.
  - rewrite reconstruct_triangles_eq. vm_compute. reflexivity.
Qed.

(** ** Vertex blocks *)

Lemma half_at_None_iff (f : file) (p : Z) :
  0 <= p -> (unpack endian true 2 (slice f p 2) = None <-> len f < p + 2).
Proof.
  intros Hp. rewrite unpack_None_iff.
  pose proof (slice_length f p 2 Hp). lia.
Qed.

Lemma vertex_at_None_iff (f : file) (p : Z) :
  0 <= p -> (vertex_at f p = None <-> len f < p + 6).
Proof.
  intros Hp. unfold vertex_at.
  destruct (unpack endian true 2 (slice f p 2)) eqn:E1;
    destruct (unpack endian true 2 (slice f (p + 2) 2)) eqn:E2;
    destruct (unpack endian true 2 (slice f (p + 4) 2)) eqn:E3;
    [assert (H1 : unpack endian true 2 (slice f p 2) <> None) by congruence;
     assert (H2 : unpack endian true 2 (slice f (p + 2) 2) <> None) by congruence;
     assert (H3 : unpack endian true 2 (slice f (p + 4) 2) <> None) by congruence;
     rewrite half_at_None_iff in H1, H2, H3 by lia;
     split; [discriminate | lia]
    | apply half_at_None_iff in E3; [|lia]; split; [lia | reflexivity]
    | apply half_at_None_iff in E2; [|lia]; split; [lia | reflexivity]
    | apply half_at_None_iff in E2; [|lia]; split; [lia | reflexivity]
    | apply half_at_None_iff in E1; [|lia]; split; [lia | reflexivity]
    | apply half_at_None_iff in E1; [|lia]; split; [lia | reflexivity]
    | apply half_at_None_iff in E1; [|lia]; split; [lia | reflexivity]
    | apply half_at_None_iff in E1; [|lia]; split; [lia | reflexivity] ].
Qed.

(** One vertex: read whole, or not at all and without an exception. *)
Lemma read_vertex_spec (f : file) (p : Z) :
  0 <= p ->
  match vertex_at f p with
  | Some v => read_vertex f p = Ok (Some v) (p + 8)
  | None => exists q, read_vertex f p = Ok None q /\ p <= q
  end.
Proof.
  intros Hp. unfold vertex_at, read_vertex, try_except, bind, read_i16, ret.
  rewrite (read_int_eq InTry true 2 f p).
  destruct (unpack endian true 2 (slice f p 2)) as [x|].
  2:{ eexists. split; [reflexivity|]. lia. }
  cbv iota beta. change (Z.of_nat 2) with 2.
  rewrite (read_int_eq InTry true 2 f (p + 2)).
  destruct (unpack endian true 2 (slice f (p + 2) 2)) as [y|].
  2:{ eexists. split; [reflexivity|]. lia. }
  cbv iota beta. change (Z.of_nat 2) with 2.
  replace (p + 2 + 2) with (p + 4) by lia.
  rewrite (read_int_eq InTry true 2 f (p + 4)).
  destruct (unpack endian true 2 (slice f (p + 4) 2)) as [z|].
  2:{ eexists. split; [reflexivity|]. lia. }
  cbv iota beta. unfold seek_cur. change (Z.of_nat 2) with 2.
  destruct (p + 4 + 2 + 2 <? 0) eqn:E; [apply Z.ltb_lt in E; lia|].
  f_equal. lia.
Qed.

(** The block: the whole vertices from [p] on, eight bytes apart, up to the
    count or up to the first one that the file does not hold. *)
Lemma read_vertices_spec (f : file) (count : nat) :
  forall (verts : list Vector) (p : Z),
    0 <= p ->
    exists l p',
      read_vertices count verts f p = Ok (verts ++ l) p'
      /\ (length l <= count)%nat
      /\ (forall j, (j < length l)%nat ->
                    vertex_at f (p + 8 * Z.of_nat j) = nth_error l j)
      /\ (length l = count
          \/ ((length l < count)%nat
              /\ vertex_at f (p + 8 * Z.of_nat (length l)) = None)).
Proof.
  induction count as [|count IH]; intros verts p Hp.
  - exists [], p. simpl. unfold ret. rewrite app_nil_r.
    split; [reflexivity|]. split; [lia|].
    split; [intros j Hj; simpl in Hj; lia | left; reflexivity].
  - cbn [read_vertices]. unfold bind at 1.
    pose proof (read_vertex_spec f p Hp) as Hv.
    destruct (vertex_at f p) as [v|] eqn:Ev.
    + rewrite Hv.
      destruct (IH (verts ++ [v]) (p + 8)) as (l & p' & Hl & Hlen & Hw & Hfin);
        [lia|].
      exists (v :: l), p'. rewrite Hl, <- app_assoc.
      split; [reflexivity|]. split; [simpl; lia|]. split.
      * intros [|j] Hj.
        -- change (Z.of_nat 0) with 0. rewrite Z.mul_0_r, Z.add_0_r. exact Ev.
        -- cbn [nth_error]. rewrite <- Hw by (simpl in Hj; lia). f_equal. lia.
      * cbn [length]. destruct Hfin as [Hc | [Hc Hno]].
        -- left. lia.
        -- right. split; [lia|]. rewrite <- Hno. f_equal. lia.
    + destruct Hv as (q & Hv & Hq). rewrite Hv.
      exists [], q. unfold ret. rewrite app_nil_r.
      split; [reflexivity|]. split; [simpl; lia|].
      split; [intros j Hj; simpl in Hj; lia|].
      right. cbn [length]. split; [lia|].
      change (Z.of_nat 0) with 0. rewrite Z.mul_0_r, Z.add_0_r. exact Ev.
Qed.

Lemma read_vertices_at (f : file) (count : nat) (q : Z) :
  0 <= q ->
  exists p', read_vertices count [] f q = Ok (vertices_at f q count) p'.
Proof.
  intros Hq. destruct (read_vertices_spec f count [] q Hq) as (l & p' & H & _).
  exists p'. unfold vertices_at. rewrite H. reflexivity.
Qed.

Lemma vertices_at_spec (f : file) (count : nat) (q : Z) :
  0 <= q ->
  let l := vertices_at f q count in
  (length l <= count)%nat
  /\ (forall j, (j < length l)%nat ->
                vertex_at f (q + 8 * Z.of_nat j) = nth_error l j)
  /\ (length l = count
      \/ ((length l < count)%nat
          /\ len f < q + 8 * Z.of_nat (length l) + 6)).
Proof.
  intros Hq.
  destruct (read_vertices_spec f count [] q Hq) as (l & p' & H & Hlen & Hw & Hfin).
  unfold vertices_at. rewrite H. cbn [app]. cbv zeta.
  split; [exact Hlen|]. split; [exact Hw|].
  destruct Hfin as [Hc | [Hc Hno]]; [left; exact Hc|].
  right. split; [exact Hc|]. apply vertex_at_None_iff in Hno; lia.
Qed.

(** ** DMA entries *)

Lemma byte_val_nonneg (b : byte) : 0 <= byte_val b.
Proof. unfold byte_val. lia. Qed.

Lemma le_value_nonneg (bs : list byte) : 0 <= le_value bs.
Proof.
  induction bs as [|b bs IH]; cbn [le_value]; [lia|].
  pose proof (byte_val_nonneg b). lia.
Qed.

Lemma unpack_unsigned_nonneg (n : nat) (data : list byte) (v : Z) :
  unpack endian false n data = Some v -> 0 <= v.
Proof.
  unfold unpack. destruct (Nat.eqb (length data) n); [|discriminate].
  intros H. injection H as <-. apply le_value_nonneg.
Qed.

Lemma uword_at_None_iff (f : file) (p : Z) :
  0 <= p -> (uword_at f p = None <-> len f < p + 4).
Proof.
  intros Hp. unfold uword_at. rewrite unpack_None_iff.
  pose proof (slice_length f p 4 Hp). lia.
Qed.

Lemma uword_at_nonneg (f : file) (p v : Z) : uword_at f p = Some v -> 0 <= v.
Proof. apply unpack_unsigned_nonneg. Qed.

Lemma read_u32_eq (s : site) (f : file) (p : Z) :
  read_u32 s f p
  = match uword_at f p with
    | Some v => Ok v (p + 4)
    | None => Raise (StructError s) (p + Z.of_nat (length (slice f p 4)))
    end.
Proof. unfold read_u32. rewrite read_int_eq. reflexivity. Qed.

Lemma read_i32_eq (s : site) (f : file) (p : Z) :
  read_i32 s f p
  = match word_at f p with
    | Some v => Ok v (p + 4)
    | None => Raise (StructError s) (p + Z.of_nat (length (slice f p 4)))
    end.
Proof. unfold read_i32. rewrite read_int_eq. reflexivity. Qed.

Lemma read_u32_Ok (s : site) (f : file) (p q v : Z) :
  read_u32 s f p = Ok v q -> uword_at f p = Some v /\ q = p + 4.
Proof.
  rewrite read_u32_eq. destruct (uword_at f p); [|discriminate].
  intros H. injection H as -> <-. auto.
Qed.

Lemma seek_cur_eq (d : Z) (f : file) (p : Z) :
  0 <= p + d -> seek_cur d f p = Ok tt (p + d).
Proof.
  intros H. unfold seek_cur.
  destruct (p + d <? 0) eqn:E; [apply Z.ltb_lt in E; lia | reflexivity].
Qed.

Lemma seek_set_Ok (o : Z) (f : file) (p q : Z) (u : unit) :
  seek_set o f p = Ok u q -> q = o /\ 0 <= o.
Proof.
  unfold seek_set. destruct (o <? 0) eqn:E; [discriminate|].
  apply Z.ltb_ge in E. intros H. injection H as _ <-. auto.
Qed.

Lemma seek_set_eq (o : Z) (f : file) (p : Z) :
  0 <= o -> seek_set o f p = Ok tt o.
Proof.
  intros H. unfold seek_set.
  destruct (o <? 0) eqn:E; [apply Z.ltb_lt in E; lia | reflexivity].
Qed.

(** The id byte at [p + 3], when the file holds it. *)
Lemma read_id_cases (f : file) (p : Z) :
  0 <= p ->
  (exists id, try_except (v <- read_u8 InTry ;; ret (Some v)) (ret None) f p
              = Ok (Some id) (p + 1) /\ p + 1 <= len f)
  \/ (exists q, try_except (v <- read_u8 InTry ;; ret (Some v)) (ret None) f p
                = Ok None q /\ p <= q /\ len f < p + 1).
Proof.
  intros Hp. unfold try_except, bind, read_u8, ret. rewrite read_int_eq.
  pose proof (slice_length f p 1 Hp) as Hs.
  destruct (unpack endian false 1 (slice f p 1)) as [id|] eqn:E.
  - left. exists id. split; [reflexivity|].
    assert (length (slice f p 1) = 1%nat)
      by (apply (unpack_Some_iff endian false); eauto).
    lia.
  - right. eexists. split; [reflexivity|].
    apply unpack_None_iff in E. lia.
Qed.

(** The three ways the head of a pass ends: no id byte, an entry, or a
    [struct.error] at the offset or the type word. *)
Lemma read_dma_entry_cases (f : file) (p : Z) :
  0 <= p ->
  (exists q, read_dma_entry f p = Ok None q /\ len f < p + 4)
  \/ (exists e, read_dma_entry f p = Ok (Some e) (p + 16)
                /\ p + 16 <= len f /\ 0 <= uiDataOffset e)
  \/ (exists q, read_dma_entry f p = Raise (StructError InDmaEntry) q
                /\ p + 4 <= len f < p + 16).
Proof.
  intros Hp. remember (read_dma_entry f p) as r eqn:Hr.
  unfold read_dma_entry, bind at 1 in Hr.
  rewrite seek_cur_eq in Hr by lia. unfold bind at 1 in Hr.
  destruct (read_id_cases f (p + 3)) as [(id & Hid & Hlen) | (q & Hq & _ & Hlen)];
    [lia| |].
  - rewrite Hid in Hr. unfold bind at 1 in Hr. rewrite read_u32_eq in Hr.
    replace (p + 3 + 1) with (p + 4) in Hr by lia.
    destruct (uword_at f (p + 4)) as [off|] eqn:Eoff.
    + unfold bind at 1 in Hr. rewrite seek_cur_eq in Hr by lia.
      unfold bind at 1 in Hr. rewrite read_u32_eq in Hr.
      replace (p + 4 + 4 + 4) with (p + 12) in Hr by lia.
      destruct (uword_at f (p + 12)) as [ty|] eqn:Ety.
      * right. left. unfold ret in Hr.
        replace (p + 12 + 4) with (p + 16) in Hr by lia.
        eexists. split; [exact Hr|]. cbn [uiDataOffset].
        split; [|eapply uword_at_nonneg; eauto].
        destruct (Z.le_gt_cases (p + 16) (len f)); [assumption|].
        assert (uword_at f (p + 12) = None) by (apply uword_at_None_iff; lia).
        congruence.
      * right. right. eexists. split; [exact Hr|].
        apply uword_at_None_iff in Ety; lia.
    + right. right. eexists. split; [exact Hr|].
      apply uword_at_None_iff in Eoff; lia.
  - rewrite Hq in Hr. left. exists q. unfold ret in Hr. split; [exact Hr | lia].
Qed.

Lemma read_dma_entry_Some (f : file) (p q : Z) (e : DMAEntry) :
  0 <= p ->
  read_dma_entry f p = Ok (Some e) q ->
  q = p + 16 /\ entry_at f p = Some e /\ 0 <= uiDataOffset e.
Proof.
  intros Hp H. unfold read_dma_entry in H.
  unfold bind at 1 in H. rewrite seek_cur_eq in H by lia.
  unfold bind at 1 in H. unfold try_except, bind at 1, read_u8 in H.
  rewrite read_int_eq in H. unfold entry_at.
  destruct (unpack endian false 1 (slice f (p + 3) 1)) as [id|];
    [|unfold ret in H; discriminate].
  unfold ret at 1 in H. cbv iota beta in H.
  unfold bind at 1 in H. rewrite read_u32_eq in H.
  change (Z.of_nat 1) with 1 in H.
  replace (p + 3 + 1) with (p + 4) in H by lia.
  destruct (uword_at f (p + 4)) as [off|] eqn:Eoff; [|discriminate].
  unfold bind at 1 in H. rewrite seek_cur_eq in H by lia.
  unfold bind at 1 in H. rewrite read_u32_eq in H.
  replace (p + 4 + 4 + 4) with (p + 12) in H by lia.
  destruct (uword_at f (p + 12)) as [ty|]; [|discriminate].
  unfold ret in H. injection H as <- <-. cbn [uiDataOffset].
  split; [lia|]. split; [reflexivity|]. eapply uword_at_nonneg; eauto.
Qed.

Lemma list_get_indep {A} (l : list A) (i : Z) (f : file) (p q : Z) (a : A) :
  list_get l i f p = Ok a q ->
  forall g r, list_get l i g r = Ok a r.
Proof.
  unfold list_get. intros H g r.
  destruct ((if i <? 0 then i + Z.of_nat (length l) else i) <? 0);
    [discriminate|].
  destruct (nth_error l (Z.to_nat (if i <? 0 then i + Z.of_nat (length l) else i)));
    [|discriminate].
  injection H as -> _. reflexivity.
Qed.

Lemma list_get_nth {A} (l : list A) (i : Z) (a : A) :
  0 <= i -> nth_error l (Z.to_nat i) = Some a ->
  forall g r, list_get l i g r = Ok a r.
Proof.
  intros Hi Hn g r. unfold list_get.
  destruct (i <? 0) eqn:E; [apply Z.ltb_lt in E; lia|].
  rewrite E, Hn. reflexivity.
Qed.

Lemma dma_loop_S (fuel : nat) (bm : binmesh) (idx start dend : Z)
      (ms : material_split) (b : bool) (f : file) (p : Z) :
  dma_loop (S fuel) bm idx start dend ms b f p
  = if (p <? dend) && negb b then
      match read_dma_entry f p with
      | Ok None q => Ok ms q
      | Ok (Some e) q =>
          match process_dma_entry bm idx start e ms b f q with
          | Ok r q' => dma_loop fuel bm idx start dend (fst r) (snd r) f q'
          | Raise x q' => Raise x q'
          | OutOfFuel => OutOfFuel
          end
      | Raise x q => Raise x q
      | OutOfFuel => OutOfFuel
      end
    else Ok ms p.
Proof.
  cbn [dma_loop]. unfold bind, pos, ret.
  destruct ((p <? dend) && negb b); [|reflexivity].
  destruct (read_dma_entry f p) as [[e|] q| |]; reflexivity.
Qed.

Lemma dma_entries_S (fuel : nat) (bm : binmesh) (idx start dend : Z)
      (ms : material_split) (b : bool) (f : file) (p : Z) :
  dma_entries (S fuel) bm idx start dend ms b f p
  = if (p <? dend) && negb b then
      match read_dma_entry f p with
      | Ok None q => Ok [] q
      | Ok (Some e) q =>
          match process_dma_entry bm idx start e ms b f q with
          | Ok r q' =>
              match dma_entries fuel bm idx start dend (fst r) (snd r) f q' with
              | Ok es q'' => Ok (e :: es) q''
              | Raise x q'' => Raise x q''
              | OutOfFuel => OutOfFuel
              end
          | Raise x q' => Raise x q'
          | OutOfFuel => OutOfFuel
          end
      | Raise x q => Raise x q
      | OutOfFuel => OutOfFuel
      end
    else Ok [] p.
Proof.
  cbn [dma_entries]. unfold bind, pos, ret.
  destruct ((p <? dend) && negb b); [|reflexivity].
  destruct (read_dma_entry f p) as [[e|] q| |]; reflexivity.
Qed.

Section OneSplit.

(** The split being decoded: its index in the header and its entry
    there. *)
Variable bm : binmesh.
Variable split_idx : Z.
Variable entry : mesh_entry.
Hypothesis entry_found :
  forall g r, list_get (binMeshes bm) split_idx g r = Ok entry r.

Variable f : file.
Variable lSectionStart : Z.
Hypothesis start_nonneg : 0 <= lSectionStart.

Lemma read_vertex_block_eq (lDataPosition : Z) (ms : material_split) (p : Z) :
  0 <= lDataPosition -> 0 <= p ->
  read_vertex_block bm split_idx lDataPosition ms f p
  = Ok (mkSplit (ms_iMaterialIndex ms)
                (Some (vertices_at f lDataPosition
                                   (Z.to_nat (iIndexCount entry))))
                (Triangles ms) true) p.
Proof.
  intros Hd Hp. unfold read_vertex_block, bind at 1, pos.
  unfold bind at 1. rewrite seek_set_eq by assumption.
  unfold bind at 1. rewrite entry_found.
  unfold bind at 1.
  destruct (read_vertices_at f (Z.to_nat (iIndexCount entry)) lDataPosition Hd)
    as [p' Hv].
  rewrite Hv. unfold bind. rewrite seek_set_eq by assumption.
  reflexivity.
Qed.

Lemma process_dma_entry_eq (e : DMAEntry) (ms : material_split)
      (bReachedEnd : bool) (p : Z) :
  0 <= uiDataOffset e -> 0 <= p ->
  process_dma_entry bm split_idx lSectionStart e ms bReachedEnd f p
  = Ok (after_entry f (iIndexCount entry) lSectionStart ms e,
        if bDMAId e =? 0x30 then bReachedEnd
        else if bDMAId e =? 0x10 then true else bReachedEnd)
       (if bDMAId e =? 0x30 then p + 16 else p).
Proof.
  intros Ho Hp. unfold process_dma_entry, after_entry, is_vertex_entry.
  destruct (bDMAId e =? 0x30) eqn:E30.
  - cbn [andb]. unfold bind at 1.
    destruct (uiDataType e =? DMATAG_VERTEX_4_INT16).
    + rewrite read_vertex_block_eq by lia.
      unfold bind. rewrite seek_cur_eq by lia. reflexivity.
    + unfold ret, bind. rewrite seek_cur_eq by lia. reflexivity.
  - cbn [andb]. destruct (bDMAId e =? 0x10); reflexivity.
Qed.

(** The loop ends, with the entries folded into the split or with the
    [struct.error] of an entry cut by the end of the file; the fuel is
    never what stops it. *)
Lemma dma_loop_run (lDMASectionEnd : Z) (fuel : nat) :
  forall (ms : material_split) (bReachedEnd : bool) (p : Z),
    0 <= p -> (Z.to_nat (len f - p) < fuel)%nat ->
    (exists es q,
        dma_loop fuel bm split_idx lSectionStart lDMASectionEnd ms bReachedEnd f p
        = Ok (fold_left (after_entry f (iIndexCount entry) lSectionStart) es ms) q
        /\ dma_entries fuel bm split_idx lSectionStart lDMASectionEnd ms
                       bReachedEnd f p
           = Ok es q)
    \/ (exists q,
           dma_loop fuel bm split_idx lSectionStart lDMASectionEnd ms bReachedEnd f p
           = Raise (StructError InDmaEntry) q
           /\ dma_entries fuel bm split_idx lSectionStart lDMASectionEnd ms
                          bReachedEnd f p
              = Raise (StructError InDmaEntry) q).
Proof.
  induction fuel as [|fuel IH]; intros ms bReachedEnd p Hp Hfuel; [lia|].
  rewrite dma_loop_S, dma_entries_S.
  destruct ((p <? lDMASectionEnd) && negb bReachedEnd).
  2:{ left. exists [], p. split; reflexivity. }
  destruct (read_dma_entry_cases f p Hp)
    as [(q & Hr & _) | [(e & Hr & Hlen & Hoff) | (q & Hr & _)]]; rewrite Hr.
  - left. exists [], q. split; reflexivity.
  - rewrite process_dma_entry_eq by lia. cbn [fst snd].
    set (p1 := if bDMAId e =? 0x30 then p + 16 + 16 else p + 16).
    assert (Hp1 : p + 16 <= p1) by (unfold p1; destruct (bDMAId e =? 0x30); lia).
    destruct (IH (after_entry f (iIndexCount entry) lSectionStart ms e)
                 (if bDMAId e =? 0x30 then bReachedEnd
                  else if bDMAId e =? 0x10 then true else bReachedEnd)
                 p1)
      as [(es & q & Hloop & Hes) | (q & Hloop & Hes)]; [lia | lia | |].
    + left. exists (e :: es), q. rewrite Hloop, Hes. split; reflexivity.
    + right. exists q. rewrite Hloop, Hes. split; reflexivity.
  - right. exists q. split; reflexivity.
Qed.


End OneSplit.

Lemma add_triangles_eq (ms : material_split) (f : file) (p : Z) :
  add_triangles ms f p = Ok (with_triangles ms) p.
Proof.
  unfold add_triangles, with_triangles.
  destruct (HasVertexData ms); [|reflexivity].
  destruct (Vertices ms) as [verts|]; [|reflexivity].
  unfold bind. rewrite reconstruct_triangles_eq. reflexivity.
Qed.

(** What a walk leaves in the split: the vertices of the last vertex entry,
    or what the split held when there was none. *)
Lemma fold_after_entry (f : file) (idxcount start : Z) (es : list DMAEntry) :
  forall ms,
    let ms' := fold_left (after_entry f idxcount start) es ms in
    ms_iMaterialIndex ms' = ms_iMaterialIndex ms
    /\ Triangles ms' = Triangles ms
    /\ Vertices ms'
       = match last_vertex_entry es with
         | Some e => Some (vertices_at f (start + uiDataOffset e * 16)
                                       (Z.to_nat idxcount))
         | None => Vertices ms
         end
    /\ HasVertexData ms'
       = match last_vertex_entry es with
         | Some _ => true
         | None => HasVertexData ms
         end.
Proof.
  induction es as [|e es IH]; intros ms; cbn [fold_left last_vertex_entry].
  - auto.
  - cbv zeta. destruct (IH (after_entry f idxcount start ms e))
      as (Hm & Ht & Hv & Hh).
    rewrite Hm, Ht, Hv, Hh.
    destruct (last_vertex_entry es) as [e'|].
    + unfold after_entry. destruct (is_vertex_entry e); auto.
    + unfold after_entry. destruct (is_vertex_entry e); auto.
Qed.

Lemma parse_split_eq (bm : binmesh) (idx : Z) (entry : mesh_entry)
      (f : file) (p : Z) :
  (forall g r, list_get (binMeshes bm) idx g r = Ok entry r) ->
  0 <= p ->
  parse_split bm idx f p
  = match uword_at f p with
    | None => Raise (StructError InSplitHeader)
                    (p + Z.of_nat (length (slice f p 4)))
    | Some size =>
        match uword_at f (p + 12) with
        | None => Raise (StructError InSplitHeader)
                        (p + 12 + Z.of_nat (length (slice f (p + 12) 4)))
        | Some words =>
            match dma_loop (S (length f)) bm idx (p + 8) (p + 8 + words * 16)
                           (fresh_split entry) false f (p + 8) with
            | Ok ms q => Ok (with_triangles ms) (p + 8 + size)
            | Raise x q => Raise x q
            | OutOfFuel => OutOfFuel
            end
        end
    end.
Proof.
  intros Hentry Hp. unfold parse_split.
  unfold bind at 1. rewrite read_u32_eq.
  destruct (uword_at f p) as [size|] eqn:Esize; [|reflexivity].
  pose proof (uword_at_nonneg _ _ _ Esize) as Hsize.
  unfold bind at 1. rewrite seek_cur_eq by lia.
  unfold bind at 1. unfold pos at 1.
  unfold bind at 1. rewrite seek_cur_eq by lia.
  unfold bind at 1. rewrite read_u32_eq.
  replace (p + 4 + 4 + 4) with (p + 12) by lia.
  replace (p + 4 + 4) with (p + 8) by lia.
  destruct (uword_at f (p + 12)) as [words|] eqn:Ewords; [|reflexivity].
  unfold bind at 1. rewrite seek_set_eq by lia.
  unfold bind at 1. rewrite Hentry.
  unfold bind at 1. unfold dma_fuel at 1.
  unfold bind at 1. fold (fresh_split entry).
  destruct (dma_loop (S (length f)) bm idx (p + 8) (p + 8 + words * 16)
                     (fresh_split entry) false f (p + 8)) as [ms q|x q|];
    [|reflexivity|reflexivity].
  unfold bind at 1. rewrite add_triangles_eq.
  unfold bind. rewrite seek_set_eq by lia. reflexivity.
Qed.

Lemma parse_split_Ok_entry (bm : binmesh) (idx : Z) (f : file) (p pf : Z)
      (ms : material_split) :
  parse_split bm idx f p = Ok ms pf ->
  exists entry, forall g r, list_get (binMeshes bm) idx g r = Ok entry r.
Proof.
  intros H. unfold parse_split in H.
  apply bind_Ok in H. destruct H as (? & ? & _ & H).
  apply bind_Ok in H. destruct H as (? & ? & _ & H).
  apply bind_Ok in H. destruct H as (? & ? & _ & H).
  apply bind_Ok in H. destruct H as (? & ? & _ & H).
  apply bind_Ok in H. destruct H as (? & ? & _ & H).
  apply bind_Ok in H. destruct H as (? & ? & _ & H).
  apply bind_Ok in H. destruct H as (entry & ? & Hget & _).
  exists entry. eapply list_get_indep. exact Hget.
Qed.

(** A split that is returned: its size words, the entries walked, and the
    split as the fold of the entries, with its triangles. *)
Lemma parse_split_Ok (bm : binmesh) (idx : Z) (f : file) (p pf : Z)
      (ms : material_split) :
  0 <= p ->
  parse_split bm idx f p = Ok ms pf ->
  exists entry size words es q,
    (forall g r, list_get (binMeshes bm) idx g r = Ok entry r)
    /\ uword_at f p = Some size
    /\ uword_at f (p + 12) = Some words
    /\ dma_entries (S (length f)) bm idx (p + 8) (p + 8 + words * 16)
                   (fresh_split entry) false f (p + 8) = Ok es q
    /\ dma_loop (S (length f)) bm idx (p + 8) (p + 8 + words * 16)
                (fresh_split entry) false f (p + 8)
       = Ok (fold_left (after_entry f (iIndexCount entry) (p + 8)) es
                       (fresh_split entry)) q
    /\ ms = with_triangles
              (fold_left (after_entry f (iIndexCount entry) (p + 8)) es
                         (fresh_split entry))
    /\ pf = p + 8 + size.
Proof.
  intros Hp H. destruct (parse_split_Ok_entry _ _ _ _ _ _ H) as [entry Hentry].
  rewrite (parse_split_eq bm idx entry f p Hentry Hp) in H.
  destruct (uword_at f p) as [size|]; [|discriminate].
  destruct (uword_at f (p + 12)) as [words|]; [|discriminate].
  assert (Hfuel : (Z.to_nat (len f - (p + 8)) < S (length f))%nat)
    by (unfold len; lia).
  destruct (dma_loop_run bm idx entry Hentry f (p + 8) ltac:(lia)
                         (p + 8 + words * 16) (S (length f))
                         (fresh_split entry) false (p + 8) ltac:(lia) Hfuel)
    as [(es & q & Hloop & Hes) | (q & Hloop & _)]; rewrite Hloop in H.
  - injection H as <- <-.
    exists entry, size, words, es, q. repeat split; auto.
  - discriminate.
Qed.

Lemma with_triangles_fields (ms : material_split) :
  ms_iMaterialIndex (with_triangles ms) = ms_iMaterialIndex ms
  /\ Vertices (with_triangles ms) = Vertices ms
  /\ HasVertexData (with_triangles ms) = HasVertexData ms.
Proof.
  unfold with_triangles. destruct (HasVertexData ms) eqn:Eh;
    destruct (Vertices ms) eqn:Ev; cbn; auto.
Qed.

Lemma parse_splits_cons (idx : Z) (indices : list Z) (bm : binmesh)
      (acc : list material_split) (f : file) (p : Z) :
  parse_splits (idx :: indices) bm acc f p
  = match parse_split bm idx f p with
    | Ok ms q => parse_splits indices bm (acc ++ [ms]) f q
    | Raise x q => Raise x q
    | OutOfFuel => OutOfFuel
    end.
Proof. reflexivity. Qed.

(** ** The decoder, split by split *)

(** C5.  Once the size words of a split are read, whenever the loop over
    its DMA entries ends without an exception -- at the end of the DMA
    section, at an entry of id 0x10 or where the file has no id byte left,
    with the cursor at whatever place [q] -- the body of the split ends with
    the cursor at lSectionEnd = lSectionStart + uiSplitSize, lSectionStart
    being eight bytes after the place the split began at, and the splits
    still to come are parsed from there.  No split is returned with the
    cursor anywhere else. *)
Theorem cursor_at_section_end_after_split
        (bm : binmesh) (idx : Z) (entry : mesh_entry) (f : file)
        (p uiSplitSize dma_words : Z) :
  0 <= p ->
  (forall g r, list_get (binMeshes bm) idx g r = Ok entry r) ->
  uword_at f p = Some uiSplitSize ->
  uword_at f (p + 12) = Some dma_words ->
  let lSectionStart := p + 8 in
  let lSectionEnd := lSectionStart + uiSplitSize in
  (forall ms1 q,
      dma_loop (S (length f)) bm idx lSectionStart
               (lSectionStart + dma_words * 16) (fresh_split entry) false
               f lSectionStart = Ok ms1 q ->
      parse_split bm idx f p = Ok (with_triangles ms1) lSectionEnd
      /\ forall indices acc,
          parse_splits (idx :: indices) bm acc f p
          = parse_splits indices bm (acc ++ [with_triangles ms1]) f lSectionEnd)
  /\ (forall ms pf, parse_split bm idx f p = Ok ms pf -> pf = lSectionEnd).
Proof.
  intros Hp Hentry Hs Hw lSectionStart lSectionEnd.
  pose proof (parse_split_eq bm idx entry f p Hentry Hp) as Heq.
  rewrite Hs, Hw in Heq. fold lSectionStart in Heq. fold lSectionEnd in Heq.
  split.
  - intros ms1 q Hloop. rewrite Hloop in Heq. split; [exact Heq|].
    intros indices acc. rewrite parse_splits_cons, Heq. reflexivity.
  - intros ms pf H. rewrite Heq in H.
    destruct (dma_loop (S (length f)) bm idx lSectionStart
                       (lSectionStart + dma_words * 16) (fresh_split entry)
                       false f lSectionStart); try discriminate.
    injection H as _ <-. reflexivity.
Qed.


(** C9.  For a split whose [iIndexCount] is zero or negative, an entry
    with id 0x30 and the vertex tag is processed without an exception and
    leaves an empty vertex list; a returned split then has the empty list
    when the loop went through such an entry and no list otherwise, and no
    triangle in both cases. *)
Theorem nonpositive_index_count_decodes_nothing
        (bm : binmesh) (idx : Z) (entry : mesh_entry) (f : file) :
  (forall g r, list_get (binMeshes bm) idx g r = Ok entry r) ->
  iIndexCount entry <= 0 ->
  (forall start e ms0 flag r,
      is_vertex_entry e = true -> 0 <= start -> 0 <= uiDataOffset e -> 0 <= r ->
      exists ms1,
        process_dma_entry bm idx start e ms0 flag f r = Ok (ms1, flag) (r + 16)
        /\ Vertices ms1 = Some [] /\ HasVertexData ms1 = true)
  /\ (forall p pf ms,
         0 <= p -> parse_split bm idx f p = Ok ms pf ->
         exists dma_words es q,
           uword_at f (p + 12) = Some dma_words
           /\ dma_entries (S (length f)) bm idx (p + 8) (p + 8 + dma_words * 16)
                          (fresh_split entry) false f (p + 8) = Ok es q
           /\ Vertices ms = match last_vertex_entry es with
                            | Some _ => Some []
                            | None => None
                            end
           /\ Triangles ms = []).
Proof.
  intros Hentry Hneg.
  assert (Hzero : Z.to_nat (iIndexCount entry) = 0%nat) by lia.
  split.
  - intros start e ms0 flag r He Hs Ho Hr.
    rewrite (process_dma_entry_eq bm idx entry Hentry f start Hs e ms0 flag r Ho Hr).
    pose proof He as He'. unfold is_vertex_entry in He'.
    apply andb_true_iff in He'. destruct He' as [He30 _]. rewrite He30.
    eexists. split; [reflexivity|].
    unfold after_entry. rewrite He, Hzero. split; reflexivity.
  - intros p pf ms Hp H.
    destruct (parse_split_Ok _ _ _ _ _ _ Hp H)
      as (entry' & size & words & es & q & Hentry' & _ & Hw & Hes & _ & Hms & _).
    assert (entry' = entry).
    { specialize (Hentry f 0). specialize (Hentry' f 0). congruence. }
    subst entry'.
    exists words, es, q. split; [exact Hw|]. split; [exact Hes|].
    destruct (fold_after_entry f (iIndexCount entry) (p + 8) es
                               (fresh_split entry)) as (_ & Ht & Hv & Hh).
    cbv zeta in Ht, Hv, Hh. rewrite Hzero in Hv.
    set (ms1 := fold_left (after_entry f (iIndexCount entry) (p + 8)) es
                          (fresh_split entry)) in *.
    rewrite Hms. unfold with_triangles. rewrite Hv, Hh.
    destruct (last_vertex_entry es).
    + cbn [Vertices Triangles]. split; reflexivity.
    + cbn [fresh_split HasVertexData]. cbv iota.
      split; [exact Hv | exact Ht].
Qed.

Lemma read_vertices_length (f : file) (count : nat) :
  forall verts p l p',
    read_vertices count verts f p = Ok l p' ->
    (length l <= length verts + count)%nat.
Proof.
  induction count as [|count IH]; intros verts p l p' H.
  - simpl in H. unfold ret in H. injection H as <- _. lia.
  - cbn [read_vertices] in H. apply bind_Ok in H.
    destruct H as ([v|] & q & _ & H).
    + apply IH in H. rewrite length_app in H. simpl in H. lia.
    + unfold ret in H. injection H as <- _. lia.
Qed.

Lemma vertices_at_length (f : file) (q : Z) (count : nat) :
  (length (vertices_at f q count) <= count)%nat.
Proof.
  unfold vertices_at.
  destruct (read_vertices count [] f q) as [l p'| |] eqn:E; simpl; try lia.
  apply read_vertices_length in E. simpl in E. exact E.
Qed.

Lemma list_get_Ok_nth {A} (l : list A) (i : Z) (a : A) :
  0 <= i ->
  (forall g r, list_get l i g r = Ok a r) ->
  nth_error l (Z.to_nat i) = Some a.
Proof.
  intros Hi H. specialize (H [] 0). unfold list_get in H.
  destruct (i <? 0) eqn:E; [apply Z.ltb_lt in E; lia|].
  rewrite E in H.
  destruct (nth_error l (Z.to_nat i)); [|discriminate].
  injection H as ->. reflexivity.
Qed.

Lemma split_from_entry (bm : binmesh) (f : file) (idx : Z) (ms : material_split) :
  0 <= idx -> split_from bm f idx ms ->
  exists entry,
    nth_error (binMeshes bm) (Z.to_nat idx) = Some entry
    /\ ms_iMaterialIndex ms = iMaterialIndex entry
    /\ forall verts, Vertices ms = Some verts ->
                     (length verts <= Z.to_nat (iIndexCount entry))%nat.
Proof.
  intros Hidx (p & pf & Hp & H).
  destruct (parse_split_Ok _ _ _ _ _ _ Hp H)
    as (entry & size & words & es & q & Hentry & _ & _ & _ & _ & Hms & _).
  exists entry. split; [apply list_get_Ok_nth; assumption|].
  destruct (with_triangles_fields
              (fold_left (after_entry f (iIndexCount entry) (p + 8)) es
                         (fresh_split entry))) as (Hm & Hv & _).
  destruct (fold_after_entry f (iIndexCount entry) (p + 8) es
                             (fresh_split entry)) as (Hm' & _ & Hv' & _).
  cbv zeta in Hm', Hv'. rewrite <- Hms in Hm, Hv. split.
  - rewrite Hm, Hm'. reflexivity.
  - intros verts Hverts. rewrite Hv, Hv' in Hverts.
    destruct (last_vertex_entry es); [|discriminate].
    injection Hverts as <-. apply vertices_at_length.
Qed.

(** The splits returned, one for each index in turn. *)
Lemma parse_splits_Ok (bm : binmesh) (f : file) (indices : list Z) :
  forall acc p res pf,
    0 <= p ->
    parse_splits indices bm acc f p = Ok res pf ->
    exists new, res = acc ++ new /\ Forall2 (split_from bm f) indices new.
Proof.
  induction indices as [|idx indices IH]; intros acc p res pf Hp H.
  - simpl in H. unfold ret in H. injection H as <- _.
    exists []. rewrite app_nil_r. split; [reflexivity | constructor].
  - rewrite parse_splits_cons in H.
    destruct (parse_split bm idx f p) as [ms q| |] eqn:E; try discriminate.
    assert (Hq : 0 <= q).
    { destruct (parse_split_Ok _ _ _ _ _ _ Hp E)
        as (? & size & ? & ? & ? & _ & Hs & _ & _ & _ & _ & ->).
      apply uword_at_nonneg in Hs. lia. }
    destruct (IH _ _ _ _ Hq H) as (new & -> & Hall).
    exists (ms :: new). rewrite <- app_assoc. split; [reflexivity|].
    constructor; [|exact Hall]. exists p, q. auto.
Qed.

Lemma range_nth (a b : Z) (k : nat) (i : Z) :
  nth_error (range a b) k = Some i -> i = a + Z.of_nat k.
Proof.
  unfold range. rewrite nth_error_map.
  destruct (nth_error (seq 0 (Z.to_nat (b - a))) k) as [j|] eqn:E;
    [|discriminate].
  intros H. injection H as <-.
  assert (Hk : (k < length (seq 0 (Z.to_nat (b - a))))%nat)
    by (apply nth_error_Some; congruence).
  rewrite (nth_error_nth' _ 0%nat Hk) in E. injection E as <-.
  rewrite length_seq in Hk. rewrite seq_nth by exact Hk. reflexivity.
Qed.

Lemma Forall2_nth {A B} (R : A -> B -> Prop) (l : list A) (l' : list B) :
  Forall2 R l l' ->
  forall k b, nth_error l' k = Some b ->
              exists a, nth_error l k = Some a /\ R a b.
Proof.
  induction 1 as [|a b l l' Hab _ IH]; intros [|k] b' Hk; try discriminate.
  - injection Hk as <-. exists a. auto.
  - apply IH. exact Hk.
Qed.

(** The result of the decoder, when it returns one. *)
Lemma parse_native_data_plg_Ok (offset : Z) (bm : binmesh) (f : file)
      (p0 pf : Z) (splits : list material_split) :
  parse_native_data_plg offset bm f p0 = Ok splits pf ->
  splits = []
  \/ Forall2 (split_from bm f) (range 0 (iMaterialSplitCount bm)) splits.
Proof.
  intros H. unfold parse_native_data_plg in H.
  apply bind_Ok in H. destruct H as ([] & q0 & Hseek & H).
  apply seek_set_Ok in Hseek. destruct Hseek as [-> Hoff].
  apply bind_Ok in H. destruct H as (sid & q1 & H1 & H).
  apply read_i32_Ok in H1. destruct H1 as [_ ->].
  apply bind_Ok in H. destruct H as (sz & q2 & H2 & H).
  apply read_i32_Ok in H2. destruct H2 as [_ ->].
  apply bind_Ok in H. destruct H as (ver & q3 & H3 & H).
  apply read_i32_Ok in H3. destruct H3 as [_ ->].
  apply bind_Ok in H. destruct H as (marker & q4 & H4 & H).
  apply read_i32_Ok in H4. destruct H4 as [_ ->].
  destruct (negb (marker =? STRUCT_ID)).
  { apply bind_Ok in H. destruct H as (? & ? & _ & H). discriminate. }
  apply bind_Ok in H. destruct H as (ssz & q5 & H5 & H).
  apply read_i32_Ok in H5. destruct H5 as [_ ->].
  apply bind_Ok in H. destruct H as (srw & q6 & H6 & H).
  apply read_i32_Ok in H6. destruct H6 as [_ ->].
  destruct (ssz =? 4).
  { unfold ret in H. injection H as <- _. left. reflexivity. }
  apply bind_Ok in H. destruct H as (plat & q7 & H7 & H).
  apply read_u32_Ok in H7. destruct H7 as [_ ->].
  destruct (negb (plat =? 4)); [discriminate|].
  apply parse_splits_Ok in H; [|lia].
  destruct H as (new & -> & Hall). right. exact Hall.
Qed.

(** C6.  In every result of the decoder the k-th split belongs to the k-th
    entry of the header, and its vertex list, when it has one, is no longer
    than that entry's count: than [iIndexCount] where it is positive, than
    zero where it is not, hence than the unsigned count that the field
    declares.  A block is decoded without an exception whatever the file
    holds: the list is made of the vertices that are whole in the file,
    eight bytes apart, and stops before the first one that is not. *)
Theorem vertex_list_within_index_count
        (offset : Z) (bm : binmesh) (f : file) (p0 pf : Z)
        (splits : list material_split) :
  parse_native_data_plg offset bm f p0 = Ok splits pf ->
  (forall k ms,
      nth_error splits k = Some ms ->
      exists entry,
        nth_error (binMeshes bm) k = Some entry
        /\ ms_iMaterialIndex ms = iMaterialIndex entry
        /\ forall verts,
            Vertices ms = Some verts ->
            Z.of_nat (length verts) <= Z.max 0 (iIndexCount entry)
            /\ (in_i32 (iIndexCount entry) ->
                Z.of_nat (length verts) <= declared_index_count entry))
  /\ (forall count q,
         0 <= q ->
         exists l q',
           read_vertices count [] f q = Ok l q'
           /\ (length l <= count)%nat
           /\ (forall j, (j < length l)%nat ->
                         vertex_at f (q + 8 * Z.of_nat j) = nth_error l j)
           /\ (length l = count
               \/ ((length l < count)%nat
                   /\ vertex_at f (q + 8 * Z.of_nat (length l)) = None))).
Proof.
  intros H. split.
  - intros k ms Hk. apply parse_native_data_plg_Ok in H.
    destruct H as [-> | Hall]; [destruct k; discriminate|].
    destruct (Forall2_nth _ _ _ Hall k ms Hk) as (idx & Hidx & Hfrom).
    apply range_nth in Hidx. simpl in Hidx. subst idx.
    destruct (split_from_entry bm f (Z.of_nat k) ms ltac:(lia) Hfrom)
      as (entry & Hn & Hm & Hv).
    rewrite Nat2Z.id in Hn. exists entry.
    split; [exact Hn|]. split; [exact Hm|].
    intros verts Hverts. specialize (Hv verts Hverts). split; [lia|].
    unfold in_i32, declared_index_count. intros Hr.
    destruct (Z.le_gt_cases 0 (iIndexCount entry)).
    + rewrite Z.mod_small by lia. lia.
    + assert (0 <= iIndexCount entry mod 2 ^ 32)
        by (apply Z.mod_pos_bound; lia).
      lia.
  - intros count q Hq.
    destruct (read_vertices_spec f count [] q Hq) as (l & q' & Hl & Hrest).
    exists l, q'. split; [exact Hl | exact Hrest].
Qed.

(** ** The decoder as a whole *)

Lemma parse_split_run (bm : binmesh) (idx : Z) (entry : mesh_entry)
      (f : file) (p : Z) :
  (forall g r, list_get (binMeshes bm) idx g r = Ok entry r) ->
  0 <= p ->
  (exists ms pf, parse_split bm idx f p = Ok ms pf /\ 0 <= pf)
  \/ (exists q, parse_split bm idx f p = Raise (StructError InSplitHeader) q
                /\ len f < p + 16)
  \/ (exists q, parse_split bm idx f p = Raise (StructError InDmaEntry) q).
Proof.
  intros Hentry Hp. rewrite (parse_split_eq bm idx entry f p Hentry Hp).
  destruct (uword_at f p) as [size|] eqn:Es.
  2:{ right. left. eexists. split; [reflexivity|].
      apply uword_at_None_iff in Es; lia. }
  destruct (uword_at f (p + 12)) as [words|] eqn:Ew.
  2:{ right. left. eexists. split; [reflexivity|].
      apply uword_at_None_iff in Ew; lia. }
  assert (Hfuel : (Z.to_nat (len f - (p + 8)) < S (length f))%nat)
    by (unfold len; lia).
  destruct (dma_loop_run bm idx entry Hentry f (p + 8) ltac:(lia)
                         (p + 8 + words * 16) (S (length f))
                         (fresh_split entry) false (p + 8) ltac:(lia) Hfuel)
    as [(es & q & Hloop & _) | (q & Hloop & _)]; rewrite Hloop.
  - left. eexists. eexists. split; [reflexivity|].
    apply uword_at_nonneg in Es. lia.
  - right. right. exists q. reflexivity.
Qed.

Lemma parse_splits_run (bm : binmesh) (f : file) (indices : list Z) :
  (forall idx, In idx indices ->
               exists entry, forall g r,
                   list_get (binMeshes bm) idx g r = Ok entry r) ->
  forall acc p,
    0 <= p ->
    (exists res pf, parse_splits indices bm acc f p = Ok res pf)
    \/ (exists q, parse_splits indices bm acc f p
                  = Raise (StructError InSplitHeader) q)
    \/ (exists q, parse_splits indices bm acc f p
                  = Raise (StructError InDmaEntry) q).
Proof.
  induction indices as [|idx indices IH]; intros Hvalid acc p Hp.
  - left. exists acc, p. reflexivity.
  - rewrite parse_splits_cons.
    destruct (Hvalid idx (or_introl eq_refl)) as [entry Hentry].
    destruct (parse_split_run bm idx entry f p Hentry Hp)
      as [(ms & pf & H & Hpf) | [(q & H & _) | (q & H)]]; rewrite H.
    + apply IH; [|exact Hpf]. intros j Hj. apply Hvalid. right. exact Hj.
    + right. left. exists q. reflexivity.
    + right. right. exists q. reflexivity.
Qed.

Lemma splits_listed_valid (bm : binmesh) :
  splits_listed bm ->
  forall idx, In idx (range 0 (iMaterialSplitCount bm)) ->
              exists entry, forall g r,
                  list_get (binMeshes bm) idx g r = Ok entry r.
Proof.
  unfold splits_listed. intros Hl idx Hidx. apply In_range in Hidx.
  destruct (nth_error (binMeshes bm) (Z.to_nat idx)) as [entry|] eqn:E.
  - exists entry. apply list_get_nth; [lia | exact E].
  - apply nth_error_None in E. lia.
Qed.

(** The chunk header: which of its words are in the file decides how the
    decoder leaves it. *)
Lemma parse_native_header_cases (offset : Z) (bm : binmesh) (f : file) (p0 : Z) :
  0 <= offset ->
  let r := parse_native_data_plg offset bm f p0 in
  (exists q, r = Raise (StructError InNativeHeader) q /\ len f < offset + 28
             /\ (len f < offset + 16
                 \/ word_at f (offset + 12) = Some STRUCT_ID))
  \/ (exists m, word_at f (offset + 12) = Some m /\ m <> STRUCT_ID
                /\ r = Raise (MissingStructId (offset + 16)) (offset + 16))
  \/ (word_at f (offset + 12) = Some STRUCT_ID
      /\ word_at f (offset + 16) = Some 4
      /\ r = Ok [] (offset + 24))
  \/ (exists sz v, word_at f (offset + 12) = Some STRUCT_ID
                   /\ word_at f (offset + 16) = Some sz /\ sz <> 4
                   /\ uword_at f (offset + 24) = Some v /\ v <> 4
                   /\ r = Raise (UnsupportedPlatform v) (offset + 28))
  \/ (exists sz, word_at f (offset + 12) = Some STRUCT_ID
                 /\ word_at f (offset + 16) = Some sz /\ sz <> 4
                 /\ uword_at f (offset + 24) = Some 4
                 /\ offset + 28 <= len f
                 /\ r = parse_splits (range 0 (iMaterialSplitCount bm)) bm []
                                     f (offset + 28)).
Proof.
  intros Hoff r. subst r.
  remember (parse_native_data_plg offset bm f p0) as r eqn:Hr.
  unfold parse_native_data_plg in Hr.
  unfold bind at 1 in Hr. rewrite seek_set_eq in Hr by assumption.
  unfold bind at 1 in Hr. rewrite read_i32_eq in Hr.
  destruct (word_at f offset) as [sid|] eqn:E0.
  2:{ left. eexists. split; [exact Hr|]. apply word_at_None_iff in E0; lia. }
  unfold bind at 1 in Hr. rewrite read_i32_eq in Hr.
  destruct (word_at f (offset + 4)) as [sz0|] eqn:E1.
  2:{ left. eexists. split; [exact Hr|]. apply word_at_None_iff in E1; lia. }
  unfold bind at 1 in Hr. rewrite read_i32_eq in Hr.
  destruct (word_at f (offset + 4 + 4)) as [ver|] eqn:E2.
  2:{ left. eexists. split; [exact Hr|]. apply word_at_None_iff in E2; lia. }
  unfold bind at 1 in Hr. rewrite read_i32_eq in Hr.
  replace (offset + 4 + 4 + 4) with (offset + 12) in * by lia.
  destruct (word_at f (offset + 12)) as [m|] eqn:E3.
  2:{ left. eexists. split; [exact Hr|]. apply word_at_None_iff in E3; lia. }
  destruct (m =? STRUCT_ID) eqn:Em; cbn [negb] in Hr.
  2:{ apply Z.eqb_neq in Em. right. left. exists m.
      split; [reflexivity|]. split; [exact Em|].
      unfold bind, pos, raise in Hr.
      replace (offset + 12 + 4) with (offset + 16) in Hr by lia. exact Hr. }
  apply Z.eqb_eq in Em. subst m.
  unfold bind at 1 in Hr. rewrite read_i32_eq in Hr.
  replace (offset + 12 + 4) with (offset + 16) in * by lia.
  destruct (word_at f (offset + 16)) as [sz|] eqn:E4.
  2:{ left. eexists. split; [exact Hr|]. apply word_at_None_iff in E4; [|lia].
      split; [lia | right; reflexivity]. }
  unfold bind at 1 in Hr. rewrite read_i32_eq in Hr.
  destruct (word_at f (offset + 16 + 4)) as [srw|] eqn:E5.
  2:{ left. eexists. split; [exact Hr|]. apply word_at_None_iff in E5; [|lia].
      split; [lia | right; reflexivity]. }
  replace (offset + 16 + 4 + 4) with (offset + 24) in * by lia.
  destruct (sz =? 4) eqn:Esz.
  { apply Z.eqb_eq in Esz. subst sz. right. right. left.
    split; [reflexivity|]. split; [reflexivity|]. exact Hr. }
  apply Z.eqb_neq in Esz.
  unfold bind at 1 in Hr. rewrite read_u32_eq in Hr.
  destruct (uword_at f (offset + 24)) as [v|] eqn:E6.
  2:{ left. eexists. split; [exact Hr|]. apply uword_at_None_iff in E6; [|lia].
      split; [lia | right; reflexivity]. }
  replace (offset + 24 + 4) with (offset + 28) in * by lia.
  destruct (v =? 4) eqn:Ev; cbn [negb] in Hr.
  - apply Z.eqb_eq in Ev. subst v. right. right. right. right.
    exists sz. repeat split; try assumption; try reflexivity.
    destruct (Z.le_gt_cases (offset + 28) (len f)); [assumption|].
    assert (uword_at f (offset + 24) = None) by (apply uword_at_None_iff; lia).
    congruence.
  - apply Z.eqb_neq in Ev. right. right. right. left.
    exists sz, v. repeat split; try assumption; try reflexivity.
Qed.

(** Every header the mesh-split parser returns lists its splits. *)
Lemma parse_binmesh_plg_splits_listed (f : file) (offset p0 pf : Z) (bm : binmesh) :
  parse_binmesh_plg offset f p0 = Ok bm pf -> splits_listed bm.
Proof.
  intros H. apply parse_binmesh_plg_Ok in H.
  destruct H as (Hoff & sz & _ & [[_ ->] | (_ & count & ms & -> & _ & Hms)]).
  - unfold splits_listed. simpl. lia.
  - apply read_mesh_entries_laid_out in Hms; [|lia].
    destruct Hms as (new & -> & Hlen & _).
    unfold splits_listed. simpl. lia.
Qed.





(** The same file cut after the id byte and the offset word of its first
    DMA entry: the read of the type word raises. *)
Example entry_cut_after_offset_word :
  parse_native_data_plg 0 sample_binmesh (firstn 46 sample_native) 0
  = Raise (StructError InDmaEntry) 48.
Proof. vm_compute. reflexivity. Qed.

(** ** The theorems on the sample files *)

Example binmesh_plain_has_no_index_list :
  parse_binmesh_plg 0 binmesh_plain 0
  = Ok (mkBinMesh 2 [mkMeshEntry 5 7 None; mkMeshEntry 4 8 None]
                  (Some 28) (Some 0)) 40.
Proof. vm_compute. reflexivity. Qed.

(** The whole way from the bytes of a file to its split: five vertices and
    three triangles. *)
Example import_dff_sample :
  import_dff sample_dff 0
  = Ok (Some [mkSplit 7 (Some five_points) strip_of_five true])
       (len sample_dff).
Proof. vm_compute. reflexivity. Qed.

Example import_dff_without_native_chunk :
  import_dff binmesh_plain 0 = Ok None (len binmesh_plain).
Proof. vm_compute. reflexivity. Qed.

Lemma strip_reconstruction_witness :
  length five_points = 5%nat
  /\ all_distinct five_points
  /\ reconstruct_triangles five_points [] 0 = Ok strip_of_five 0
  /\ reconstruct_triangles strip_with_restart [] 0 = Ok [2; 0; 1;  4; 3; 5] 0.
Proof.
  assert (Hd : all_distinct five_points).
  { intros i j a b Hij Hi Hj (H1 & H2 & H3). unfold five_points in Hi, Hj.
    destruct i as [|[|[|[|[|i]]]]]; cbn [nth_error] in Hi;
      try (destruct i; discriminate Hi); injection Hi as <-;
      destruct j as [|[|[|[|[|j]]]]]; cbn [nth_error] in Hj;
      try (destruct j; discriminate Hj); injection Hj as <-;
      try (exfalso; apply Hij; reflexivity);
      cbn [vx vy vz] in H1, H2, H3;
      vm_compute in H1; vm_compute in H2; vm_compute in H3;
      congruence. }
  split; [reflexivity|]. split; [exact Hd|].
  pose proof (strip_reconstruction five_points [] 0) as Hthm.
  destruct Hthm as (_ & _ & Hfive & _ & _ & Hrestart & _).
  split; [exact (Hfive eq_refl Hd) | exact Hrestart].
Defined.


Lemma explicit_indices_follow_header_size_witness :
  parse_binmesh_plg 0 binmesh_explicit 0
  = Ok (mkBinMesh 1 [mkMeshEntry 3 9 (Some [11; 12; 13])] (Some 40) (Some 0)) 44
  /\ laid_out binmesh_explicit (has_explicit_indices 40 1) 24
              [mkMeshEntry 3 9 (Some [11; 12; 13])].
Proof.
  assert (H : parse_binmesh_plg 0 binmesh_explicit 0
              = Ok (mkBinMesh 1 [mkMeshEntry 3 9 (Some [11; 12; 13])]
                              (Some 40) (Some 0)) 44)
    by (vm_compute; reflexivity).
  split; [exact H|].
  pose proof (explicit_indices_follow_header_size binmesh_explicit 0 0 44 _ H)
    as Hthm.
  cbn [section_size iMaterialSplitCount binMeshes] in Hthm.
  exact (proj1 (proj2 (proj2 (proj2 (proj2 Hthm))))).
Defined.

Lemma find_chunk_positions_scan_witness :
  - 2 ^ 31 <= NATIVE_DATA_PLG_ID < 2 ^ 31
  /\ pack_i32 endian NATIVE_DATA_PLG_ID = Some [x10; x05; x00; x00]
  /\ find_chunk_positions NATIVE_DATA_PLG_ID (sample_dff ++ sample_dff) 0
     = Ok [32; 172] (len (sample_dff ++ sample_dff))
  /\ scan (sample_dff ++ sample_dff) [x10; x05; x00; x00] 0 [32; 172]
  /\ (forall l, scan (sample_dff ++ sample_dff) [x10; x05; x00; x00] 0 l ->
                l = [32; 172])
  /\ ascending [32; 172]
  /\ (forall k, In k [32; 172] ->
                occurs_at (sample_dff ++ sample_dff) [x10; x05; x00; x00] k).
Proof.
  assert (Hid : - 2 ^ 31 <= NATIVE_DATA_PLG_ID < 2 ^ 31)
    by (unfold NATIVE_DATA_PLG_ID; lia).
  split; [exact Hid|].
  destruct (find_chunk_positions_scan (sample_dff ++ sample_dff) 0
                                      NATIVE_DATA_PLG_ID Hid)
    as (pattern & matches & Hp & _ & Hf & Hscan & Huniq & Hasc & Hocc & _).
  assert (Hp' : pack_i32 endian NATIVE_DATA_PLG_ID = Some [x10; x05; x00; x00])
    by (vm_compute; reflexivity).
  assert (Hf' : find_chunk_positions NATIVE_DATA_PLG_ID (sample_dff ++ sample_dff) 0
                = Ok [32; 172] (len (sample_dff ++ sample_dff)))
    by (vm_compute; reflexivity).
  rewrite Hp' in Hp. injection Hp as <-.
  rewrite Hf' in Hf. injection Hf as <-.
  split; [exact Hp'|]. split; [exact Hf'|]. split; [exact Hscan|].
  split; [exact Huniq|]. split; [exact Hasc | exact Hocc].
Defined.

Lemma cursor_at_section_end_after_split_witness :
  uword_at sample_native 28 = Some 72
  /\ uword_at sample_native (28 + 12) = Some 2
  /\ dma_loop (S (length sample_native)) sample_binmesh 0 (28 + 8)
              (28 + 8 + 2 * 16) (fresh_split (mkMeshEntry 5 7 None)) false
              sample_native (28 + 8)
     = Ok (mkSplit 7 (Some five_points) [] true) 68
  /\ parse_split sample_binmesh 0 sample_native 28
     = Ok (with_triangles (mkSplit 7 (Some five_points) [] true)) (28 + 8 + 72).
Proof.
  assert (Hp : 0 <= 28) by lia.
  assert (Hentry : forall g r,
             list_get (binMeshes sample_binmesh) 0 g r
             = Ok (mkMeshEntry 5 7 None) r)
    by (intros g r; reflexivity).
  assert (Hs : uword_at sample_native 28 = Some 72)
    by (vm_compute; reflexivity).
  assert (Hw : uword_at sample_native (28 + 12) = Some 2)
    by (vm_compute; reflexivity).
  assert (Hloop : dma_loop (S (length sample_native)) sample_binmesh 0 (28 + 8)
                           (28 + 8 + 2 * 16) (fresh_split (mkMeshEntry 5 7 None))
                           false sample_native (28 + 8)
                  = Ok (mkSplit 7 (Some five_points) [] true) 68)
    by (vm_compute; reflexivity).
  split; [exact Hs|]. split; [exact Hw|]. split; [exact Hloop|].
  exact (proj1 (proj1 (cursor_at_section_end_after_split
                         sample_binmesh 0 _ sample_native 28 72 2
                         Hp Hentry Hs Hw) _ _ Hloop)).
Defined.

Lemma vertex_list_within_index_count_witness :
  parse_native_data_plg 0 sample_binmesh (firstn 90 sample_native) 0
  = Ok [mkSplit 7 (Some (firstn 3 five_points)) [2; 0; 1] true] 108
  /\ forall k ms,
      nth_error [mkSplit 7 (Some (firstn 3 five_points)) [2; 0; 1] true] k
      = Some ms ->
      exists entry,
        nth_error (binMeshes sample_binmesh) k = Some entry
        /\ ms_iMaterialIndex ms = iMaterialIndex entry
        /\ forall verts,
            Vertices ms = Some verts ->
            Z.of_nat (length verts) <= Z.max 0 (iIndexCount entry)
            /\ (in_i32 (iIndexCount entry) ->
                Z.of_nat (length verts) <= declared_index_count entry).
Proof.
  assert (H : parse_native_data_plg 0 sample_binmesh (firstn 90 sample_native) 0
              = Ok [mkSplit 7 (Some (firstn 3 five_points)) [2; 0; 1] true] 108)
    by (vm_compute; reflexivity).
  split; [exact H|].
  exact (proj1 (vertex_list_within_index_count 0 sample_binmesh
                  (firstn 90 sample_native) 0 108 _ H)).
Defined.

Lemma parse_binmesh_plg_empty_section_witness :
  0 <= 0 /\ 0 + 12 <= len binmesh_empty
  /\ word_at binmesh_empty (0 + 4) = Some 12
  /\ parse_binmesh_plg 0 binmesh_empty 0 = Ok (mkBinMesh 0 [] None None) (0 + 12).
Proof.
  assert (H0 : 0 <= 0) by lia.
  assert (Hl : 0 + 12 <= len binmesh_empty) by (unfold len; simpl; lia).
  assert (Hw : word_at binmesh_empty (0 + 4) = Some 12)
    by (vm_compute; reflexivity).
  split; [exact H0|]. split; [exact Hl|]. split; [exact Hw|].
  exact (proj1 (parse_binmesh_plg_empty_section binmesh_empty 0 0 H0 Hl Hw)).
Defined.

Lemma nonpositive_index_count_decodes_nothing_witness :
  iIndexCount (mkMeshEntry (-1) 7 None) <= 0
  /\ parse_split negative_count_binmesh 0 sample_native 28
     = Ok (mkSplit 7 (Some []) [] true) 108
  /\ exists dma_words es q,
      uword_at sample_native (28 + 12) = Some dma_words
      /\ dma_entries (S (length sample_native)) negative_count_binmesh 0
                     (28 + 8) (28 + 8 + dma_words * 16)
                     (fresh_split (mkMeshEntry (-1) 7 None)) false
                     sample_native (28 + 8) = Ok es q
      /\ Vertices (mkSplit 7 (Some []) [] true)
         = match last_vertex_entry es with
           | Some _ => Some []
           | None => None
           end
      /\ Triangles (mkSplit 7 (Some []) [] true) = [].
Proof.
  assert (Hentry : forall g r,
             list_get (binMeshes negative_count_binmesh) 0 g r
             = Ok (mkMeshEntry (-1) 7 None) r)
    by (intros g r; reflexivity).
  assert (Hneg : iIndexCount (mkMeshEntry (-1) 7 None) <= 0)
    by (simpl; lia).
  assert (H : parse_split negative_count_binmesh 0 sample_native 28
              = Ok (mkSplit 7 (Some []) [] true) 108)
    by (vm_compute; reflexivity).
  assert (Hp : 0 <= 28) by lia.
  split; [exact Hneg|]. split; [exact H|].
  exact (proj2 (nonpositive_index_count_decodes_nothing
                  negative_count_binmesh 0 _ sample_native Hentry Hneg)
               28 108 _ Hp H).
Defined.


(** * Further properties of the module *)

(** ** The triangles and the faces made of them *)

Lemma candidate_shape (verts : list Vector) (i : Z) :
  2 <= i < Z.of_nat (length verts) ->
  candidate verts i = []
  \/ (length (candidate verts i) = 3%nat
      /\ Forall (fun t => 0 <= t < Z.of_nat (length verts)) (candidate verts i)).
Proof.
  intros Hi. unfold candidate.
  destruct (nth_error verts (Z.to_nat i)); [|auto].
  destruct (nth_error verts (Z.to_nat (i - 1))); [|auto].
  destruct (nth_error verts (Z.to_nat (i - 2))); [|auto].
  destruct (_ || _); [auto|].
  right. destruct (Z.even i); (split; [reflexivity|]);
    repeat constructor; lia.
Qed.

Lemma candidates_shape (verts : list Vector) (indices : list Z) :
  (forall i, In i indices -> 2 <= i < Z.of_nat (length verts)) ->
  Forall (fun t => 0 <= t < Z.of_nat (length verts))
         (flat_map (candidate verts) indices)
  /\ exists n, length (flat_map (candidate verts) indices) = (3 * n)%nat
               /\ (n <= length indices)%nat.
Proof.
  induction indices as [|i indices IH]; intros Hin.
  - split; [constructor|]. exists 0%nat. split; [reflexivity | simpl; lia].
  - destruct IH as (Hall & n & Hn & Hle);
      [intros j Hj; apply Hin; right; exact Hj|].
    cbn [flat_map].
    destruct (candidate_shape verts i (Hin i (or_introl eq_refl)))
      as [E | [Hlen Hc]].
    + rewrite E. cbn [app]. split; [exact Hall|].
      exists n. split; [exact Hn | simpl; lia].
    + split; [apply Forall_app; split; assumption|].
      exists (S n). rewrite length_app, Hlen, Hn. split; [lia | simpl; lia].
Qed.

Lemma range_length (a b : Z) : length (range a b) = Z.to_nat (b - a).
Proof. unfold range. rewrite length_map, length_seq. reflexivity. Qed.

(** X1.  The reconstruction returns a list of indices that all refer to
    vertices of the sequence, three for each triangle, with at most
    count - 2 triangles. *)
Theorem reconstruct_triangles_well_formed (verts : list Vector) (f : file) (p : Z) :
  exists tris,
    reconstruct_triangles verts f p = Ok tris p
    /\ Forall (fun t => 0 <= t < Z.of_nat (length verts)) tris
    /\ exists n, length tris = (3 * n)%nat /\ (n <= length verts - 2)%nat.
Proof.
  eexists. split; [apply reconstruct_triangles_eq|].
  destruct (candidates_shape verts (range 2 (Z.of_nat (length verts))))
    as (Hall & n & Hn & Hle).
  { intros i Hi. apply In_range in Hi. exact Hi. }
  split; [exact Hall|]. exists n. split; [exact Hn|].
  rewrite range_length in Hle. lia.
Qed.

Lemma range_step_3_cons (n : Z) :
  0 <= n ->
  range_step 0 (3 + n) 3 = 0 :: map (fun i => i + 3) (range_step 0 n 3).
Proof.
  intros Hn. unfold range_step.
  replace ((3 + n - 0 + 3 - 1) / 3) with (1 + (n - 0 + 3 - 1) / 3).
  2:{ replace (3 + n - 0 + 3 - 1) with (1 * 3 + (n - 0 + 3 - 1)) by lia.
      rewrite Z.div_add_l by lia. reflexivity. }
  assert (H0 : 0 <= (n - 0 + 3 - 1) / 3) by (apply Z.div_pos; lia).
  rewrite Z2Nat.inj_add by lia. change (Z.to_nat 1) with 1%nat.
  cbn [Nat.add seq map]. f_equal.
  rewrite <- seq_shift, !map_map. apply map_ext. intros k. lia.
Qed.

Lemma faces_of_app (t l : list Z) :
  length t = 3%nat -> faces_of (t ++ l) = t :: faces_of l.
Proof.
  intros Ht. unfold faces_of. rewrite length_app, Ht.
  replace (Z.of_nat (3 + length l)) with (3 + Z.of_nat (length l)) by lia.
  rewrite range_step_3_cons by lia. cbn [map]. f_equal.
  - change (firstn 3 (t ++ l) = t). rewrite <- Ht.
    rewrite firstn_app, Nat.sub_diag, firstn_all. simpl. apply app_nil_r.
  - rewrite map_map. apply map_ext_in. intros i Hi.
    unfold range_step in Hi. apply in_map_iff in Hi.
    destruct Hi as (k & <- & _). unfold list_slice.
    replace (0 + 3 * Z.of_nat k + 3 + 3 - (0 + 3 * Z.of_nat k + 3))
      with (0 + 3 * Z.of_nat k + 3 - (0 + 3 * Z.of_nat k)) by lia.
    f_equal.
    replace (Z.to_nat (0 + 3 * Z.of_nat k + 3))
      with (length t + Z.to_nat (0 + 3 * Z.of_nat k))%nat by lia.
    rewrite skipn_app, Nat.add_comm, <- skipn_skipn.
    rewrite skipn_all. rewrite skipn_nil. simpl.
    f_equal. lia.
Qed.

Lemma faces_of_concat (ts : list (list Z)) :
  Forall (fun t => length t = 3%nat) ts -> faces_of (concat ts) = ts.
Proof.
  induction 1 as [|t ts Ht _ IH]; [reflexivity|].
  cbn [concat]. rewrite faces_of_app by exact Ht. f_equal. exact IH.
Qed.

(** The triples the windows emit, the silent windows left out. *)
Lemma candidates_as_triples (verts : list Vector) (indices : list Z) :
  (forall i, In i indices -> 2 <= i < Z.of_nat (length verts)) ->
  exists ts,
    flat_map (candidate verts) indices = concat ts
    /\ Forall (fun t => length t = 3%nat
                        /\ exists i, In i indices /\ candidate verts i = t) ts.
Proof.
  induction indices as [|i indices IH]; intros Hin.
  - exists []. split; [reflexivity | constructor].
  - destruct IH as (ts & Hts & Hall);
      [intros j Hj; apply Hin; right; exact Hj|].
    assert (Hall' : Forall (fun t => length t = 3%nat
                        /\ exists j, In j (i :: indices) /\ candidate verts j = t) ts).
    { eapply Forall_impl; [|exact Hall].
      intros t (Hl & j & Hj & E). split; [exact Hl|].
      exists j. split; [right; exact Hj | exact E]. }
    cbn [flat_map].
    destruct (candidate_shape verts i (Hin i (or_introl eq_refl)))
      as [E | [Hlen _]].
    + rewrite E. exists ts. split; [exact Hts | exact Hall'].
    + exists (candidate verts i :: ts). cbn [concat]. rewrite Hts.
      split; [reflexivity|]. constructor; [|exact Hall'].
      split; [exact Hlen|]. exists i. split; [left; reflexivity | reflexivity].
Qed.

(** X2.  The faces that [create_mesh_object] cuts out of the index list of
    the reconstruction are the triples the reconstruction emitted: each has
    three indices and is what one window gave, and put end to end they are
    the index list again. *)
Theorem faces_are_the_emitted_triples (verts : list Vector) (f : file) (p : Z) :
  exists tris,
    reconstruct_triangles verts f p = Ok tris p
    /\ concat (faces_of tris) = tris
    /\ Forall (fun face =>
                 length face = 3%nat
                 /\ exists i, 2 <= i < Z.of_nat (length verts)
                              /\ candidate verts i = face)
              (faces_of tris).
Proof.
  eexists. split; [apply reconstruct_triangles_eq|].
  destruct (candidates_as_triples verts (range 2 (Z.of_nat (length verts))))
    as (ts & Hts & Hall).
  { intros i Hi. apply In_range in Hi. exact Hi. }
  assert (H3 : Forall (fun t => length t = 3%nat) ts)
    by (eapply Forall_impl; [|exact Hall]; intros t [H _]; exact H).
  rewrite Hts, faces_of_concat by exact H3.
  split; [reflexivity|].
  eapply Forall_impl; [|exact Hall].
  intros t (Hl & i & Hi & E). split; [exact Hl|].
  exists i. split; [apply In_range in Hi; exact Hi | exact E].
Qed.

(** A returned split has the triangles of its vertex list, or neither. *)
Lemma parse_split_shape (bm : binmesh) (idx : Z) (f : file) (p pf : Z)
      (ms : material_split) :
  0 <= p ->
  parse_split bm idx f p = Ok ms pf ->
  match Vertices ms with
  | Some verts =>
      HasVertexData ms = true
      /\ Triangles ms
         = flat_map (candidate verts) (range 2 (Z.of_nat (length verts)))
  | None => HasVertexData ms = false /\ Triangles ms = []
  end.
Proof.
  intros Hp H.
  destruct (parse_split_Ok _ _ _ _ _ _ Hp H)
    as (entry & size & words & es & q & _ & _ & _ & _ & _ & Hms & _).
  destruct (fold_after_entry f (iIndexCount entry) (p + 8) es
                             (fresh_split entry)) as (_ & Ht & Hv & Hh).
  cbv zeta in Ht, Hv, Hh.
  set (ms1 := fold_left (after_entry f (iIndexCount entry) (p + 8)) es
                        (fresh_split entry)) in *.
  rewrite Hms. unfold with_triangles. rewrite Hv, Hh.
  destruct (last_vertex_entry es).
  - cbn [Vertices HasVertexData Triangles]. split; reflexivity.
  - cbn [fresh_split HasVertexData Vertices]. cbv iota. rewrite Hv.
    cbn [fresh_split Vertices]. split; [exact Hh | exact Ht].
Qed.

(** X3.  For a split that the decoder returns, [create_mesh_object] builds
    no object when the split has no vertex list, fewer than three vertices,
    or no triangle; an object it builds has the split's vertices as its
    points, at least three of them, at least one face, and every face has
    three indices that refer to points of the object. *)
Theorem mesh_object_of_split
        (bm : binmesh) (idx : Z) (f : file) (p pf : Z) (ms : material_split)
        (name : String.string) :
  0 <= p ->
  parse_split bm idx f p = Ok ms pf ->
  match create_mesh_object name (Vertices ms) (Triangles ms) with
  | None =>
      Vertices ms = None \/ Triangles ms = []
  | Some obj =>
      exists verts,
        Vertices ms = Some verts
        /\ points obj = map (fun v => (vx v, vy v, vz v)) verts
        /\ (3 <= length (points obj))%nat
        /\ edges obj = []
        /\ faces obj <> []
        /\ concat (faces obj) = Triangles ms
        /\ Forall (fun face =>
                     length face = 3%nat
                     /\ Forall (fun t => 0 <= t < Z.of_nat (length (points obj)))
                               face)
                  (faces obj)
  end
  /\ ((forall verts, Vertices ms = Some verts -> (length verts < 3)%nat) ->
      create_mesh_object name (Vertices ms) (Triangles ms) = None).
Proof.
  intros Hp H. pose proof (parse_split_shape _ _ _ _ _ _ Hp H) as Hshape.
  destruct (Vertices ms) as [verts|] eqn:Ev.
  2:{ split; [left; reflexivity|]. intros _. reflexivity. }
  destruct Hshape as [_ Htris].
  destruct (candidates_as_triples verts (range 2 (Z.of_nat (length verts))))
    as (ts & Hts & Hall).
  { intros i Hi. apply In_range in Hi. exact Hi. }
  assert (H3 : Forall (fun t => length t = 3%nat) ts)
    by (eapply Forall_impl; [|exact Hall]; intros t [Ht _]; exact Ht).
  split.
  - unfold create_mesh_object.
    destruct verts as [|v0 verts']; [cbn; right; rewrite Htris; reflexivity|].
    destruct (Triangles ms) as [|t0 tris'] eqn:Et; [cbn; right; reflexivity|].
    cbn [falsy orb]. cbv iota.
    exists (v0 :: verts'). split; [reflexivity|].
    cbn [points edges faces]. split; [reflexivity|].
    rewrite length_map.
    assert (Hfaces : faces_of (t0 :: tris') = ts).
    { rewrite Htris, Hts. apply faces_of_concat. exact H3. }
    rewrite Hfaces.
    assert (Hne : ts <> []).
    { intros ->. rewrite <- Htris in Hts. discriminate. }
    assert (Hlen : (3 <= length (v0 :: verts'))%nat).
    { destruct ts as [|t ts']; [congruence|].
      inversion Hall as [|? ? (_ & i & Hi & _) _]; subst.
      apply In_range in Hi. lia. }
    split; [exact Hlen|]. split; [reflexivity|]. split; [exact Hne|].
    split; [rewrite <- Hts; symmetry; exact Htris|].
    eapply Forall_impl; [|exact Hall].
    intros t (Hl & i & Hi & E). split; [exact Hl|].
    apply In_range in Hi.
    destruct (candidate_shape (v0 :: verts') i Hi) as [E' | [_ Hr]].
    + rewrite E' in E. subst t. discriminate.
    + rewrite E in Hr. exact Hr.
  - intros Hshort. specialize (Hshort verts eq_refl).
    rewrite Htris.
    replace (range 2 (Z.of_nat (length verts))) with (@nil Z).
    + unfold create_mesh_object. destruct (falsy (Some verts)); reflexivity.
    + unfold range.
      replace (Z.to_nat (Z.of_nat (length verts) - 2)) with 0%nat by lia.
      reflexivity.
Qed.

Lemma mesh_object_of_split_witness :
  0 <= 28
  /\ parse_split sample_binmesh 0 sample_native 28 = Ok sample_split 108
  /\ match create_mesh_object MeshNames.mesh_suffix (Vertices sample_split)
                              (Triangles sample_split) with
     | None => Vertices sample_split = None \/ Triangles sample_split = []
     | Some obj =>
         exists verts,
           Vertices sample_split = Some verts
           /\ points obj = map (fun v => (vx v, vy v, vz v)) verts
           /\ (3 <= length (points obj))%nat
           /\ edges obj = []
           /\ faces obj <> []
           /\ concat (faces obj) = Triangles sample_split
           /\ Forall (fun face =>
                        length face = 3%nat
                        /\ Forall (fun t => 0 <= t < Z.of_nat (length (points obj)))
                                  face)
                     (faces obj)
     end.
Proof.
  assert (Hp : 0 <= 28) by lia.
  assert (H : parse_split sample_binmesh 0 sample_native 28 = Ok sample_split 108)
    by (vm_compute; reflexivity).
  split; [exact Hp|]. split; [exact H|].
  exact (proj1 (mesh_object_of_split sample_binmesh 0 sample_native 28 108
                  sample_split MeshNames.mesh_suffix Hp H)).
Defined.

(** ** [struct]: four bytes and the integer they stand for *)

Lemma byte_of_Z_val (b : byte) (r : Z) : byte_of_Z (byte_val b + 256 * r) = b.
Proof.
  unfold byte_of_Z.
  replace ((byte_val b + 256 * r) mod 256) with (byte_val b).
  - unfold byte_val. rewrite N2Z.id, Byte.of_to_N. reflexivity.
  - pose proof (byte_val_bound b).
    rewrite (Z.mul_comm 256 r), Z.mod_add by lia.
    symmetry. apply Z.mod_small. lia.
Qed.

Lemma le_bytes_le_value (bs : list byte) :
  forall r, le_bytes (length bs) (le_value bs + 256 ^ Z.of_nat (length bs) * r) = bs.
Proof.
  induction bs as [|b bs IH]; intros r; [reflexivity|].
  cbn [length le_bytes le_value].
  rewrite Nat2Z.inj_succ, Z.pow_succ_r by lia.
  replace (byte_val b + 256 * le_value bs + 256 * 256 ^ Z.of_nat (length bs) * r)
    with (byte_val b + 256 * (le_value bs + 256 ^ Z.of_nat (length bs) * r))
    by ring.
  rewrite byte_of_Z_val. f_equal.
  replace ((byte_val b + 256 * (le_value bs + 256 ^ Z.of_nat (length bs) * r)) / 256)
    with (le_value bs + 256 ^ Z.of_nat (length bs) * r).
  - apply IH.
  - pose proof (byte_val_bound b).
    rewrite (Z.mul_comm 256), Z.div_add by lia.
    rewrite Z.div_small by lia. lia.
Qed.

Lemma le_value_bound (bs : list byte) :
  0 <= le_value bs < 256 ^ Z.of_nat (length bs).
Proof.
  induction bs as [|b bs IH]; cbn [le_value length]; [simpl; lia|].
  rewrite Nat2Z.inj_succ, Z.pow_succ_r by lia.
  pose proof (byte_val_bound b). lia.
Qed.

Lemma le_bytes_length (n : nat) (v : Z) : length (le_bytes n v) = n.
Proof. revert v. induction n; intros v; simpl; auto. Qed.

Lemma to_signed_32_mod (v : Z) :
  - 2 ^ 31 <= v < 2 ^ 31 -> to_signed 32 (v mod 2 ^ 32) = v.
Proof.
  intros Hv. unfold to_signed. change (32 - 1) with 31.
  destruct (Z.le_gt_cases 0 v).
  - rewrite Z.mod_small by lia.
    destruct (v <? 2 ^ 31) eqn:E; [reflexivity | apply Z.ltb_ge in E; lia].
  - replace (v mod 2 ^ 32) with (v + 2 ^ 32).
    + destruct (v + 2 ^ 32 <? 2 ^ 31) eqn:E; [apply Z.ltb_lt in E; lia | lia].
    + symmetry. rewrite <- (Z.mod_add v 1 (2 ^ 32)) by lia.
      rewrite Z.mul_1_l. apply Z.mod_small. lia.
Qed.

Lemma unpack_pack_i32 (v : Z) (pattern : list byte) :
  pack_i32 endian v = Some pattern -> unpack endian true 4 pattern = Some v.
Proof.
  unfold pack_i32, endian.
  destruct (- 2 ^ 31 <=? v) eqn:E1; [|discriminate].
  destruct (v <? 2 ^ 31) eqn:E2; [|discriminate].
  apply Z.leb_le in E1. apply Z.ltb_lt in E2.
  cbn [andb]. intros H.
  assert (Hpat : pattern = le_bytes 4 (v mod 2 ^ 32)) by congruence.
  clear H. subst pattern.
  unfold unpack. rewrite le_bytes_length. cbn [Nat.eqb].
  unfold unsigned_value. rewrite le_value_le_bytes.
  change (256 ^ Z.of_nat 4) with (2 ^ 32). change (8 * Z.of_nat 4) with 32.
  rewrite Z.mod_mod by lia. rewrite to_signed_32_mod by lia. reflexivity.
Qed.

(** X4.  [struct.pack] and [struct.unpack] with the format "<i" are inverse
    to each other: a packed integer unpacks to itself, the integer unpacked
    from four bytes fits the format and packs to the same four bytes, and an
    integer outside the signed 32-bit range is refused. *)
Theorem struct_i32_round_trip :
  (forall v pattern,
      pack_i32 endian v = Some pattern ->
      length pattern = 4%nat /\ unpack endian true 4 pattern = Some v)
  /\ (forall b0 b1 b2 b3,
         exists v, unpack endian true 4 [b0; b1; b2; b3] = Some v
                   /\ - 2 ^ 31 <= v < 2 ^ 31
                   /\ pack_i32 endian v = Some [b0; b1; b2; b3])
  /\ (forall v, pack_i32 endian v = None <-> ~ (- 2 ^ 31 <= v < 2 ^ 31)).
Proof.
  split; [|split].
  - intros v pattern H. split; [eapply pack_i32_length; eauto|].
    apply unpack_pack_i32. exact H.
  - intros b0 b1 b2 b3. eexists. split; [reflexivity|].
    cbn [unsigned_value endian]. change (8 * Z.of_nat 4) with 32.
    pose proof (le_value_bound [b0; b1; b2; b3]) as Hb.
    change (256 ^ Z.of_nat (length [b0; b1; b2; b3])) with (2 ^ 32) in Hb.
    set (u := le_value [b0; b1; b2; b3]) in *.
    assert (Hs : - 2 ^ 31 <= to_signed 32 u < 2 ^ 31
                 /\ to_signed 32 u mod 2 ^ 32 = u).
    { unfold to_signed. change (32 - 1) with 31.
      destruct (u <? 2 ^ 31) eqn:E.
      - apply Z.ltb_lt in E. split; [lia|]. apply Z.mod_small. lia.
      - apply Z.ltb_ge in E. split; [lia|].
        rewrite <- (Z.mod_add (u - 2 ^ 32) 1 (2 ^ 32)) by lia.
        rewrite Z.mul_1_l. replace (u - 2 ^ 32 + 2 ^ 32) with u by lia.
        apply Z.mod_small. lia. }
    destruct Hs as [Hr Hm]. split; [exact Hr|].
    unfold pack_i32.
    destruct (- 2 ^ 31 <=? to_signed 32 u) eqn:E1;
      [|apply Z.leb_gt in E1; lia].
    destruct (to_signed 32 u <? 2 ^ 31) eqn:E2;
      [|apply Z.ltb_ge in E2; lia].
    cbn [andb]. rewrite Hm. f_equal.
    pose proof (le_bytes_le_value [b0; b1; b2; b3] 0) as Hle.
    rewrite Z.mul_0_r, Z.add_0_r in Hle. exact Hle.
  - intros v. unfold pack_i32.
    destruct (- 2 ^ 31 <=? v) eqn:E1; destruct (v <? 2 ^ 31) eqn:E2;
      cbn [andb];
      try apply Z.leb_le in E1; try apply Z.leb_gt in E1;
      try apply Z.ltb_lt in E2; try apply Z.ltb_ge in E2;
      split; intros H; try discriminate; try lia; try reflexivity.
Qed.

Lemma struct_i32_round_trip_witness :
  pack_i32 endian (-2) = Some [xfe; xff; xff; xff]
  /\ length [xfe; xff; xff; xff] = 4%nat
  /\ unpack endian true 4 [xfe; xff; xff; xff] = Some (-2).
Proof.
  assert (H : pack_i32 endian (-2) = Some [xfe; xff; xff; xff])
    by (vm_compute; reflexivity).
  split; [exact H|].
  exact (proj1 struct_i32_round_trip (-2) _ H).
Defined.

(** ** Where the locator points *)

Lemma length_4_inv {A} (l : list A) :
  length l = 4%nat -> exists a b c d, l = [a; b; c; d].
Proof.
  destruct l as [|a [|b [|c [|d [|e l]]]]]; try discriminate. eauto.
Qed.

Lemma unpack_i32_injective (bs bs' : list byte) (v : Z) :
  unpack endian true 4 bs = Some v -> unpack endian true 4 bs' = Some v ->
  bs = bs'.
Proof.
  intros H H'.
  assert (Hl : length bs = 4%nat)
    by (apply (unpack_Some_iff endian true); eauto).
  assert (Hl' : length bs' = 4%nat)
    by (apply (unpack_Some_iff endian true); eauto).
  unfold unpack in H, H'. rewrite Hl in H. rewrite Hl' in H'.
  cbn [Nat.eqb] in H, H'. cbn [unsigned_value endian] in H, H'.
  change (8 * Z.of_nat 4) with 32 in H, H'.
  pose proof (le_value_bound bs) as Hb. pose proof (le_value_bound bs') as Hb'.
  rewrite Hl in Hb. rewrite Hl' in Hb'.
  change (256 ^ Z.of_nat 4) with (2 ^ 32) in Hb, Hb'.
  assert (Heq : le_value bs = le_value bs').
  { injection H as H. injection H' as H'. unfold to_signed in H, H'.
    change (32 - 1) with 31 in H, H'.
    destruct (le_value bs <? 2 ^ 31) eqn:E; destruct (le_value bs' <? 2 ^ 31) eqn:E';
      try apply Z.ltb_lt in E; try apply Z.ltb_ge in E;
      try apply Z.ltb_lt in E'; try apply Z.ltb_ge in E'; lia. }
  pose proof (le_bytes_le_value bs 0) as R. pose proof (le_bytes_le_value bs' 0) as R'.
  rewrite Z.mul_0_r, Z.add_0_r in R, R'. rewrite Hl in R. rewrite Hl' in R'.
  rewrite <- R, <- R', Heq. reflexivity.
Qed.

Lemma slice_of_occurrence (pre pattern post : list byte) :
  slice (pre ++ pattern ++ post) (len pre) (length pattern) = pattern.
Proof.
  unfold slice. rewrite skipn_len_app, firstn_app, Nat.sub_diag, firstn_all.
  simpl. apply app_nil_r.
Qed.

(** The pattern of an identifier occurs at an offset exactly when the
    word of the file at that offset is the identifier. *)
Lemma occurs_at_iff_word (f pattern : list byte) (id o : Z) :
  pack_i32 endian id = Some pattern ->
  (occurs_at f pattern o <-> 0 <= o /\ word_at f o = Some id).
Proof.
  intros Hp. pose proof (pack_i32_length _ _ _ Hp) as Hlen.
  pose proof (unpack_pack_i32 _ _ Hp) as Hun. split.
  - intros (pre & post & -> & <-). split; [apply len_nonneg|].
    unfold word_at.
    replace (slice (pre ++ pattern ++ post) (len pre) 4) with pattern;
      [exact Hun|].
    rewrite <- Hlen. symmetry. apply slice_of_occurrence.
  - intros [Ho Hw]. unfold word_at in Hw.
    assert (Hs : slice f o 4 = pattern)
      by (eapply unpack_i32_injective; eauto).
    pose proof (word_at_Some_bound f o id Ho Hw) as Hb.
    exists (firstn (Z.to_nat o) f), (skipn 4 (skipn (Z.to_nat o) f)).
    split.
    + rewrite <- Hs. unfold slice. rewrite firstn_skipn, firstn_skipn.
      reflexivity.
    + unfold len in *. rewrite length_firstn. lia.
Qed.

Lemma find_chunk_positions_run (f : file) (p0 target_id : Z) :
  - 2 ^ 31 <= target_id < 2 ^ 31 ->
  exists pattern matches,
    pack_i32 endian target_id = Some pattern
    /\ find_chunk_positions target_id f p0 = Ok matches (len f)
    /\ scan f pattern 0 matches.
Proof.
  intros Hid.
  destruct (pack_i32 endian target_id) as [pattern|] eqn:Hp.
  2:{ unfold pack_i32 in Hp.
      destruct (- 2 ^ 31 <=? target_id) eqn:E1;
        destruct (target_id <? 2 ^ 31) eqn:E2; simpl in Hp; try discriminate;
        lia. }
  pose proof (pack_i32_length _ _ _ Hp) as Hlen.
  destruct (find_loop_scan f pattern Hlen (S (length f)) 0 [])
    as (l & Hl & Hscan); try lia.
  { unfold len. lia. }
  exists pattern, l. split; [reflexivity|]. split; [|exact Hscan].
  rewrite find_chunk_positions_eq, Hp, Hl. reflexivity.
Qed.

Lemma scan_spaced (f pattern : list byte) (start : Z) (l : list Z) :
  length pattern = 4%nat ->
  scan f pattern start l ->
  0 <= start ->
  (forall front a b back, l = front ++ a :: b :: back -> a + 4 <= b)
  /\ start + 4 * Z.of_nat (length l) <= Z.max start (len f).
Proof.
  intros Hpat. induction 1 as [start Hno | start k rest Hle Hocc Hno Hs IH];
    intros Hstart.
  - split; [intros [|? ?] ? ? ? E; discriminate | simpl; lia].
  - destruct IH as [IHa IHb]; [lia|].
    pose proof (occurs_at_bounds _ _ _ Hocc) as [_ Hk].
    unfold len at 1 in Hk. rewrite Hpat in Hk.
    split.
    + intros [|x front] a b back E; simpl in E; injection E as <- E.
      * subst rest. inversion Hs; subst. lia.
      * eapply IHa. exact E.
    + cbn [length]. lia.
Qed.

(** X5.  Every offset the locator returns is inside the file with the four
    bytes after it, and the word read there by [read_i32] -- the
    [section_id] of the two parsers -- is the identifier that was looked
    for. *)
Theorem located_offsets_hold_the_identifier
        (f : file) (p0 q target_id : Z) (matches : list Z) :
  - 2 ^ 31 <= target_id < 2 ^ 31 ->
  find_chunk_positions target_id f p0 = Ok matches q ->
  forall k, In k matches ->
            0 <= k /\ k + 4 <= len f
            /\ forall s, read_i32 s f k = Ok target_id (k + 4).
Proof.
  intros Hid H k Hk.
  destruct (find_chunk_positions_run f p0 target_id Hid)
    as (pattern & l & Hp & Hrun & Hscan).
  rewrite Hrun in H. injection H as <- _.
  destruct (scan_ascending _ _ _ _ Hscan) as [_ Hin].
  destruct (Hin k Hk) as [Hk0 Hocc].
  apply (occurs_at_iff_word f pattern target_id k Hp) in Hocc.
  destruct Hocc as [_ Hw].
  split; [exact Hk0|]. split; [eapply word_at_Some_bound; eauto|].
  intros s. apply read_i32_word. exact Hw.
Qed.

(** X6.  The first offset the locator returns is the lowest offset of the
    file whose word is the identifier, and it returns one whenever there is
    such an offset; two successive offsets are at least four bytes apart,
    so there are at most len / 4 of them. *)
Theorem located_offsets_first_and_apart
        (f : file) (p0 q target_id : Z) (matches : list Z) :
  - 2 ^ 31 <= target_id < 2 ^ 31 ->
  find_chunk_positions target_id f p0 = Ok matches q ->
  (forall k rest, matches = k :: rest ->
                  word_at f k = Some target_id
                  /\ forall o, 0 <= o < k -> word_at f o <> Some target_id)
  /\ (matches = [] <-> forall o, 0 <= o -> word_at f o <> Some target_id)
  /\ (forall front a b back, matches = front ++ a :: b :: back -> a + 4 <= b)
  /\ 4 * Z.of_nat (length matches) <= len f.
Proof.
  intros Hid H.
  destruct (find_chunk_positions_run f p0 target_id Hid)
    as (pattern & l & Hp & Hrun & Hscan).
  rewrite Hrun in H. injection H as <- _.
  pose proof (pack_i32_length _ _ _ Hp) as Hlen.
  pose proof (occurs_at_iff_word f pattern target_id) as Hiff.
  split; [|split; [|split]].
  - intros k rest ->. inversion Hscan as [|? ? ? Hk Hocc Hno Hrest]; subst.
    split.
    + apply (Hiff k Hp) in Hocc. tauto.
    + intros o Ho Hw. apply (Hno o Ho). apply (Hiff o Hp). split; [lia|exact Hw].
  - split.
    + intros -> o Ho Hw. inversion Hscan as [? Hno|]; subst.
      apply (Hno o Ho). apply (Hiff o Hp). auto.
    + intros Hno. destruct l as [|k rest]; [reflexivity|].
      inversion Hscan as [|? ? ? Hk Hocc _ _]; subst.
      apply (Hiff k Hp) in Hocc. destruct Hocc as [Hk0 Hw].
      exfalso. exact (Hno k Hk0 Hw).
  - apply (scan_spaced f pattern 0 l Hlen Hscan). lia.
  - destruct (scan_spaced f pattern 0 l Hlen Hscan) as [_ Hb]; [lia|].
    pose proof (len_nonneg f). lia.
Qed.

Lemma located_offsets_hold_the_identifier_witness :
  - 2 ^ 31 <= NATIVE_DATA_PLG_ID < 2 ^ 31
  /\ find_chunk_positions NATIVE_DATA_PLG_ID sample_dff 0 = Ok [32] 140
  /\ forall k, In k [32] ->
               0 <= k /\ k + 4 <= len sample_dff
               /\ forall s, read_i32 s sample_dff k = Ok NATIVE_DATA_PLG_ID (k + 4).
Proof.
  assert (Hid : - 2 ^ 31 <= NATIVE_DATA_PLG_ID < 2 ^ 31)
    by (unfold NATIVE_DATA_PLG_ID; lia).
  assert (H : find_chunk_positions NATIVE_DATA_PLG_ID sample_dff 0 = Ok [32] 140)
    by (vm_compute; reflexivity).
  split; [exact Hid|]. split; [exact H|].
  exact (located_offsets_hold_the_identifier sample_dff 0 140 _ _ Hid H).
Defined.

Lemma located_offsets_first_and_apart_witness :
  - 2 ^ 31 <= 0 < 2 ^ 31
  /\ find_chunk_positions 0 (words [0; 0] ++ halves [0]) 0 = Ok [0; 4] 10
  /\ (forall front a b back, [0; 4] = front ++ a :: b :: back -> a + 4 <= b)
  /\ 4 * Z.of_nat (length [0; 4]) <= len (words [0; 0] ++ halves [0]).
Proof.
  assert (Hid : - 2 ^ 31 <= 0 < 2 ^ 31) by lia.
  assert (H : find_chunk_positions 0 (words [0; 0] ++ halves [0]) 0
              = Ok [0; 4] 10)
    by (vm_compute; reflexivity).
  split; [exact Hid|]. split; [exact H|].
  exact (proj2 (proj2 (located_offsets_first_and_apart
                         (words [0; 0] ++ halves [0]) 0 10 0 _ Hid H))).
Defined.

(** ** The reads of [BR] *)

Lemma to_signed_range (bits v : Z) :
  0 < bits -> 0 <= v < 2 ^ bits ->
  - 2 ^ (bits - 1) <= to_signed bits v < 2 ^ (bits - 1).
Proof.
  intros Hb Hv. unfold to_signed.
  assert (H2 : 2 ^ bits = 2 * 2 ^ (bits - 1)).
  { replace bits with (Z.succ (bits - 1)) at 1 by lia.
    apply Z.pow_succ_r. lia. }
  destruct (v <? 2 ^ (bits - 1)) eqn:E;
    [apply Z.ltb_lt in E | apply Z.ltb_ge in E]; lia.
Qed.

(** X7.  A fixed-width read of [n] bytes that succeeds has moved the cursor
    by [n], inside the file, and its value fits the width: within
    -2^(8n-1) .. 2^(8n-1)-1 for a signed format, within 0 .. 2^(8n)-1 for an
    unsigned one.  A read that fails is a [struct.error], happens exactly
    when fewer than [n] bytes are left, and has taken what bytes were left:
    the cursor is at the end of the file, or where it was when that was
    beyond the end. *)
Theorem read_int_outcome (s : site) (sg : bool) (n : nat) (f : file) (p : Z) :
  (0 < n)%nat -> 0 <= p ->
  match read_int s sg n f p with
  | Ok v q =>
      q = p + Z.of_nat n /\ q <= len f
      /\ (if sg then - 2 ^ (8 * Z.of_nat n - 1) <= v < 2 ^ (8 * Z.of_nat n - 1)
          else 0 <= v < 2 ^ (8 * Z.of_nat n))
  | Raise e q =>
      e = StructError s /\ len f < p + Z.of_nat n /\ q = Z.max p (len f)
  | OutOfFuel => False
  end.
Proof.
  intros Hn Hp. rewrite read_int_eq.
  pose proof (slice_length f p n Hp) as Hs.
  destruct (unpack endian sg n (slice f p n)) as [v|] eqn:E.
  - assert (Hl : length (slice f p n) = n)
      by (apply (unpack_Some_iff endian sg); eauto).
    split; [reflexivity|]. split; [lia|].
    unfold unpack in E. rewrite Hl, Nat.eqb_refl in E. injection E as <-.
    cbn [unsigned_value endian].
    pose proof (le_value_bound (slice f p n)) as Hb. rewrite Hl in Hb.
    assert (Hpow : 256 ^ Z.of_nat n = 2 ^ (8 * Z.of_nat n)).
    { change 256 with (2 ^ 8). rewrite <- Z.pow_mul_r by lia. reflexivity. }
    rewrite Hpow in Hb.
    destruct sg; [apply to_signed_range; lia | exact Hb].
  - apply unpack_None_iff in E.
    split; [reflexivity|]. split; lia.
Qed.

Lemma read_int_outcome_witness :
  (0 < 2)%nat /\ 0 <= 2
  /\ read_int InTry true 2 (halves [256; -128; 0]) 2 = Ok (-128) 4
  /\ (4 = 2 + Z.of_nat 2 /\ 4 <= len (halves [256; -128; 0])
      /\ - 2 ^ (8 * Z.of_nat 2 - 1) <= -128 < 2 ^ (8 * Z.of_nat 2 - 1)).
Proof.
  assert (Hn : (0 < 2)%nat) by lia.
  assert (Hp : 0 <= 2) by lia.
  assert (H : read_int InTry true 2 (halves [256; -128; 0]) 2 = Ok (-128) 4)
    by (vm_compute; reflexivity).
  split; [exact Hn|]. split; [exact Hp|]. split; [exact H|].
  pose proof (read_int_outcome InTry true 2 (halves [256; -128; 0]) 2 Hn Hp)
    as Hthm.
  rewrite H in Hthm. exact Hthm.
Defined.

(** ** How the mesh-split parser ends *)

Lemma read_mesh_entries_S (count : nat) (sz cnt : Z) (acc : list mesh_entry)
      (f : file) (p : Z) :
  read_mesh_entries (S count) sz cnt acc f p
  = match read_mesh_entry sz cnt f p with
    | Ok m q => read_mesh_entries count sz cnt (acc ++ [m]) f q
    | Raise e q => Raise e q
    | OutOfFuel => OutOfFuel
    end.
Proof. reflexivity. Qed.

Lemma read_mesh_entry_cases (sz cnt : Z) (f : file) (p : Z) :
  0 <= p ->
  (exists m q, read_mesh_entry sz cnt f p = Ok m q /\ p + 8 <= q
               /\ p + 8 <= len f
               /\ (has_explicit_indices sz cnt = false ->
                   q = p + 8 /\ VertexIndices m = None))
  \/ (exists q, read_mesh_entry sz cnt f p = Raise (StructError InBinMeshSplit) q
                /\ len f < p + 8).
Proof.
  intros Hp. remember (read_mesh_entry sz cnt f p) as r eqn:Hr.
  unfold read_mesh_entry in Hr.
  unfold bind at 1 in Hr. rewrite read_i32_eq in Hr.
  destruct (word_at f p) as [ic|] eqn:E0.
  2:{ right. eexists. split; [exact Hr|]. apply word_at_None_iff in E0; lia. }
  unfold bind at 1 in Hr. rewrite read_i32_eq in Hr.
  destruct (word_at f (p + 4)) as [mi|] eqn:E1.
  2:{ right. eexists. split; [exact Hr|]. apply word_at_None_iff in E1; lia. }
  apply word_at_Some_bound in E1; [|lia].
  left. destruct (has_explicit_indices sz cnt).
  - unfold bind in Hr.
    destruct (read_indices_spec f (Z.to_nat ic) [] (p + 4 + 4))
      as (l & p' & Hl & Hle & _); [lia|].
    rewrite Hl in Hr. unfold ret in Hr.
    eexists. eexists. split; [exact Hr|].
    split; [lia|]. split; [lia|]. discriminate.
  - unfold ret in Hr. eexists. eexists. split; [exact Hr|].
    split; [lia|]. split; [lia|]. intros _. split; [lia | reflexivity].
Qed.

Lemma read_mesh_entries_run (sz cnt : Z) (f : file) (count : nat) :
  forall acc p,
    0 <= p ->
    (exists ms pf, read_mesh_entries count sz cnt acc f p = Ok ms pf /\ p <= pf)
    \/ (exists q, read_mesh_entries count sz cnt acc f p
                  = Raise (StructError InBinMeshSplit) q).
Proof.
  induction count as [|count IH]; intros acc p Hp.
  - left. exists acc, p. split; [reflexivity | lia].
  - rewrite read_mesh_entries_S.
    destruct (read_mesh_entry_cases sz cnt f p Hp)
      as [(m & q & -> & Hq & _) | (q & -> & _)].
    + destruct (IH (acc ++ [m]) q) as [(ms & pf & -> & Hpf) | (q' & ->)]; [lia| |].
      * left. exists ms, pf. split; [reflexivity | lia].
      * right. exists q'. reflexivity.
    + right. exists q. reflexivity.
Qed.

Lemma parse_binmesh_plg_cases (offset : Z) (f : file) (p0 : Z) :
  0 <= offset ->
  let r := parse_binmesh_plg offset f p0 in
  (exists q, r = Raise (StructError InBinMeshHeader) q
             /\ (len f < offset + 12
                 \/ exists sz, word_at f (offset + 4) = Some sz /\ sz <> 12
                               /\ len f < offset + 24))
  \/ (word_at f (offset + 4) = Some 12 /\ offset + 12 <= len f
      /\ r = Ok (mkBinMesh 0 [] None None) (offset + 12))
  \/ (exists sz count,
         word_at f (offset + 4) = Some sz /\ sz <> 12
         /\ word_at f (offset + 16) = Some count
         /\ offset + 24 <= len f
         /\ r = match read_mesh_entries (Z.to_nat count) sz count [] f
                                        (offset + 24) with
                | Ok ms q => Ok (mkBinMesh count ms (Some sz) (Some offset)) q
                | Raise e q => Raise e q
                | OutOfFuel => OutOfFuel
                end).
Proof.
  intros Hoff r. subst r.
  remember (parse_binmesh_plg offset f p0) as r eqn:Hr.
  unfold parse_binmesh_plg in Hr.
  unfold bind at 1 in Hr. rewrite seek_set_eq in Hr by assumption.
  unfold bind at 1 in Hr. rewrite read_i32_eq in Hr.
  destruct (word_at f offset) as [sid|] eqn:E0.
  2:{ left. eexists. split; [exact Hr|]. apply word_at_None_iff in E0; lia. }
  unfold bind at 1 in Hr. rewrite read_i32_eq in Hr.
  destruct (word_at f (offset + 4)) as [sz|] eqn:E1.
  2:{ left. eexists. split; [exact Hr|]. apply word_at_None_iff in E1; lia. }
  unfold bind at 1 in Hr. rewrite read_i32_eq in Hr.
  destruct (word_at f (offset + 4 + 4)) as [ver|] eqn:E2.
  2:{ left. eexists. split; [exact Hr|]. apply word_at_None_iff in E2; lia. }
  apply word_at_Some_bound in E2; [|lia].
  unfold bind at 1 in Hr. unfold pos at 1 in Hr.
  destruct (sz =? 12) eqn:E12.
  { apply Z.eqb_eq in E12. subst sz. right. left.
    split; [reflexivity|]. split; [lia|].
    unfold ret in Hr. replace (offset + 4 + 4 + 4) with (offset + 12) in Hr by lia.
    exact Hr. }
  apply Z.eqb_neq in E12.
  unfold bind at 1 in Hr. rewrite read_i32_eq in Hr.
  destruct (word_at f (offset + 4 + 4 + 4)) as [ft|] eqn:E3.
  2:{ left. eexists. split; [exact Hr|]. right. exists sz.
      apply word_at_None_iff in E3; [|lia]. repeat split; try assumption; lia. }
  unfold bind at 1 in Hr. rewrite read_i32_eq in Hr.
  replace (offset + 4 + 4 + 4 + 4) with (offset + 16) in * by lia.
  destruct (word_at f (offset + 16)) as [count|] eqn:E4.
  2:{ left. eexists. split; [exact Hr|]. right. exists sz.
      apply word_at_None_iff in E4; [|lia]. repeat split; try assumption; lia. }
  unfold bind at 1 in Hr. rewrite read_i32_eq in Hr.
  destruct (word_at f (offset + 16 + 4)) as [tf|] eqn:E5.
  2:{ left. eexists. split; [exact Hr|]. right. exists sz.
      apply word_at_None_iff in E5; [|lia]. repeat split; try assumption; lia. }
  apply word_at_Some_bound in E5; [|lia].
  replace (offset + 16 + 4 + 4) with (offset + 24) in * by lia.
  right. right. exists sz, count.
  split; [reflexivity|]. split; [exact E12|]. split; [reflexivity|].
  split; [lia|].
  unfold bind in Hr. rewrite Hr.
  destruct (read_mesh_entries (Z.to_nat count) sz count [] f (offset + 24));
    reflexivity.
Qed.

(** X8.  The mesh-split parser ends in one of four ways: with a header; with
    the refusal of a negative offset, the cursor not moved; with the
    [struct.error] of a header word, when the file has fewer than 12 bytes
    from the offset, or fewer than 24 while the declared size is not 12;
    or, the 24 header bytes read, with the [struct.error] of the two words
    of a split.  A short read inside an index list is none of them. *)
Theorem parse_binmesh_plg_outcomes (offset : Z) (f : file) (p0 : Z) :
  match parse_binmesh_plg offset f p0 with
  | Ok bm pf => 0 <= offset /\ offset + 12 <= pf
  | Raise SeekError q => offset < 0 /\ q = p0
  | Raise (StructError InBinMeshHeader) _ =>
      0 <= offset
      /\ (len f < offset + 12
          \/ exists sz, word_at f (offset + 4) = Some sz /\ sz <> 12
                        /\ len f < offset + 24)
  | Raise (StructError InBinMeshSplit) _ => 0 <= offset /\ offset + 24 <= len f
  | Raise _ _ => False
  | OutOfFuel => False
  end.
Proof.
  destruct (Z.lt_ge_cases offset 0) as [Hneg | Hoff].
  - unfold parse_binmesh_plg, bind at 1, seek_set.
    destruct (offset <? 0) eqn:E; [|apply Z.ltb_ge in E; lia].
    split; [exact Hneg | reflexivity].
  - pose proof (parse_binmesh_plg_cases offset f p0 Hoff) as Hc.
    cbv zeta in Hc.
    destruct Hc as [(q & -> & Hlen)
                   | [(Hsz & Hlen & ->)
                     | (sz & count & Hsz & Hne & Hcount & Hlen & ->)]].
    + split; assumption.
    + split; lia.
    + destruct (read_mesh_entries_run sz count f (Z.to_nat count) []
                                      (offset + 24) ltac:(lia))
        as [(ms & pf & -> & Hpf) | (q & ->)].
      * split; lia.
      * split; assumption.
Qed.

Lemma read_mesh_entries_plain (sz cnt : Z) (f : file) (count : nat) :
  has_explicit_indices sz cnt = false ->
  forall acc p,
    0 <= p <= len f ->
    (p + 8 * Z.of_nat count <= len f
     /\ exists ms, read_mesh_entries count sz cnt acc f p
                   = Ok (acc ++ ms) (p + 8 * Z.of_nat count)
                   /\ length ms = count)
    \/ (len f < p + 8 * Z.of_nat count
        /\ exists q, read_mesh_entries count sz cnt acc f p
                     = Raise (StructError InBinMeshSplit) q).
Proof.
  intros Hplain. induction count as [|count IH]; intros acc p Hp.
  - left. split; [lia|]. exists []. simpl. unfold ret.
    rewrite app_nil_r, Z.add_0_r. auto.
  - rewrite read_mesh_entries_S.
    destruct (read_mesh_entry_cases sz cnt f p ltac:(lia))
      as [(m & q & -> & _ & Hlen & Hq) | (q & -> & Hlen)].
    + destruct (Hq Hplain) as [-> _].
      destruct (IH (acc ++ [m]) (p + 8) ltac:(lia))
        as [(Hfit & ms & -> & Hms) | (Hshort & q' & ->)].
      * left. split; [lia|]. exists (m :: ms). rewrite <- app_assoc.
        split; [f_equal; lia | simpl; lia].
      * right. split; [lia|]. exists q'. reflexivity.
    + right. split; [lia|]. exists q. reflexivity.
Qed.

Lemma laid_out_plain_nth (f : file) (ms : list mesh_entry) :
  forall p, laid_out f false p ms ->
            forall k m,
              nth_error ms k = Some m ->
              word_at f (p + 8 * Z.of_nat k) = Some (iIndexCount m)
              /\ word_at f (p + 4 + 8 * Z.of_nat k) = Some (iMaterialIndex m)
              /\ VertexIndices m = None.
Proof.
  induction ms as [|m0 ms IH]; intros p H k m Hk; [destruct k; discriminate|].
  cbn [laid_out] in H. destruct H as (Hc & Hm & H).
  destruct (VertexIndices m0) eqn:Ev; [contradiction|].
  destruct k as [|k].
  - injection Hk as <-. rewrite Z.mul_0_r, !Z.add_0_r. auto.
  - cbn [nth_error] in Hk.
    destruct (IH (p + 8) H k m Hk) as (H1 & H2 & H3).
    rewrite Nat2Z.inj_succ.
    replace (p + 8 * Z.succ (Z.of_nat k)) with (p + 8 + 8 * Z.of_nat k) by lia.
    replace (p + 4 + 8 * Z.succ (Z.of_nat k))
      with (p + 8 + 4 + 8 * Z.of_nat k) by lia.
    auto.
Qed.

(** X9.  A header whose declared size is 12 + 8 * iMaterialSplitCount (and
    not 12) is returned exactly when the file holds its 24 bytes and the 8
    bytes of each of its splits; the cursor then stands right after them,
    and the header has one entry for each split, without an index list:
    the entry of the k-th split has the two words at 24 + 8k and 28 + 8k
    from the offset as its index count and its material index, and no
    ["VertexIndices"]. *)
Theorem plain_header_needs_its_bytes
        (f : file) (offset p0 sz count : Z) :
  0 <= offset ->
  word_at f (offset + 4) = Some sz -> sz <> 12 ->
  word_at f (offset + 16) = Some count ->
  sz = 12 + 8 * count ->
  let size := 24 + 8 * Z.max 0 count in
  (offset + size <= len f ->
   exists ms, parse_binmesh_plg offset f p0
              = Ok (mkBinMesh count ms (Some sz) (Some offset)) (offset + size)
              /\ Z.of_nat (length ms) = Z.max 0 count
              /\ Forall (fun m => VertexIndices m = None) ms
              /\ forall k m,
                  nth_error ms k = Some m ->
                  word_at f (offset + 24 + 8 * Z.of_nat k)
                  = Some (iIndexCount m)
                  /\ word_at f (offset + 28 + 8 * Z.of_nat k)
                     = Some (iMaterialIndex m)
                  /\ VertexIndices m = None)
  /\ (len f < offset + size ->
      exists q s, parse_binmesh_plg offset f p0 = Raise (StructError s) q).
Proof.
  intros Hoff Hsz Hne Hcount Hplain size.
  assert (Hex : has_explicit_indices sz count = false).
  { unfold has_explicit_indices. rewrite Hplain, Z.eqb_refl. reflexivity. }
  pose proof (parse_binmesh_plg_cases offset f p0 Hoff) as Hc. cbv zeta in Hc.
  destruct Hc as [(q & Hr & Hlen)
                 | [(Hsz' & _)
                   | (sz' & count' & Hsz' & _ & Hcount' & Hlen & Hr)]].
  - split.
    + intros Hfit. exfalso. unfold size in Hfit.
      destruct Hlen as [Hlen | (sz' & _ & _ & Hlen)]; lia.
    + intros _. eauto.
  - congruence.
  - assert (sz' = sz) by congruence. assert (count' = count) by congruence.
    subst sz' count'.
    destruct (read_mesh_entries_plain sz count f (Z.to_nat count) Hex []
                                      (offset + 24) ltac:(lia))
      as [(Hfit & ms & Hrun & Hms) | (Hshort & q & Hrun)].
    + split.
      * intros _. exists ms. split; [|split; [lia|]].
        { rewrite Hr, Hrun. unfold size. f_equal. lia. }
        destruct (read_mesh_entries_laid_out f sz count (Z.to_nat count) []
                                             (offset + 24) _ _ ltac:(lia) Hrun)
          as (new & Hnew & _ & Hlay).
        cbn [app] in Hnew. subst new. rewrite Hex in Hlay.
        split; [exact (laid_out_absent f ms _ Hlay)|].
        intros k m Hk.
        destruct (laid_out_plain_nth f ms _ Hlay k m Hk) as (H1 & H2 & H3).
        replace (offset + 28 + 8 * Z.of_nat k)
          with (offset + 24 + 4 + 8 * Z.of_nat k) by lia.
        auto.
      * intros Hshort. unfold size in Hshort. lia.
    + rewrite Hrun in Hr. split.
      * intros Hfit. unfold size in Hfit. lia.
      * intros _. eauto.
Qed.

Lemma plain_header_needs_its_bytes_witness :
  0 <= 0
  /\ word_at binmesh_plain (0 + 4) = Some 28 /\ 28 <> 12
  /\ word_at binmesh_plain (0 + 16) = Some 2
  /\ 28 = 12 + 8 * 2
  /\ 0 + (24 + 8 * Z.max 0 2) <= len binmesh_plain
  /\ parse_binmesh_plg 0 binmesh_plain 0
     = Ok (mkBinMesh 2 [mkMeshEntry 5 7 None; mkMeshEntry 4 8 None]
                     (Some 28) (Some 0)) 40
  /\ Forall (fun m => VertexIndices m = None)
            [mkMeshEntry 5 7 None; mkMeshEntry 4 8 None].
Proof.
  assert (H0 : 0 <= 0) by lia.
  assert (Hsz : word_at binmesh_plain (0 + 4) = Some 28)
    by (vm_compute; reflexivity).
  assert (Hne : 28 <> 12) by lia.
  assert (Hc : word_at binmesh_plain (0 + 16) = Some 2)
    by (vm_compute; reflexivity).
  assert (Hp : 28 = 12 + 8 * 2) by lia.
  assert (Hfit : 0 + (24 + 8 * Z.max 0 2) <= len binmesh_plain)
    by (unfold len; simpl; lia).
  assert (Hrun : parse_binmesh_plg 0 binmesh_plain 0
                 = Ok (mkBinMesh 2 [mkMeshEntry 5 7 None; mkMeshEntry 4 8 None]
                                 (Some 28) (Some 0)) 40)
    by (vm_compute; reflexivity).
  repeat (split; [assumption|]).
  destruct (proj1 (plain_header_needs_its_bytes binmesh_plain 0 0 28 2
                     H0 Hsz Hne Hc Hp) Hfit)
    as (ms & Hms & _ & Hnone & _).
  rewrite Hrun in Hms. injection Hms as <-. exact Hnone.
Defined.

(** ** What a result of the decoder says *)

Lemma parse_native_data_plg_Ok_offset (offset : Z) (bm : binmesh) (f : file)
      (p0 pf : Z) (splits : list material_split) :
  parse_native_data_plg offset bm f p0 = Ok splits pf -> 0 <= offset.
Proof.
  intros H. unfold parse_native_data_plg in H.
  apply bind_Ok in H. destruct H as ([] & q0 & Hseek & _).
  apply seek_set_Ok in Hseek. tauto.
Qed.

Lemma splits_material_indices (bm : binmesh) (f : file) (n : nat)
      (splits : list material_split) :
  Forall2 (split_from bm f) (range 0 (Z.of_nat n)) splits ->
  length splits = n
  /\ (n <= length (binMeshes bm))%nat
  /\ map ms_iMaterialIndex splits
     = map iMaterialIndex (firstn n (binMeshes bm)).
Proof.
  intros Hall.
  assert (Hlen : length splits = n).
  { apply Forall2_length in Hall. rewrite range_length in Hall. lia. }
  assert (Hk : forall k ms, nth_error splits k = Some ms ->
                 exists entry, nth_error (binMeshes bm) k = Some entry
                               /\ ms_iMaterialIndex ms = iMaterialIndex entry).
  { intros k ms Hms.
    destruct (Forall2_nth _ _ _ Hall k ms Hms) as (idx & Hidx & Hfrom).
    apply range_nth in Hidx. simpl in Hidx. subst idx.
    destruct (split_from_entry bm f (Z.of_nat k) ms ltac:(lia) Hfrom)
      as (entry & Hn & Hm & _).
    rewrite Nat2Z.id in Hn. eauto. }
  assert (Hn : (n <= length (binMeshes bm))%nat).
  { destruct n as [|n]; [lia|].
    destruct (nth_error splits n) as [ms|] eqn:E.
    - destruct (Hk n ms E) as (entry & He & _).
      assert (nth_error (binMeshes bm) n <> None) by congruence.
      apply nth_error_Some in H. lia.
    - apply nth_error_None in E. lia. }
  split; [exact Hlen|]. split; [exact Hn|].
  apply nth_error_ext. intros k.
  rewrite !nth_error_map, nth_error_firstn.
  destruct (nth_error splits k) as [ms|] eqn:E.
  - destruct (Hk k ms E) as (entry & He & Hm).
    assert (k < n)%nat
      by (rewrite <- Hlen; apply nth_error_Some; congruence).
    destruct (Nat.ltb k n) eqn:El; [|apply Nat.ltb_ge in El; lia].
    rewrite He. simpl. f_equal. exact Hm.
  - apply nth_error_None in E.
    destruct (Nat.ltb k n) eqn:El; [apply Nat.ltb_lt in El; lia | reflexivity].
Qed.

(** X10.  A result of the decoder tells that the offset was not negative
    and the marker word is 0x1, and either the nested size is 4, the result
    is empty and the cursor is after the sixth word, or the platform word is
    0x4 and the result has one split for each index below
    iMaterialSplitCount (none when that is negative), with the material
    indices of the first entries of the header, in their order. *)
Theorem decoder_result_and_header
        (offset : Z) (bm : binmesh) (f : file) (p0 pf : Z)
        (splits : list material_split) :
  parse_native_data_plg offset bm f p0 = Ok splits pf ->
  0 <= offset
  /\ word_at f (offset + 12) = Some STRUCT_ID
  /\ ((word_at f (offset + 16) = Some 4 /\ splits = [] /\ pf = offset + 24)
      \/ (uword_at f (offset + 24) = Some 0x4
          /\ length splits = Z.to_nat (iMaterialSplitCount bm)
          /\ (Z.to_nat (iMaterialSplitCount bm) <= length (binMeshes bm))%nat
          /\ map ms_iMaterialIndex splits
             = map iMaterialIndex
                   (firstn (Z.to_nat (iMaterialSplitCount bm)) (binMeshes bm)))).
Proof.
  intros H. pose proof (parse_native_data_plg_Ok_offset _ _ _ _ _ _ H) as Hoff.
  split; [exact Hoff|].
  pose proof (parse_native_header_cases offset bm f p0 Hoff) as Hc.
  cbv zeta in Hc. rewrite H in Hc.
  destruct Hc as [(q & Hr & _)
                 | [(m & _ & _ & Hr)
                   | [(Hm & Hsz & Hr)
                     | [(sz & v & _ & _ & _ & _ & _ & Hr)
                       | (sz & Hm & Hsz & Hne & Hv & Hlen & Hr)]]]];
    try discriminate.
  - split; [exact Hm|]. left. injection Hr as -> ->. auto.
  - split; [exact Hm|]. right. split; [exact Hv|].
    symmetry in Hr. apply parse_splits_Ok in Hr; [|lia].
    destruct Hr as (new & -> & Hall). cbn [app] in *.
    destruct (Z.le_gt_cases 0 (iMaterialSplitCount bm)) as [Hc | Hc].
    + rewrite <- (Z2Nat.id (iMaterialSplitCount bm)) in Hall by exact Hc.
      apply splits_material_indices in Hall. exact Hall.
    + replace (range 0 (iMaterialSplitCount bm)) with (@nil Z) in Hall.
      2:{ unfold range.
          replace (Z.to_nat (iMaterialSplitCount bm - 0)) with 0%nat by lia.
          reflexivity. }
      inversion Hall; subst.
      replace (Z.to_nat (iMaterialSplitCount bm)) with 0%nat by lia.
      split; [reflexivity|]. split; [lia | reflexivity].
Qed.

Lemma decoder_result_and_header_witness :
  parse_native_data_plg 0 sample_binmesh sample_native 0 = Ok [sample_split] 108
  /\ length [sample_split] = Z.to_nat (iMaterialSplitCount sample_binmesh)
  /\ map ms_iMaterialIndex [sample_split] = [7].
Proof.
  assert (H : parse_native_data_plg 0 sample_binmesh sample_native 0
              = Ok [sample_split] 108)
    by (vm_compute; reflexivity).
  split; [exact H|].
  destruct (decoder_result_and_header 0 sample_binmesh sample_native 0 108 _ H)
    as (_ & _ & [(_ & Hn & _) | (_ & Hl & _ & Hm)]).
  - discriminate.
  - split; [exact Hl | exact Hm].
Defined.

(** X11.  When the marker word is 0x1 and the nested size word is 4, the
    decoder returns the empty list with the cursor after the six words it
    read, whatever the header of the splits and whatever follows in the
    file: the platform word is not looked at. *)
Theorem empty_structure_returns_no_split
        (offset : Z) (bm : binmesh) (f : file) (p0 : Z) :
  0 <= offset -> offset + 24 <= len f ->
  word_at f (offset + 12) = Some STRUCT_ID ->
  word_at f (offset + 16) = Some 4 ->
  parse_native_data_plg offset bm f p0 = Ok [] (offset + 24)
  /\ forall rest bm' p1,
      parse_native_data_plg offset bm'
                            (firstn (Z.to_nat (offset + 24)) f ++ rest) p1
      = Ok [] (offset + 24).
Proof.
  assert (main : forall g b p, 0 <= offset -> offset + 24 <= len g ->
                   word_at g (offset + 12) = Some STRUCT_ID ->
                   word_at g (offset + 16) = Some 4 ->
                   parse_native_data_plg offset b g p = Ok [] (offset + 24)).
  { intros g b p Hoff Hlen Hm Hsz.
    pose proof (parse_native_header_cases offset b g p Hoff) as Hc.
    cbv zeta in Hc.
    destruct Hc as [(q & Hr & _ & [Hs | Hs])
                   | [(m & Hm' & Hne & Hr)
                     | [(_ & _ & Hr)
                       | [(sz & v & _ & Hsz' & Hne & _)
                         | (sz & _ & Hsz' & Hne & _)]]]];
      try congruence; try lia.
    (* the header was read as far as its sixth word *)
    exfalso. unfold parse_native_data_plg in Hr.
    destruct (word_at_defined g offset) as [w0 H0]; [lia|lia|].
    destruct (word_at_defined g (offset + 4)) as [w1 H1]; [lia|lia|].
    destruct (word_at_defined g (offset + 8)) as [w2 H2]; [lia|lia|].
    destruct (word_at_defined g (offset + 20)) as [w5 H5]; [lia|lia|].
    unfold bind at 1 in Hr. rewrite seek_set_eq in Hr by assumption.
    unfold bind at 1 in Hr. rewrite (read_i32_word _ _ _ _ H0) in Hr.
    unfold bind at 1 in Hr. rewrite (read_i32_word _ _ _ _ H1) in Hr.
    unfold bind at 1 in Hr.
    replace (offset + 4 + 4) with (offset + 8) in Hr by lia.
    rewrite (read_i32_word _ _ _ _ H2) in Hr.
    unfold bind at 1 in Hr.
    replace (offset + 8 + 4) with (offset + 12) in Hr by lia.
    rewrite (read_i32_word _ _ _ _ Hm) in Hr.
    rewrite Z.eqb_refl in Hr. cbn [negb] in Hr.
    unfold bind at 1 in Hr.
    replace (offset + 12 + 4) with (offset + 16) in Hr by lia.
    rewrite (read_i32_word _ _ _ _ Hsz) in Hr.
    unfold bind at 1 in Hr.
    replace (offset + 16 + 4) with (offset + 20) in Hr by lia.
    rewrite (read_i32_word _ _ _ _ H5) in Hr.
    cbn in Hr. discriminate. }
  intros Hoff Hlen Hm Hsz. split; [apply main; assumption|].
  intros rest bm' p1.
  assert (Hpre : forall q, 0 <= q -> q + 4 <= offset + 24 ->
                   word_at (firstn (Z.to_nat (offset + 24)) f ++ rest) q
                   = word_at f q).
  { intros q Hq Hq4. unfold word_at, slice. f_equal.
    rewrite skipn_app, skipn_firstn_comm, length_firstn.
    replace (Z.to_nat q - Nat.min (Z.to_nat (offset + 24)) (length f))%nat
      with 0%nat by (unfold len in *; lia).
    rewrite skipn_O, firstn_app, firstn_firstn.
    replace (Nat.min 4 (Z.to_nat (offset + 24) - Z.to_nat q)) with 4%nat by lia.
    replace (4 - length (firstn (Z.to_nat (offset + 24) - Z.to_nat q)
                                (skipn (Z.to_nat q) f)))%nat with 0%nat.
    - simpl. apply app_nil_r.
    - rewrite length_firstn, length_skipn. unfold len in *. lia. }
  apply main; try assumption.
  - rewrite len_app. unfold len in *. rewrite length_firstn. lia.
  - rewrite Hpre by lia. exact Hm.
  - rewrite Hpre by lia. exact Hsz.
Qed.

Lemma empty_structure_returns_no_split_witness :
  0 <= 0 /\ 0 + 24 <= len (words [NATIVE_DATA_PLG_ID; 16; 7; STRUCT_ID; 4; 7; 99])
  /\ parse_native_data_plg 0 sample_binmesh
       (words [NATIVE_DATA_PLG_ID; 16; 7; STRUCT_ID; 4; 7; 99]) 0
     = Ok [] (0 + 24).
Proof.
  assert (H0 : 0 <= 0) by lia.
  assert (Hl : 0 + 24 <= len (words [NATIVE_DATA_PLG_ID; 16; 7; STRUCT_ID; 4; 7; 99]))
    by (unfold len; simpl; lia).
  split; [exact H0|]. split; [exact Hl|].
  apply (proj1 (empty_structure_returns_no_split
                  0 sample_binmesh
                  (words [NATIVE_DATA_PLG_ID; 16; 7; STRUCT_ID; 4; 7; 99]) 0
                  H0 Hl ltac:(vm_compute; reflexivity)
                  ltac:(vm_compute; reflexivity))).
Defined.

(** ** The walk over the DMA entries *)

Lemma dma_entries_layout (bm : binmesh) (idx : Z) (entry : mesh_entry)
      (f : file) (start dend : Z) :
  (forall g r, list_get (binMeshes bm) idx g r = Ok entry r) ->
  0 <= start ->
  forall fuel ms b p es q,
    0 <= p ->
    dma_entries fuel bm idx start dend ms b f p = Ok es q ->
    entries_from f p es
    /\ (es <> [] -> b = false /\ p + 16 * Z.of_nat (length es) < dend + 16)
    /\ (forall front e back,
           es = front ++ e :: back -> bDMAId e = 0x10 -> back = []).
Proof.
  intros Hentry Hstart.
  induction fuel as [|fuel IH]; intros ms b p es q Hp H; [discriminate|].
  rewrite dma_entries_S in H.
  destruct ((p <? dend) && negb b) eqn:Hcond.
  2:{ injection H as <- _. split; [exact I|].
      split; [congruence|]. intros [|? ?] ? ? E; discriminate. }
  apply andb_true_iff in Hcond. destruct Hcond as [Hlt Hb].
  apply Z.ltb_lt in Hlt. apply negb_true_iff in Hb. subst b.
  destruct (read_dma_entry f p) as [[e|] q1| |] eqn:Hr; try discriminate.
  2:{ injection H as <- _. split; [exact I|].
      split; [congruence|]. intros [|? ?] ? ? E; discriminate. }
  destruct (read_dma_entry_Some f p q1 e Hp Hr) as (-> & Hat & Hoff).
  rewrite (process_dma_entry_eq bm idx entry Hentry f start Hstart e ms false
                                (p + 16) Hoff ltac:(lia)) in H.
  cbn [fst snd] in H.
  destruct (dma_entries fuel bm idx start dend
                        (after_entry f (iIndexCount entry) start ms e)
                        (if bDMAId e =? 0x30 then false
                         else if bDMAId e =? 0x10 then true else false)
                        f (if bDMAId e =? 0x30 then p + 16 + 16 else p + 16))
    as [es' q'| |] eqn:Hrec; try discriminate.
  injection H as <- <-.
  assert (Hp1 : 0 <= (if bDMAId e =? 0x30 then p + 16 + 16 else p + 16))
    by (destruct (bDMAId e =? 0x30); lia).
  destruct (IH _ _ _ _ _ Hp1 Hrec) as (Hlay & Hne & Hmark).
  split; [|split].
  - cbn [entries_from]. split; [exact Hat|].
    replace (p + 32) with (p + 16 + 16) by lia. exact Hlay.
  - intros _. split; [reflexivity|]. cbn [length].
    destruct es' as [|e' es'']; [simpl; lia|].
    destruct (Hne ltac:(discriminate)) as [_ Hb'].
    destruct (bDMAId e =? 0x30); cbn [length] in *; lia.
  - intros [|x front] e0 back E He0; simpl in E; injection E as <- E.
    + subst es'. destruct back as [|e' back']; [reflexivity|].
      destruct (Hne ltac:(discriminate)) as [Hflag _].
      rewrite He0 in Hflag. simpl in Hflag. discriminate.
    + eapply Hmark; eauto.
Qed.

(** X12.  The entries the decoder goes through for a returned split lie in
    the file from lSectionStart on, 16 bytes each, with 16 more bytes
    skipped after every entry of id 0x30; there are at most as many as the
    DMA size word says; an entry of id 0x10 is the last one; and the first
    entry has the DMA size word itself as its offset word. *)
Theorem dma_entries_in_the_file
        (bm : binmesh) (idx : Z) (f : file) (p pf : Z) (ms : material_split) :
  0 <= p ->
  parse_split bm idx f p = Ok ms pf ->
  exists entry dma_words es q,
    uword_at f (p + 12) = Some dma_words
    /\ dma_entries (S (length f)) bm idx (p + 8) (p + 8 + dma_words * 16)
                   (fresh_split entry) false f (p + 8) = Ok es q
    /\ entries_from f (p + 8) es
    /\ Z.of_nat (length es) <= dma_words
    /\ (forall front e back,
           es = front ++ e :: back -> bDMAId e = 0x10 -> back = [])
    /\ (forall e rest, es = e :: rest -> uiDataOffset e = dma_words).
Proof.
  intros Hp H.
  destruct (parse_split_Ok _ _ _ _ _ _ Hp H)
    as (entry & size & words & es & q & Hentry & _ & Hw & Hes & _ & _ & _).
  exists entry, words, es, q.
  split; [exact Hw|]. split; [exact Hes|].
  assert (Hp8 : 0 <= p + 8) by lia.
  destruct (dma_entries_layout bm idx entry f (p + 8) (p + 8 + words * 16)
                               Hentry Hp8 _ _ _ _ _ _ Hp8 Hes)
    as (Hlay & Hne & Hmark).
  split; [exact Hlay|]. split; [|split; [exact Hmark|]].
  - destruct es as [|e es']; [simpl; apply uword_at_nonneg in Hw; lia|].
    destruct (Hne ltac:(discriminate)) as [_ Hb]. lia.
  - intros e rest ->. cbn [entries_from] in Hlay. destruct Hlay as [Hat _].
    unfold entry_at in Hat.
    destruct (unpack endian false 1 (slice f (p + 8 + 3) 1)); [|discriminate].
    replace (p + 8 + 4) with (p + 12) in Hat by lia. rewrite Hw in Hat.
    destruct (uword_at f (p + 8 + 12)); [|discriminate].
    injection Hat as <-. reflexivity.
Qed.

Lemma dma_entries_in_the_file_witness :
  0 <= 28
  /\ parse_split sample_binmesh 0 two_block_native 28
     = Ok (mkSplit 7 (Some five_points_b) strip_of_five true) 188
  /\ exists entry dma_words es q,
      uword_at two_block_native (28 + 12) = Some dma_words
      /\ dma_entries (S (length two_block_native)) sample_binmesh 0 (28 + 8)
                     (28 + 8 + dma_words * 16) (fresh_split entry) false
                     two_block_native (28 + 8) = Ok es q
      /\ entries_from two_block_native (28 + 8) es
      /\ Z.of_nat (length es) <= dma_words
      /\ (forall front e back,
             es = front ++ e :: back -> bDMAId e = 0x10 -> back = [])
      /\ (forall e rest, es = e :: rest -> uiDataOffset e = dma_words).
Proof.
  assert (Hp : 0 <= 28) by lia.
  assert (H : parse_split sample_binmesh 0 two_block_native 28
              = Ok (mkSplit 7 (Some five_points_b) strip_of_five true) 188)
    by (vm_compute; reflexivity).
  split; [exact Hp|]. split; [exact H|].
  exact (dma_entries_in_the_file sample_binmesh 0 two_block_native 28 188 _ Hp H).
Defined.

(** ** What of the header the decoder uses *)

Lemma bind_ext {A B} (m : M A) (k k' : A -> M B) (f : file) (p : Z) :
  (forall a q, k a f q = k' a f q) -> bind m k f p = bind m k' f p.
Proof.
  intros H. unfold bind. destruct (m f p); auto.
Qed.

Lemma list_get_map {A B} (g : A -> B) (l : list A) (i : Z) (f : file) (p : Z) :
  list_get (map g l) i f p
  = match list_get l i f p with
    | Ok a q => Ok (g a) q
    | Raise e q => Raise e q
    | OutOfFuel => OutOfFuel
    end.
Proof.
  unfold list_get. rewrite length_map.
  destruct ((if i <? 0 then i + Z.of_nat (length l) else i) <? 0);
    [reflexivity|].
  rewrite nth_error_map.
  destruct (nth_error l _); reflexivity.
Qed.

Lemma bind_list_get_map {A B C} (g : A -> B) (l : list A) (i : Z)
      (k : B -> M C) (f : file) (p : Z) :
  bind (list_get (map g l) i) k f p
  = bind (list_get l i) (fun a => k (g a)) f p.
Proof.
  unfold bind. rewrite list_get_map.
  destruct (list_get l i f p); reflexivity.
Qed.

Lemma read_vertex_block_forget (bm : binmesh) (idx d : Z) (ms : material_split)
      (f : file) (p : Z) :
  read_vertex_block (forget_indices bm) idx d ms f p
  = read_vertex_block bm idx d ms f p.
Proof.
  unfold read_vertex_block. apply bind_ext. intros oldpos q.
  apply bind_ext. intros [] q1.
  cbn [forget_indices binMeshes]. rewrite bind_list_get_map. reflexivity.
Qed.

Lemma process_dma_entry_forget (bm : binmesh) (idx start : Z) (e : DMAEntry)
      (ms : material_split) (b : bool) (f : file) (p : Z) :
  process_dma_entry (forget_indices bm) idx start e ms b f p
  = process_dma_entry bm idx start e ms b f p.
Proof.
  unfold process_dma_entry.
  destruct (bDMAId e =? 0x30); [|reflexivity].
  destruct (uiDataType e =? DMATAG_VERTEX_4_INT16); [|reflexivity].
  unfold bind at 1. rewrite read_vertex_block_forget. reflexivity.
Qed.

Lemma dma_loop_forget (bm : binmesh) (idx start dend : Z) (f : file)
      (fuel : nat) :
  forall ms b p,
    dma_loop fuel (forget_indices bm) idx start dend ms b f p
    = dma_loop fuel bm idx start dend ms b f p.
Proof.
  induction fuel as [|fuel IH]; intros ms b p; [reflexivity|].
  rewrite !dma_loop_S.
  destruct ((p <? dend) && negb b); [|reflexivity].
  destruct (read_dma_entry f p) as [[e|] q| |]; try reflexivity.
  rewrite process_dma_entry_forget.
  destruct (process_dma_entry bm idx start e ms b f q) as [r q'| |];
    try reflexivity.
  apply IH.
Qed.

Lemma parse_split_forget (bm : binmesh) (idx : Z) (f : file) (p : Z) :
  parse_split (forget_indices bm) idx f p = parse_split bm idx f p.
Proof.
  unfold parse_split.
  apply bind_ext. intros uiSplitSize q0.
  apply bind_ext. intros [] q1.
  apply bind_ext. intros lSectionStart q2.
  apply bind_ext. intros [] q3.
  apply bind_ext. intros dma_words q4.
  apply bind_ext. intros [] q5.
  cbn [forget_indices binMeshes]. rewrite bind_list_get_map.
  apply bind_ext. intros e q6. cbn [iMaterialIndex].
  apply bind_ext. intros fuel q7.
  unfold bind at 1. fold (forget_indices bm). rewrite dma_loop_forget.
  reflexivity.
Qed.

Lemma parse_splits_forget (bm : binmesh) (f : file) (indices : list Z) :
  forall acc p,
    parse_splits indices (forget_indices bm) acc f p
    = parse_splits indices bm acc f p.
Proof.
  induction indices as [|idx indices IH]; intros acc p; [reflexivity|].
  rewrite !parse_splits_cons, parse_split_forget.
  destruct (parse_split bm idx f p); try reflexivity. apply IH.
Qed.

(** X13.  The decoder uses of the header the split count and, for each
    split, the index count and the material index, and nothing else: with
    the explicit index lists, the section size and the section offset
    forgotten it ends in the same way, with the same result. *)
Theorem decoder_ignores_explicit_indices
        (offset : Z) (bm : binmesh) (f : file) (p0 : Z) :
  parse_native_data_plg offset (forget_indices bm) f p0
  = parse_native_data_plg offset bm f p0.
Proof.
  unfold parse_native_data_plg.
  apply bind_ext. intros [] q0.
  apply bind_ext. intros sid q1.
  apply bind_ext. intros sz q2.
  apply bind_ext. intros ver q3.
  apply bind_ext. intros marker q4.
  destruct (negb (marker =? STRUCT_ID)); [reflexivity|].
  apply bind_ext. intros ssz q5.
  apply bind_ext. intros srw q6.
  destruct (ssz =? 4); [reflexivity|].
  apply bind_ext. intros plat q7.
  destruct (negb (plat =? 4)); [reflexivity|].
  cbn [forget_indices iMaterialSplitCount]. apply parse_splits_forget.
Qed.

(** ** [import_dff]: from the file to the splits *)

Lemma find_first (f : file) (p0 target_id : Z) :
  - 2 ^ 31 <= target_id < 2 ^ 31 ->
  (find_chunk_positions target_id f p0 = Ok [] (len f)
   /\ forall o, 0 <= o -> word_at f o <> Some target_id)
  \/ (exists k rest,
         find_chunk_positions target_id f p0 = Ok (k :: rest) (len f)
         /\ 0 <= k /\ word_at f k = Some target_id
         /\ forall o, 0 <= o < k -> word_at f o <> Some target_id).
Proof.
  intros Hid.
  destruct (find_chunk_positions_run f p0 target_id Hid)
    as (pattern & l & Hp & Hrun & Hscan).
  pose proof (occurs_at_iff_word f pattern target_id) as Hiff.
  inversion Hscan as [? Hno | ? k rest Hk Hocc Hno Hrest]; subst.
  - left. split; [exact Hrun|]. intros o Ho Hw.
    apply (Hno o Ho). apply (Hiff o Hp). auto.
  - right. exists k, rest. split; [exact Hrun|].
    apply (Hiff k Hp) in Hocc. destruct Hocc as [Hk0 Hw].
    split; [exact Hk0|]. split; [exact Hw|].
    intros o Ho Hw'. apply (Hno o Ho). apply (Hiff o Hp). split; [lia|exact Hw'].
Qed.

Lemma parse_native_data_plg_total (offset : Z) (bm : binmesh) (f : file) (p0 : Z) :
  0 <= offset -> splits_listed bm ->
  match parse_native_data_plg offset bm f p0 with
  | Ok _ _ => True
  | Raise (StructError s) _ => s <> InTry
  | Raise (MissingStructId _) _ => True
  | Raise (UnsupportedPlatform _) _ => True
  | Raise _ _ => False
  | OutOfFuel => False
  end.
Proof.
  intros Hoff Hlisted.
  pose proof (parse_native_header_cases offset bm f p0 Hoff) as Hc.
  cbv zeta in Hc.
  destruct Hc as [(q & -> & _)
                 | [(m & _ & _ & ->)
                   | [(_ & _ & ->)
                     | [(sz & v & _ & _ & _ & _ & _ & ->)
                       | (sz & _ & _ & _ & _ & Hlen & ->)]]]];
    try exact I; [discriminate|].
  destruct (parse_splits_run bm f (range 0 (iMaterialSplitCount bm))
                             (splits_listed_valid bm Hlisted) []
                             (offset + 28) ltac:(lia))
    as [(res & pf & ->) | [(q & ->) | (q & ->)]];
    try exact I; discriminate.
Qed.

Lemma parse_binmesh_plg_total (offset : Z) (f : file) (p0 : Z) :
  0 <= offset ->
  match parse_binmesh_plg offset f p0 with
  | Ok bm _ => splits_listed bm
  | Raise (StructError s) _ => s <> InTry
  | Raise _ _ => False
  | OutOfFuel => False
  end.
Proof.
  intros Hoff.
  destruct (parse_binmesh_plg offset f p0) as [bm pf|e q|] eqn:E.
  - eapply parse_binmesh_plg_splits_listed. exact E.
  - pose proof (parse_binmesh_plg_cases offset f p0 Hoff) as Hc.
    cbv zeta in Hc. rewrite E in Hc.
    destruct Hc as [(q' & Hr & _)
                   | [(_ & _ & Hr)
                     | (sz & count & _ & _ & _ & _ & Hr)]];
      try discriminate.
    + injection Hr as -> _. discriminate.
    + destruct (read_mesh_entries_run sz count f (Z.to_nat count) []
                                      (offset + 24) ltac:(lia))
        as [(ms & pf & Hrun & _) | (q' & Hrun)]; rewrite Hrun in Hr;
        [discriminate|].
      injection Hr as -> _. discriminate.
  - pose proof (parse_binmesh_plg_cases offset f p0 Hoff) as Hc.
    cbv zeta in Hc. rewrite E in Hc.
    destruct Hc as [(q' & Hr & _)
                   | [(_ & _ & Hr)
                     | (sz & count & _ & _ & _ & _ & Hr)]];
      try discriminate.
    destruct (read_mesh_entries_run sz count f (Z.to_nat count) []
                                    (offset + 24) ltac:(lia))
      as [(ms & pf & Hrun & _) | (q' & Hrun)]; rewrite Hrun in Hr;
      discriminate.
Qed.

Lemma import_dff_eq (f : file) (p0 : Z) :
  import_dff f p0
  = match find_chunk_positions BINMESH_PLG_ID f p0 with
    | Ok binmesh_positions q =>
        match find_chunk_positions NATIVE_DATA_PLG_ID f q with
        | Ok native_positions q' =>
            match binmesh_positions, native_positions with
            | [], _ => Ok None q'
            | _, [] => Ok None q'
            | b :: _, n :: _ =>
                match parse_binmesh_plg b f q' with
                | Ok bm q1 =>
                    match parse_native_data_plg n bm f q1 with
                    | Ok splits q2 => Ok (Some splits) q2
                    | Raise e q2 => Raise e q2
                    | OutOfFuel => OutOfFuel
                    end
                | Raise e q1 => Raise e q1
                | OutOfFuel => OutOfFuel
                end
            end
        | Raise e q' => Raise e q'
        | OutOfFuel => OutOfFuel
        end
    | Raise e q => Raise e q
    | OutOfFuel => OutOfFuel
    end.
Proof.
  unfold import_dff, bind, ret.
  destruct (find_chunk_positions BINMESH_PLG_ID f p0) as [bp q| |];
    try reflexivity.
  destruct (find_chunk_positions NATIVE_DATA_PLG_ID f q) as [np q'| |];
    try reflexivity.
  destruct bp as [|b bp]; [reflexivity|].
  destruct np as [|n np]; [reflexivity|].
  destruct (parse_binmesh_plg b f q') as [bm q1| |]; reflexivity.
Qed.

(** X14.  [import_dff] returns early, without parsing, exactly when the
    word 0x50E or the word 0x510 occurs nowhere in the file.  Otherwise it
    parses the mesh-split header at the lowest offset that holds the word
    0x50E and the native data at the lowest offset that holds the word
    0x510, with that header.  It can be left by the [struct.error] of an
    unguarded read and by the two errors of the decoder, and by nothing
    else: no seek is refused, no index is out of range, no loop runs
    on. *)
Theorem import_dff_outcomes (f : file) (p0 : Z) :
  let absent id := forall o, 0 <= o -> word_at f o <> Some id in
  let lowest id k :=
    0 <= k /\ word_at f k = Some id
    /\ forall o, 0 <= o < k -> word_at f o <> Some id in
  match import_dff f p0 with
  | Ok None q =>
      q = len f /\ (absent BINMESH_PLG_ID \/ absent NATIVE_DATA_PLG_ID)
  | Ok (Some splits) q =>
      exists b n bm q1,
        lowest BINMESH_PLG_ID b /\ lowest NATIVE_DATA_PLG_ID n
        /\ parse_binmesh_plg b f (len f) = Ok bm q1
        /\ parse_native_data_plg n bm f q1 = Ok splits q
  | Raise (StructError s) _ => s <> InTry
  | Raise (MissingStructId _) _ => True
  | Raise (UnsupportedPlatform _) _ => True
  | Raise _ _ => False
  | OutOfFuel => False
  end
  /\ (absent BINMESH_PLG_ID \/ absent NATIVE_DATA_PLG_ID ->
      import_dff f p0 = Ok None (len f)).
Proof.
  intros absent lowest.
  assert (Hid1 : - 2 ^ 31 <= BINMESH_PLG_ID < 2 ^ 31)
    by (unfold BINMESH_PLG_ID; lia).
  assert (Hid2 : - 2 ^ 31 <= NATIVE_DATA_PLG_ID < 2 ^ 31)
    by (unfold NATIVE_DATA_PLG_ID; lia).
  rewrite import_dff_eq.
  destruct (find_first f p0 BINMESH_PLG_ID Hid1)
    as [[-> Habs1] | (b & rest1 & -> & Hb0 & Hbw & Hbl)];
    destruct (find_first f (len f) NATIVE_DATA_PLG_ID Hid2)
      as [[-> Habs2] | (n & rest2 & -> & Hn0 & Hnw & Hnl)].
  - split; [split; [reflexivity | left; exact Habs1] | reflexivity].
  - split; [split; [reflexivity | left; exact Habs1] | reflexivity].
  - split; [split; [reflexivity | right; exact Habs2] | reflexivity].
  - split.
    2:{ intros [Ha | Ha]; exfalso; [exact (Ha b Hb0 Hbw) | exact (Ha n Hn0 Hnw)]. }
    pose proof (parse_binmesh_plg_total b f (len f) Hb0) as Hbm.
    destruct (parse_binmesh_plg b f (len f)) as [bm q1|e q1|] eqn:Eb.
    + pose proof (parse_native_data_plg_total n bm f q1 Hn0 Hbm) as Hnat.
      destruct (parse_native_data_plg n bm f q1) as [splits q2|e q2|] eqn:En.
      * exists b, n, bm, q1. unfold lowest. repeat split; assumption.
      * exact Hnat.
      * exact Hnat.
    + destruct e; try contradiction. exact Hbm.
    + exact Hbm.
Qed.

Lemma import_dff_outcomes_witness :
  (forall o, 0 <= o -> word_at binmesh_plain o <> Some NATIVE_DATA_PLG_ID)
  /\ import_dff binmesh_plain 0 = Ok None (len binmesh_plain).
Proof.
  assert (Habs : forall o, 0 <= o ->
                   word_at binmesh_plain o <> Some NATIVE_DATA_PLG_ID).
  { assert (Hid : - 2 ^ 31 <= NATIVE_DATA_PLG_ID < 2 ^ 31)
      by (unfold NATIVE_DATA_PLG_ID; lia).
    destruct (find_first binmesh_plain 0 NATIVE_DATA_PLG_ID Hid)
      as [[_ Ha] | (k & rest & Hf & _)]; [exact Ha|].
    vm_compute in Hf. discriminate. }
  split; [exact Habs|].
  exact (proj2 (import_dff_outcomes binmesh_plain 0) (or_intror Habs)).
Defined.

(** ** Coordinates and the 16-bit values they come from *)

Lemma check_from_spec (P : Z -> bool) (n : nat) :
  forall x, check_from P n x = true ->
            forall k, x <= k < x + Z.of_nat n -> P k = true.
Proof.
  induction n as [|n IH]; intros x H k Hk; [lia|].
  cbn [check_from] in H. apply andb_true_iff in H. destruct H as [Hx Hrest].
  destruct (Z.eq_dec k x) as [-> | Hne]; [exact Hx|].
  apply (IH (x + 1) Hrest). lia.
Qed.

Lemma coords_exact_all :
  check_from coord_is_exact (Z.to_nat 65536) (-32768) = true.
Proof. vm_compute. reflexivity. Qed.

(** The coordinate of a 16-bit value is the finite binary64 number x / 128,
    with nothing rounded away. *)
Lemma coord_exact (x : Z) :
  in_i16 x -> times_128 (FloatOps.Prim2SF (coord x)) = Some x.
Proof.
  intros Hx. unfold in_i16 in Hx.
  assert (H : coord_is_exact x = true).
  { apply (check_from_spec coord_is_exact (Z.to_nat 65536) (-32768)
                           coords_exact_all).
    change (Z.of_nat (Z.to_nat 65536)) with 65536. lia. }
  unfold coord_is_exact in H.
  destruct (times_128 (FloatOps.Prim2SF (coord x))) as [v|]; [|discriminate].
  apply Z.eqb_eq in H. congruence.
Qed.

Lemma SFeqb_same_number (a b : SpecFloat.spec_float) (u v : Z) :
  times_128 a = Some u -> times_128 b = Some v ->
  SpecFloat.SFeqb a b = true -> u = v.
Proof.
  unfold SpecFloat.SFeqb.
  destruct a as [sa| sa| |sa ma ea]; destruct b as [sb| sb| |sb mb eb];
    cbn [times_128 SpecFloat.SFcompare]; try discriminate.
  - intros Hu Hv _. congruence.
  - intros _ _. destruct sb; discriminate.
  - intros _ _. destruct sa; discriminate.
  - intros Hu Hv H.
    assert (E : sa = sb /\ ea = eb /\ ma = mb).
    { destruct sa, sb; try discriminate;
        destruct (Z.compare ea eb) eqn:Ec; try discriminate;
        apply Z.compare_eq in Ec;
        destruct (Pos.compare_cont Eq ma mb) eqn:Em; try discriminate;
        apply Pos.compare_eq in Em; auto. }
    destruct E as (-> & -> & ->). congruence.
Qed.

Lemma SFeqb_self (a : SpecFloat.spec_float) (u : Z) :
  times_128 a = Some u -> SpecFloat.SFeqb a a = true.
Proof.
  unfold SpecFloat.SFeqb.
  destruct a as [sa| sa| |sa ma ea]; cbn [times_128 SpecFloat.SFcompare];
    try discriminate; intros _; [reflexivity|].
  rewrite Z.compare_refl.
  change (Pos.compare_cont Eq ma ma) with (Pos.compare ma ma).
  rewrite Pos.compare_refl. destruct sa; reflexivity.
Qed.

Lemma coord_eqb (x y : Z) :
  in_i16 x -> in_i16 y -> (coord x =? coord y)%float = (x =? y).
Proof.
  intros Hx Hy. rewrite FloatAxioms.eqb_spec.
  pose proof (coord_exact x Hx) as Ex. pose proof (coord_exact y Hy) as Ey.
  destruct (x =? y) eqn:E.
  - apply Z.eqb_eq in E. subst y. eapply SFeqb_self. exact Ex.
  - apply Z.eqb_neq in E.
    destruct (SpecFloat.SFeqb (FloatOps.Prim2SF (coord x))
                              (FloatOps.Prim2SF (coord y))) eqn:Eb;
      [|reflexivity].
    exfalso. apply E. eapply SFeqb_same_number; eauto.
Qed.

Lemma half_at_in_i16 (f : file) (q v : Z) : half_at f q = Some v -> in_i16 v.
Proof.
  unfold half_at, in_i16. intros H.
  assert (Hl : length (slice f q 2) = 2%nat)
    by (apply (unpack_Some_iff endian true); eauto).
  unfold unpack in H. rewrite Hl in H. cbn [Nat.eqb] in H.
  injection H as <-. cbn [unsigned_value endian].
  pose proof (le_value_bound (slice f q 2)) as Hb. rewrite Hl in Hb.
  change (8 * Z.of_nat 2) with 16.
  change (2 ^ 15) with (2 ^ (16 - 1)).
  apply to_signed_range; [lia|]. exact Hb.
Qed.

(** X15.  The duplicate test of the reconstruction has no tolerance and
    loses nothing: two vertices decoded from the file compare equal exactly
    when their three 16-bit values are the same. *)
Theorem duplicate_test_is_exact (f : file) (q q' : Z) (v v' : Vector) :
  vertex_at f q = Some v -> vertex_at f q' = Some v' ->
  (same_position v v' = true
   <-> half_at f q = half_at f q'
       /\ half_at f (q + 2) = half_at f (q' + 2)
       /\ half_at f (q + 4) = half_at f (q' + 4)).
Proof.
  unfold vertex_at. fold (half_at f q) (half_at f (q + 2)) (half_at f (q + 4)).
  fold (half_at f q') (half_at f (q' + 2)) (half_at f (q' + 4)).
  destruct (half_at f q) as [x|] eqn:Ex; [|discriminate].
  destruct (half_at f (q + 2)) as [y|] eqn:Ey; [|discriminate].
  destruct (half_at f (q + 4)) as [z|] eqn:Ez; [|discriminate].
  destruct (half_at f q') as [x'|] eqn:Ex'; [|discriminate].
  destruct (half_at f (q' + 2)) as [y'|] eqn:Ey'; [|discriminate].
  destruct (half_at f (q' + 4)) as [z'|] eqn:Ez'; [|discriminate].
  intros H H'. injection H as <-. injection H' as <-.
  unfold same_position. cbn [vx vy vz].
  fold (coord x) (coord y) (coord z) (coord x') (coord y') (coord z').
  rewrite !coord_eqb by (eapply half_at_in_i16; eauto).
  rewrite !andb_true_iff, !Z.eqb_eq.
  split.
  - intros [[-> ->] ->]. auto.
  - intros (Hx & Hy & Hz). injection Hx as ->. injection Hy as ->.
    injection Hz as ->. auto.
Qed.

Lemma duplicate_test_is_exact_witness :
  vertex_at five_vertices 0 = Some (mkVector 2 (-1) 0)
  /\ vertex_at five_vertices 8 = Some (mkVector 0 1 0)
  /\ (same_position (mkVector 2 (-1) 0) (mkVector 0 1 0) = true
      <-> half_at five_vertices 0 = half_at five_vertices 8
          /\ half_at five_vertices (0 + 2) = half_at five_vertices (8 + 2)
          /\ half_at five_vertices (0 + 4) = half_at five_vertices (8 + 4)).
Proof.
  assert (H : vertex_at five_vertices 0 = Some (mkVector 2 (-1) 0))
    by (vm_compute; reflexivity).
  assert (H' : vertex_at five_vertices 8 = Some (mkVector 0 1 0))
    by (vm_compute; reflexivity).
  split; [exact H|]. split; [exact H'|].
  exact (duplicate_test_is_exact five_vertices 0 8 _ _ H H').
Defined.

(** ** The masked data type of a DMA entry *)








(** ** The decoders on the same bytes further down a file *)

Section Prefix.

(** The bytes [pre] put in front of the file [f]. *)
Variable pre : list byte.
Variable f : file.

Lemma slice_shift (p : Z) (n : nat) :
  0 <= p -> slice (pre ++ f) (p + len pre) n = slice f p n.
Proof.
  intros Hp. unfold slice, len.
  replace (Z.to_nat (p + Z.of_nat (length pre)))
    with (length pre + Z.to_nat p)%nat by lia.
  rewrite skipn_app, skipn_all2 by lia.
  replace (length pre + Z.to_nat p - length pre)%nat with (Z.to_nat p) by lia.
  reflexivity.
Qed.

Lemma shifts_at_bind {A B} (g : A -> A) (h : B -> B) (m m' : M A)
      (k k' : A -> M B) (p : Z) :
  shifts_at pre f g m m' p ->
  (forall a q, m f p = Ok a q -> 0 <= q ->
               shifts_at pre f h (k a) (k' (g a)) q) ->
  shifts_at pre f h (bind m k) (bind m' k') p.
Proof.
  intros [E I] Hk. unfold shifts_at, bind. rewrite E.
  destruct (m f p) as [a q|e q|]; cbn [shift_outcome in_file] in *.
  - apply Hk; [reflexivity | exact I].
  - split; [reflexivity | exact I].
  - split; [reflexivity | exact I].
Qed.

Lemma shifts_bind {A B} (g : A -> A) (h : B -> B) (m m' : M A)
      (k k' : A -> M B) :
  shifts pre f g m m' ->
  (forall a, shifts pre f h (k a) (k' (g a))) ->
  shifts pre f h (bind m k) (bind m' k').
Proof.
  intros Hm Hk p Hp. apply (shifts_at_bind g); [apply Hm; exact Hp|].
  intros a q _ Hq. apply Hk. exact Hq.
Qed.

Lemma shifts_bind_same {A B} (h : B -> B) (m m' : M A) (k k' : A -> M B) :
  shifts pre f (fun a => a) m m' ->
  (forall a, shifts pre f h (k a) (k' a)) ->
  shifts pre f h (bind m k) (bind m' k').
Proof. intros Hm Hk. apply (shifts_bind (fun a => a)); assumption. Qed.

Lemma shifts_ret {A} (g : A -> A) (a : A) :
  shifts pre f g (ret a) (ret (g a)).
Proof. intros p Hp. split; [reflexivity | exact Hp]. Qed.

Lemma shifts_ret_same {A} (a : A) :
  shifts pre f (fun a => a) (ret a) (ret a).
Proof. apply (shifts_ret (fun a => a)). Qed.

Lemma shifts_raise {A} (g : A -> A) (e : exn) :
  shifts pre f g (raise e) (raise (shift_exn (len pre) e)).
Proof. intros p Hp. split; [reflexivity | exact Hp]. Qed.

Lemma shifts_try {A} (g : A -> A) (m m' h h' : M A) :
  shifts pre f g m m' -> shifts pre f g h h' ->
  shifts pre f g (try_except m h) (try_except m' h').
Proof.
  intros Hm Hh p Hp. destruct (Hm p Hp) as [E I].
  unfold shifts_at, try_except. rewrite E.
  destruct (m f p) as [a q|e q|]; cbn [shift_outcome in_file] in *.
  - split; [reflexivity | exact I].
  - apply Hh. exact I.
  - split; [reflexivity | exact I].
Qed.

Lemma shifts_read_int (s : site) (sg : bool) (n : nat) :
  shifts pre f (fun a => a) (read_int s sg n) (read_int s sg n).
Proof.
  intros p Hp. unfold shifts_at.
  rewrite !read_int_eq, slice_shift by assumption.
  destruct (unpack endian sg n (slice f p n));
    cbn [shift_outcome shift_exn in_file]; split; try lia; f_equal; lia.
Qed.

Lemma shifts_seek_set (q : Z) :
  0 <= q ->
  shifts pre f (fun a => a) (seek_set q) (seek_set (q + len pre)).
Proof.
  intros Hq p Hp. unfold shifts_at.
  rewrite !seek_set_eq by (unfold len; lia).
  split; [reflexivity | exact Hq].
Qed.

Lemma shifts_seek_cur (k : Z) :
  0 <= k -> shifts pre f (fun a => a) (seek_cur k) (seek_cur k).
Proof.
  intros Hk p Hp. unfold shifts_at.
  rewrite !seek_cur_eq by (unfold len; lia).
  cbn [shift_outcome in_file]. split; [f_equal; lia | lia].
Qed.

Lemma shifts_list_get {A} (l : list A) (i : Z) :
  shifts pre f (fun a => a) (list_get l i) (list_get l i).
Proof.
  intros p Hp. unfold shifts_at, list_get.
  destruct ((if i <? 0 then i + Z.of_nat (length l) else i) <? 0);
    [split; [reflexivity | exact Hp]|].
  destruct (nth_error l (Z.to_nat (if i <? 0 then i + Z.of_nat (length l) else i)));
    split; try reflexivity; exact Hp.
Qed.

Lemma pos_Ok (g : file) (p q a : Z) : pos g p = Ok a q -> a = p /\ q = p.
Proof. unfold pos. intros H. injection H as <- <-. auto. Qed.

Lemma shifts_at_pos (p : Z) :
  0 <= p -> shifts_at pre f (fun q => q + len pre) pos pos p.
Proof. intros Hp. split; [reflexivity | exact Hp]. Qed.

(** *** parse_binmesh_plg *)

Lemma shifts_read_indices (count : nat) :
  forall idxs,
    shifts pre f (fun a => a) (read_indices count idxs) (read_indices count idxs).
Proof.
  induction count as [|count IH]; intros idxs; cbn [read_indices].
  - apply shifts_ret_same.
  - apply shifts_bind_same.
    + apply shifts_try; [|apply shifts_ret_same].
      apply shifts_bind_same; [apply shifts_read_int|].
      intros v. apply shifts_ret_same.
    + intros [v|]; [apply IH | apply shifts_ret_same].
Qed.

Lemma shifts_read_mesh_entry (size count : Z) :
  shifts pre f (fun a => a) (read_mesh_entry size count)
         (read_mesh_entry size count).
Proof.
  unfold read_mesh_entry.
  apply shifts_bind_same; [apply shifts_read_int|]. intros c.
  apply shifts_bind_same; [apply shifts_read_int|]. intros m.
  destruct (has_explicit_indices size count).
  - apply shifts_bind_same; [apply shifts_read_indices|].
    intros idxs. apply shifts_ret_same.
  - apply shifts_ret_same.
Qed.

Lemma shifts_read_mesh_entries (n : nat) (size count : Z) :
  forall acc,
    shifts pre f (fun a => a) (read_mesh_entries n size count acc)
           (read_mesh_entries n size count acc).
Proof.
  induction n as [|n IH]; intros acc; cbn [read_mesh_entries].
  - apply shifts_ret_same.
  - apply shifts_bind_same; [apply shifts_read_mesh_entry|].
    intros e. apply IH.
Qed.

Lemma shifts_parse_binmesh_plg (offset : Z) :
  0 <= offset ->
  shifts pre f (move_header (len pre)) (parse_binmesh_plg offset)
         (parse_binmesh_plg (offset + len pre)).
Proof.
  intros Hoff. unfold parse_binmesh_plg.
  apply shifts_bind_same; [apply shifts_seek_set; exact Hoff|]. intros _.
  apply shifts_bind_same; [apply shifts_read_int|]. intros section_id.
  apply shifts_bind_same; [apply shifts_read_int|]. intros size.
  apply shifts_bind_same; [apply shifts_read_int|]. intros version.
  apply (shifts_bind (fun q => q + len pre));
    [intros p Hp; apply shifts_at_pos; exact Hp|].
  intros data_start.
  destruct (size =? 12).
  - apply (shifts_ret (move_header (len pre)) (mkBinMesh 0 [] None None)).
  - apply shifts_bind_same; [apply shifts_read_int|]. intros face_type.
    apply shifts_bind_same; [apply shifts_read_int|]. intros count.
    apply shifts_bind_same; [apply shifts_read_int|]. intros total.
    apply shifts_bind_same; [apply shifts_read_mesh_entries|]. intros entries.
    apply (shifts_ret (move_header (len pre))
                      (mkBinMesh count entries (Some size) (Some offset))).
Qed.

(** *** parse_native_data_plg *)

Lemma shifts_read_vertex :
  shifts pre f (fun a => a) read_vertex read_vertex.
Proof.
  unfold read_vertex. apply shifts_bind_same.
  - apply shifts_try; [|apply shifts_ret_same].
    apply shifts_bind_same; [apply shifts_read_int|]. intros x.
    apply shifts_bind_same; [apply shifts_read_int|]. intros y.
    apply shifts_bind_same; [apply shifts_read_int|]. intros z.
    apply shifts_ret_same.
  - intros [[[x y] z]|]; [|apply shifts_ret_same].
    apply shifts_bind_same; [apply shifts_seek_cur; lia|].
    intros _. apply shifts_ret_same.
Qed.

Lemma shifts_read_vertices (count : nat) :
  forall verts,
    shifts pre f (fun a => a) (read_vertices count verts)
           (read_vertices count verts).
Proof.
  induction count as [|count IH]; intros verts; cbn [read_vertices].
  - apply shifts_ret_same.
  - apply shifts_bind_same; [apply shifts_read_vertex|].
    intros [v|]; [apply IH | apply shifts_ret_same].
Qed.

Lemma shifts_read_dma_entry :
  shifts pre f (fun a => a) read_dma_entry read_dma_entry.
Proof.
  unfold read_dma_entry.
  apply shifts_bind_same; [apply shifts_seek_cur; lia|]. intros _.
  apply shifts_bind_same.
  - apply shifts_try; [|apply shifts_ret_same].
    apply shifts_bind_same; [apply shifts_read_int|].
    intros v. apply shifts_ret_same.
  - intros [id|]; [|apply shifts_ret_same].
    apply shifts_bind_same; [apply shifts_read_int|]. intros off.
    apply shifts_bind_same; [apply shifts_seek_cur; lia|]. intros _.
    apply shifts_bind_same; [apply shifts_read_int|]. intros ty.
    apply shifts_ret_same.
Qed.

Ltac as_shifts :=
  match goal with
  | |- forall q, 0 <= q -> shifts_at ?pre ?f ?g ?m ?m' q =>
      change (shifts pre f g m m')
  end.

Lemma shifts_read_vertex_block (bm : binmesh) (idx data : Z)
      (ms : material_split) :
  0 <= data ->
  shifts pre f (fun a => a) (read_vertex_block bm idx data ms)
         (read_vertex_block bm idx (data + len pre) ms).
Proof.
  intros Hd p Hp. unfold read_vertex_block.
  apply (shifts_at_bind (fun q => q + len pre));
    [apply shifts_at_pos; exact Hp|].
  intros oldpos q Hpos. apply pos_Ok in Hpos. destruct Hpos as [Ho _].
  assert (Hold : 0 <= oldpos) by lia. clear Ho. revert q. as_shifts.
  apply shifts_bind_same; [apply shifts_seek_set; exact Hd|].
  intros _. apply shifts_bind_same; [apply shifts_list_get|]. intros entry.
  apply shifts_bind_same; [apply shifts_read_vertices|]. intros verts.
  apply shifts_bind_same; [apply shifts_seek_set; exact Hold|].
  intros _. apply shifts_ret_same.
Qed.

Lemma shifts_process_dma_entry (bm : binmesh) (idx start : Z) (e : DMAEntry)
      (ms : material_split) (b : bool) :
  0 <= start -> 0 <= uiDataOffset e ->
  shifts pre f (fun a => a) (process_dma_entry bm idx start e ms b)
         (process_dma_entry bm idx (start + len pre) e ms b).
Proof.
  intros Hs Ho. unfold process_dma_entry.
  replace (start + len pre + uiDataOffset e * 16)
    with (start + uiDataOffset e * 16 + len pre) by lia.
  destruct (bDMAId e =? 0x30).
  - apply shifts_bind_same.
    + destruct (uiDataType e =? DMATAG_VERTEX_4_INT16);
        [apply shifts_read_vertex_block; lia | apply shifts_ret_same].
    + intros ms'. apply shifts_bind_same; [apply shifts_seek_cur; lia|].
      intros _. apply shifts_ret_same.
  - destruct (bDMAId e =? 0x10); apply shifts_ret_same.
Qed.

(** The loop with more fuel, wherever the fuel it had was enough. *)
Lemma dma_loop_shift (bm : binmesh) (idx start dend : Z) :
  0 <= start ->
  forall (n n' : nat) (ms : material_split) (b : bool) (p : Z),
    (n <= n')%nat -> 0 <= p ->
    dma_loop n bm idx start dend ms b f p <> OutOfFuel ->
    shifts_at pre f (fun a => a)
              (dma_loop n bm idx start dend ms b)
              (dma_loop n' bm idx (start + len pre) (dend + len pre) ms b) p.
Proof.
  intros Hs. induction n as [|n IH]; intros n' ms b p Hn Hp Hfuel.
  - exfalso. apply Hfuel. reflexivity.
  - destruct n' as [|n']; [lia|]. unfold shifts_at.
    rewrite dma_loop_S in Hfuel. rewrite !dma_loop_S.
    replace (p + len pre <? dend + len pre) with (p <? dend)
      by (destruct (Z.ltb_spec p dend), (Z.ltb_spec (p + len pre) (dend + len pre));
          try reflexivity; lia).
    destruct ((p <? dend) && negb b);
      [|split; [reflexivity | exact Hp]].
    destruct (shifts_read_dma_entry p Hp) as [E I]. rewrite E.
    destruct (read_dma_entry f p) as [[e|] q|x q|] eqn:Er;
      cbn [shift_outcome in_file] in *;
      try (split; [reflexivity | exact I]).
    destruct (read_dma_entry_Some f p q e Hp Er) as (_ & _ & Hoff).
    destruct (shifts_process_dma_entry bm idx start e ms b Hs Hoff q I)
      as [E2 I2].
    rewrite E2.
    destruct (process_dma_entry bm idx start e ms b f q) as [r q'|x q'|];
      cbn [shift_outcome in_file] in *;
      try (split; [reflexivity | exact I2]).
    apply IH; [lia | exact I2 | exact Hfuel].
Qed.

Lemma shifts_add_triangles (ms : material_split) :
  shifts pre f (fun a => a) (add_triangles ms) (add_triangles ms).
Proof.
  intros p Hp. unfold shifts_at. rewrite !add_triangles_eq.
  split; [reflexivity | exact Hp].
Qed.

Lemma dma_fuel_Ok (g : file) (p q : Z) (n : nat) :
  dma_fuel g p = Ok n q -> n = S (length g) /\ q = p.
Proof. unfold dma_fuel. intros H. injection H as <- <-. auto. Qed.

Lemma shifts_parse_split (bm : binmesh) (idx : Z) :
  shifts pre f (fun a => a) (parse_split bm idx) (parse_split bm idx).
Proof.
  intros p Hp. unfold parse_split.
  apply (shifts_at_bind (fun a => a)); [apply shifts_read_int; exact Hp|].
  intros size q Hsize. apply read_u32_Ok in Hsize. destruct Hsize as [Hsize _].
  apply uword_at_nonneg in Hsize. revert q. as_shifts.
  apply shifts_bind_same; [apply shifts_seek_cur; lia|]. intros _.
  intros p1 Hp1.
  apply (shifts_at_bind (fun q => q + len pre));
    [apply shifts_at_pos; exact Hp1|].
  intros start q Hpos. apply pos_Ok in Hpos. destruct Hpos as [Hst _].
  assert (Hstart : 0 <= start) by lia. clear Hst. revert q. as_shifts.
  apply shifts_bind_same; [apply shifts_seek_cur; lia|]. intros _.
  apply shifts_bind_same; [apply shifts_read_int|]. intros words.
  apply shifts_bind_same; [apply shifts_seek_set; exact Hstart|]. intros _.
  intros p2 Hp2.
  apply (shifts_at_bind (fun a => a)); [apply shifts_list_get; exact Hp2|].
  intros entry q Hentry Hq.
  pose proof (list_get_indep _ _ _ _ _ _ Hentry) as Hfound.
  apply (shifts_at_bind (fun n => (n + length pre)%nat)).
  { split; [|exact Hq]. unfold dma_fuel. cbn [shift_outcome].
    rewrite length_app. f_equal. lia. }
  intros fuel q' Hfuel Hq'. apply dma_fuel_Ok in Hfuel.
  destruct Hfuel as [-> _].
  apply (shifts_at_bind (fun a => a)).
  { replace (start + len pre + words * 16)
      with (start + words * 16 + len pre) by lia.
    apply dma_loop_shift; [exact Hstart | lia | exact Hq'|].
    destruct (dma_loop_run bm idx entry Hfound f start Hstart
                           (start + words * 16) (S (length f))
                           (mkSplit (iMaterialIndex entry) None [] false)
                           false q' Hq')
      as [(es & r & -> & _) | (r & -> & _)];
      [unfold len; lia | discriminate | discriminate]. }
  intros ms r _. revert r. as_shifts.
  apply shifts_bind_same; [apply shifts_add_triangles|]. intros ms'.
  replace (start + len pre + size) with (start + size + len pre) by lia.
  apply shifts_bind_same; [apply shifts_seek_set; lia|]. intros _.
  apply shifts_ret_same.
Qed.

Lemma shifts_parse_splits (bm : binmesh) (indices : list Z) :
  forall acc,
    shifts pre f (fun a => a) (parse_splits indices bm acc)
           (parse_splits indices bm acc).
Proof.
  induction indices as [|i indices IH]; intros acc; cbn [parse_splits].
  - apply shifts_ret_same.
  - apply shifts_bind_same; [apply shifts_parse_split|].
    intros ms. apply IH.
Qed.

Lemma shifts_parse_native_data_plg (offset : Z) (bm : binmesh) :
  0 <= offset ->
  shifts pre f (fun a => a) (parse_native_data_plg offset bm)
         (parse_native_data_plg (offset + len pre) bm).
Proof.
  intros Hoff. unfold parse_native_data_plg.
  apply shifts_bind_same; [apply shifts_seek_set; exact Hoff|]. intros _.
  apply shifts_bind_same; [apply shifts_read_int|]. intros sid.
  apply shifts_bind_same; [apply shifts_read_int|]. intros size.
  apply shifts_bind_same; [apply shifts_read_int|]. intros version.
  apply shifts_bind_same; [apply shifts_read_int|]. intros marker.
  destruct (negb (marker =? STRUCT_ID)).
  - apply (shifts_bind (fun q => q + len pre));
      [intros p Hp; apply shifts_at_pos; exact Hp|].
    intros p. apply (shifts_raise (fun a => a) (MissingStructId p)).
  - apply shifts_bind_same; [apply shifts_read_int|]. intros ssize.
    apply shifts_bind_same; [apply shifts_read_int|]. intros srwv.
    destruct (ssize =? 4); [apply shifts_ret_same|].
    apply shifts_bind_same; [apply shifts_read_int|]. intros platform.
    destruct (negb (platform =? 0x4)).
    + apply (shifts_raise (fun a => a) (UnsupportedPlatform platform)).
    + apply shifts_parse_splits.
Qed.

End Prefix.

Lemma seek_set_first {A} (offset : Z) (k : unit -> M A) (g : file) (p p' : Z) :
  0 <= offset ->
  bind (seek_set offset) k g p = bind (seek_set offset) k g p'.
Proof.
  intros H. unfold bind. rewrite !seek_set_eq by assumption. reflexivity.
Qed.

(** X17.  The two section decoders go by the bytes from the offset they are
    given, not by where those bytes are in the file.  With any bytes [pre]
    put in front of the file and the offset moved by their number, each
    decoder does what it did before, from whatever cursor it starts: the
    same result or the same exception, every position [len pre] further on
    (the cursor, the ["section_offset"] of the header and the position a
    missing structure marker is reported at). *)
Theorem decoders_follow_their_bytes
        (pre : list byte) (f : file) (offset : Z) (bm : binmesh) (p0 p1 : Z) :
  0 <= offset ->
  parse_binmesh_plg (offset + len pre) (pre ++ f) p1
  = shift_outcome (move_header (len pre)) (len pre)
                  (parse_binmesh_plg offset f p0)
  /\ parse_native_data_plg (offset + len pre) bm (pre ++ f) p1
     = shift_outcome (fun splits => splits) (len pre)
                     (parse_native_data_plg offset bm f p0).
Proof.
  intros Hoff. split.
  - destruct (shifts_parse_binmesh_plg pre f offset Hoff 0 (Z.le_refl 0))
      as [E _].
    unfold parse_binmesh_plg in *.
    rewrite (seek_set_first _ _ (pre ++ f) p1 (0 + len pre)) by (unfold len; lia).
    rewrite (seek_set_first _ _ f p0 0) by exact Hoff.
    exact E.
  - destruct (shifts_parse_native_data_plg pre f offset bm Hoff 0 (Z.le_refl 0))
      as [E _].
    unfold parse_native_data_plg in *.
    rewrite (seek_set_first _ _ (pre ++ f) p1 (0 + len pre)) by (unfold len; lia).
    rewrite (seek_set_first _ _ f p0 0) by exact Hoff.
    exact E.
Qed.

Lemma decoders_follow_their_bytes_witness :
  0 <= 32 /\
  parse_binmesh_plg (0 + len sample_native) (sample_native ++ sample_dff) 0
  = shift_outcome (move_header (len sample_native)) (len sample_native)
                  (parse_binmesh_plg 0 sample_dff 0)
  /\ parse_native_data_plg (32 + len sample_native) sample_binmesh
                           (sample_native ++ sample_dff) 0
     = shift_outcome (fun splits => splits) (len sample_native)
                     (parse_native_data_plg 32 sample_binmesh sample_dff 0).
Proof.
  split; [lia|]. split.
  - apply (decoders_follow_their_bytes sample_native sample_dff 0
                                       sample_binmesh 0 0). lia.
  - apply (decoders_follow_their_bytes sample_native sample_dff 32
                                       sample_binmesh 0 0). lia.
Defined.

(** ** The objects of an import *)






